(** * House evaluator: the scoring pipeline, its store and its image compositor

    A shallow embedding of the Python sources
      - [src/services/image_composite.py]
      - [src/storage/json_store.py]
      - [src/agents/present_fit.py], [src/agents/vision.py],
        [src/agents/potential.py], [src/agents/brief.py]
      - [src/agents/orchestrator.py]
    and the properties the specification states about them.

    Conventions of the embedding.
      - A Python [int] is a [Z].  A Python [float] is a double: the
        rational it denotes, an infinity or [nan] (type [pyfloat]).  Every
        float operation rounds its exact result to the nearest double,
        ties to even ([Double.round]); the sign of a zero, which nothing
        below observes, is not kept.
      - A Python [str] is a [string]; one [ascii] stands for one character,
        so texts range over the 8-bit characters.
      - Python exceptions are values of [exn]; code that may raise returns
        a [res].  Code that also reads or writes the store or talks to the
        network runs in the monad [M], in which the state survives a
        raise, as side effects do in Python. *)

From Stdlib Require Import ZArith QArith Qround String Ascii Lia.
From stdpp Require Import gmap strings list fin_maps.

Local Open Scope string_scope.
Local Open Scope Z_scope.

Set Warnings "-register-all,-clear-no-such-hyp,-notation-for-abbreviation".

(** ** Exceptions and results *)

Inductive exn : Type :=
  | JSONDecodeError
  | KeyError
  | TypeError
  | AttributeError
  | ValidationError
  | OverflowError
  | ZeroDivisionError
  | ValueError
  | HTTPStatusError
  | RequestError
  | UnidentifiedImageError
  | OtherException (what : string).

Inductive res (A : Type) : Type :=
  | Ok (a : A)
  | Raise (e : exn).

Arguments Ok {A} a.
Arguments Raise {A} e.

Definition res_bind {A B} (r : res A) (k : A -> res B) : res B :=
  match r with
  | Ok a => k a
  | Raise e => Raise e
  end.

Definition is_Ok {A} (r : res A) : Prop := exists a, r = Ok a.

Declare Scope res_scope.
Delimit Scope res_scope with res.
Notation "x <- c1 ;; c2" := (res_bind c1 (fun x => c2))
  (at level 100, c1 at next level, right associativity) : res_scope.

(** ** Integer arithmetic and slices *)

Module PyMath.

(** [a // b] and [a % b] on integers. *)
Definition floordiv (a b : Z) : res Z :=
  if b =? 0 then Raise ZeroDivisionError else Ok (a / b).

Definition modulo (a b : Z) : res Z :=
  if b =? 0 then Raise ZeroDivisionError else Ok (a mod b).

(** [l[:stop]] on a list. *)
Definition list_until {A} (l : list A) (stop : Z) : list A :=
  let n := Z.of_nat (length l) in
  let b := if stop <? 0 then stop + n else stop in
  firstn (Z.to_nat (Z.max 0 (Z.min n b))) l.

(** The specification's reading of the two ceilings: [r] is the ceiling
    of [a / b], and [k] the ceiling of the square root of [n]. *)
Definition is_ceil_quot (a b r : Z) : Prop := (r - 1) * b < a <= r * b.
Definition is_ceil_sqrt (n k : Z) : Prop :=
  0 <= k /\ (k = 0 \/ (k - 1) * (k - 1) < n) /\ n <= k * k.

End PyMath.

(** ** Python strings *)

Module Py.

Definition code (c : ascii) : Z := Z.of_N (N_of_ascii c).

Definition chr (n : Z) : ascii := ascii_of_N (Z.to_N n).

Definition between (lo n hi : Z) : bool := (lo <=? n) && (n <=? hi).

(** [c.isspace()], which is what [str.split()] and [str.strip()] test. *)
Definition isspace (c : ascii) : bool :=
  let n := code c in
  between 9 n 13 || between 28 n 32 || (n =? 133) || (n =? 160).

(** [c.isalnum()] on the characters below 256. *)
Definition isalnum (c : ascii) : bool :=
  let n := code c in
  between 48 n 57 || between 65 n 90 || between 97 n 122
  || (n =? 170) || (n =? 178) || (n =? 179) || (n =? 181)
  || (n =? 185) || (n =? 186) || between 188 n 190
  || between 192 n 214 || between 216 n 246 || between 248 n 255.

Definition lower_char (c : ascii) : ascii :=
  let n := code c in
  if between 65 n 90 || between 192 n 214 || between 216 n 222
  then chr (n + 32) else c.

Fixpoint map_chars (f : ascii -> ascii) (s : string) : string :=
  match s with
  | EmptyString => EmptyString
  | String c r => String (f c) (map_chars f r)
  end.

(** [s.lower()] *)
Definition lower (s : string) : string := map_chars lower_char s.

Definition len (s : string) : Z := Z.of_nat (String.length s).

Fixpoint rev_onto (s acc : string) : string :=
  match s with
  | EmptyString => acc
  | String c r => rev_onto r (String c acc)
  end.

Definition rev (s : string) : string := rev_onto s EmptyString.

Fixpoint drop (n : nat) (s : string) : string :=
  match n, s with
  | O, _ => s
  | S k, EmptyString => EmptyString
  | S k, String _ r => drop k r
  end.

Fixpoint take (n : nat) (s : string) : string :=
  match n, s with
  | O, _ => EmptyString
  | S k, EmptyString => EmptyString
  | S k, String c r => String c (take k r)
  end.

(** A slice bound as Python resolves it against a length: a negative
    bound counts from the end, and the result is clipped to [0, length]. *)
Definition clip (length bound : Z) : Z :=
  let b := if bound <? 0 then bound + length else bound in
  Z.max 0 (Z.min length b).

(** [s[start:stop]]; [None] is an omitted bound. *)
Definition slice (s : string) (start stop : option Z) : string :=
  let n := len s in
  let a := match start with Some i => clip n i | None => 0 end in
  let b := match stop with Some j => clip n j | None => n end in
  take (Z.to_nat (b - a)) (drop (Z.to_nat a) s).

Fixpoint find_in (sub s : string) (at_ : Z) : Z :=
  if String.prefix sub s then at_
  else match s with
       | EmptyString => -1
       | String _ r => find_in sub r (at_ + 1)
       end.

(** [s.find(sub, start)] *)
Definition find (s sub : string) (start : Z) : Z :=
  let n := len s in
  let a := if start <? 0 then Z.max 0 (start + n) else start in
  if n <? a then -1 else find_in sub (drop (Z.to_nat a) s) a.

(** [sub in s] *)
Definition contains (sub s : string) : bool := negb (find s sub 0 =? -1).

(** [s.endswith(suffix)] *)
Definition endswith (s suffix : string) : bool :=
  String.prefix (rev suffix) (rev s).

Fixpoint lstrip (s : string) : string :=
  match s with
  | EmptyString => EmptyString
  | String c r => if isspace c then lstrip r else s
  end.

(** [s.strip()] *)
Definition strip (s : string) : string := rev (lstrip (rev (lstrip s))).

Fixpoint split_go (word : option string) (s : string) : list string :=
  match s with
  | EmptyString => match word with Some w => [rev w] | None => [] end
  | String c r =>
      if isspace c
      then match word with
           | Some w => rev w :: split_go None r
           | None => split_go None r
           end
      else split_go (Some (String c (default EmptyString word))) r
  end.

(** [s.split()]: the maximal runs of characters that are not whitespace. *)
Definition split (s : string) : list string := split_go None s.

(** [sep.join(words)] *)
Fixpoint join (sep : string) (words : list string) : string :=
  match words with
  | [] => EmptyString
  | [w] => w
  | w :: rest => String.append w (String.append sep (join sep rest))
  end.

Fixpoint replace_go (old new : string) (skip : nat) (s : string) : string :=
  match s with
  | EmptyString => EmptyString
  | String c r =>
      match skip with
      | S k => replace_go old new k r
      | O =>
          if String.prefix old s
          then String.append new (replace_go old new (String.length old - 1) r)
          else String c (replace_go old new 0 r)
      end
  end.

Fixpoint intersperse (new s : string) : string :=
  match s with
  | EmptyString => new
  | String c r => String.append new (String c (intersperse new r))
  end.

(** [s.replace(old, new)]: the occurrences of [old] from the left, not
    overlapping. *)
Definition replace (s old new : string) : string :=
  match old with
  | EmptyString => intersperse new s
  | String _ _ => replace_go old new 0 s
  end.

(** ["".join(c if keep(c) else "" for c in s)]: the characters that
    [keep] holds of, in their order. *)
Fixpoint filter_chars (keep : ascii -> bool) (s : string) : string :=
  match s with
  | EmptyString => EmptyString
  | String c r => if keep c then String c (filter_chars keep r) else filter_chars keep r
  end.

(** [sorted(l, key=key, reverse=True)], where [lt a b] is [key(a) < key(b)].
    The sort is stable: an item goes behind the items listed before it
    whose key is not less than its own.  This is what Python returns when
    [<] orders the keys totally; a [nan] among the keys is not modelled. *)
Fixpoint insert_reverse {A} (lt : A -> A -> bool) (a : A) (sorted : list A) : list A :=
  match sorted with
  | [] => [a]
  | x :: rest => if lt x a then a :: x :: rest else x :: insert_reverse lt a rest
  end.

Definition sorted_reverse {A} (lt : A -> A -> bool) (l : list A) : list A :=
  fold_left (fun acc a => insert_reverse lt a acc) l [].

End Py.

(** ** Python numbers and the objects [json.loads] builds *)

Inductive pyfloat : Type :=
  | fnan
  | finf (negative : bool)
  | fin (q : Q).

(** ** Rounding to a double

    The doubles are the numbers [m * 2^k] with [m] of at most 53 bits and
    [-1074 <= k], below [2^1024].  A float operation returns the double
    nearest to its exact result, the one with an even [m] of two nearest
    ones, and an infinity when that is [2^1024] or more. *)

Module Double.

Definition prec : Z := 53.
Definition emin : Z := -1074.
Definition emax : Z := 1024.

(** [p / (d * 2^k)] as a fraction of two integers. *)
Definition shifted (p d k : Z) : Z * Z :=
  if 0 <=? k then (p, d * 2 ^ k) else (p * 2 ^ (- k), d).

(** The integer nearest to [p / d], for [0 < d]; of two nearest ones, the
    even one. *)
Definition nearest_even (p d : Z) : Z :=
  let q := p / d in
  let r := p mod d in
  if 2 * r <? d then q
  else if d <? 2 * r then q + 1
  else if Z.even q then q else q + 1.

(** The exponent [e] with [2^e <= p / d < 2^(e+1)], for [0 < p] and
    [0 < d]. *)
Definition exponent (p d : Z) : Z :=
  let e := Z.log2 p - Z.log2 d in
  let (n, m) := shifted p d e in
  if m <=? n then e else e - 1.

(** The double nearest to [p / d], for [0 < p] and [0 < d], as the pair
    [(m, k)] that stands for [m * 2^k]; [k] is the exponent of the last
    place. *)
Definition nearest (p d : Z) : Z * Z :=
  let k := Z.max (exponent p d - (prec - 1)) emin in
  let (n, m) := shifted p d k in
  (nearest_even n m, k).

(** [m * 2^k] *)
Definition value (m k : Z) : Q :=
  if 0 <=? k then inject_Z (m * 2 ^ k) else Qmake m (Z.to_pos (2 ^ (- k))).

(** [p / d] rounded to a double, for [0 < d]. *)
Definition round_ratio (p d : Z) : pyfloat :=
  match p with
  | 0 => fin 0
  | Z.pos _ =>
      let (m, k) := nearest p d in
      if (0 <=? k) && (2 ^ emax <=? m * 2 ^ k) then finf false else fin (value m k)
  | Z.neg _ =>
      let (m, k) := nearest (- p) d in
      if (0 <=? k) && (2 ^ emax <=? m * 2 ^ k) then finf true else fin (- value m k)
  end.

(** A rational rounded to a double. *)
Definition round (q : Q) : pyfloat := round_ratio (Qnum q) (Z.pos (Qden q)).

(** The double nearest to the square root of [p / d], for [0 < p] and
    [0 < d].  The root of [n / m] lies between [s] and [s + 1], and is
    nearer to [s + 1] when [n / m] is above the square of [s + 1/2]. *)
Definition nearest_sqrt (p d : Z) : Z * Z :=
  let k := exponent p d / 2 - (prec - 1) in
  let (n, m) := shifted p d (2 * k) in
  let s := Z.sqrt (n / m) in
  let middle := (4 * s * s + 4 * s + 1) * m in
  let up := if middle <? 4 * n then true
            else if 4 * n <? middle then false
            else Z.odd s in
  (if up then s + 1 else s, k).

(** The square root of a rational that is not negative, rounded to a
    double. *)
Definition sqrt (q : Q) : pyfloat :=
  match Qnum q with
  | Z.pos _ => let (m, k) := nearest_sqrt (Qnum q) (Z.pos (Qden q)) in fin (value m k)
  | _ => fin 0
  end.

End Double.

Inductive pyobj : Type :=
  | PyNone
  | PyBool (b : bool)
  | PyInt (z : Z)
  | PyFloat (f : pyfloat)
  | PyStr (s : string)
  | PyList (items : list pyobj)
  | PyDict (items : list (string * pyobj)).

Module Num.

Definition Qltb (p q : Q) : bool := negb (Qle_bool q p).

(** [a < b] and [a <= b] on floats: every comparison with [nan] is false. *)
Definition flt (a b : pyfloat) : bool :=
  match a, b with
  | fnan, _ | _, fnan => false
  | finf n1, finf n2 => n1 && negb n2
  | finf n, fin _ => n
  | fin _, finf n => negb n
  | fin p, fin q => Qltb p q
  end.

Definition fle (a b : pyfloat) : bool :=
  match a, b with
  | fnan, _ | _, fnan => false
  | finf n1, finf n2 => n1 || negb n2
  | finf n, fin _ => n
  | fin _, finf n => negb n
  | fin p, fin q => Qle_bool p q
  end.

Definition of_Z (z : Z) : pyfloat := fin (inject_Z z).

(** The numeric value of an object, if it is a number.  [bool] is a
    subclass of [int]; Python compares an [int] with a [float] exactly. *)
Definition value (o : pyobj) : option pyfloat :=
  match o with
  | PyBool b => Some (of_Z (if b then 1 else 0))
  | PyInt z => Some (of_Z z)
  | PyFloat f => Some f
  | _ => None
  end.

(** [a < b], [a <= b], [a > b]: a [TypeError] unless both are numbers. *)
Definition lt (a b : pyobj) : res bool :=
  match value a, value b with
  | Some x, Some y => Ok (flt x y)
  | _, _ => Raise TypeError
  end.

Definition le (a b : pyobj) : res bool :=
  match value a, value b with
  | Some x, Some y => Ok (fle x y)
  | _, _ => Raise TypeError
  end.

Definition gt (a b : pyobj) : res bool := lt b a.

(** The least magnitude that no longer rounds to a finite double: half
    way from the largest double to [2^1024]. *)
Definition overflow_bound : Z := 2 ^ 1024 - 2 ^ 970.

(** [a / b] on two [int]s: the exact quotient, rounded once;
    [OverflowError] when it is beyond the doubles. *)
Definition int_truediv (a b : Z) : res pyfloat :=
  if b =? 0 then Raise ZeroDivisionError
  else match Double.round (inject_Z a / inject_Z b) with
       | finf _ => Raise OverflowError
       | f => Ok f
       end.

(** An [int] as the operand of a float operation: [OverflowError] when
    it is beyond the doubles. *)
Definition float_of_int (z : Z) : res pyfloat :=
  match Double.round (inject_Z z) with
  | finf _ => Raise OverflowError
  | f => Ok f
  end.

(** [x / y] on two floats. *)
Definition fdiv (x y : pyfloat) : res pyfloat :=
  match y with
  | fnan => Ok fnan
  | finf _ => Ok (match x with fin _ => fin 0 | _ => fnan end)
  | fin q =>
      if Qeq_bool q 0 then Raise ZeroDivisionError
      else Ok (match x with
               | fnan => fnan
               | finf n => finf (xorb n (Qltb q 0))
               | fin p => Double.round (p / q)
               end)
  end.

(** [x * y] on two floats. *)
Definition fmul (x y : pyfloat) : pyfloat :=
  match x, y with
  | fnan, _ | _, fnan => fnan
  | fin p, fin q => Double.round (p * q)
  | finf n, finf m => finf (xorb n m)
  | finf n, fin q | fin q, finf n =>
      if Qeq_bool q 0 then fnan else finf (xorb n (Qltb q 0))
  end.

(** [math.sqrt(x)] on a float. *)
Definition fsqrt (x : pyfloat) : res pyfloat :=
  match x with
  | fnan => Ok fnan
  | finf false => Ok (finf false)
  | finf true => Raise ValueError
  | fin q => if Qltb q 0 then Raise ValueError else Ok (Double.sqrt q)
  end.

(** [math.ceil(x)] on a float. *)
Definition ceil (x : pyfloat) : res Z :=
  match x with
  | fnan => Raise ValueError
  | finf _ => Raise OverflowError
  | fin q => Ok (Qceiling q)
  end.

(** [int(x)] on a float: towards zero. *)
Definition int_of_float (x : pyfloat) : res Z :=
  match x with
  | fnan => Raise ValueError
  | finf _ => Raise OverflowError
  | fin q => Ok (if Qle_bool 0 q then Qfloor q else Qceiling q)
  end.

(** [f / 10.0] *)
Definition fdiv10 (f : pyfloat) : pyfloat :=
  match f with
  | fnan => fnan
  | finf n => finf n
  | fin q => Double.round (q / 10)
  end.

(** [a / 10] on a number. *)
Definition div10 (a : pyobj) : res pyobj :=
  match a with
  | PyFloat f => Ok (PyFloat (fdiv10 f))
  | PyInt _ | PyBool _ =>
      let z := match a with PyInt z => z | PyBool true => 1 | _ => 0 end in
      (f <- int_truediv z 10 ;; Ok (PyFloat f))%res
  | _ => Raise TypeError
  end.

(** [max(a, b)] and [min(a, b)] of two arguments: the first one unless
    the second is greater (smaller). *)
Definition max2 (a b : pyobj) : res pyobj :=
  match gt b a with
  | Ok true => Ok b
  | Ok false => Ok a
  | Raise e => Raise e
  end.

Definition min2 (a b : pyobj) : res pyobj :=
  match lt b a with
  | Ok true => Ok b
  | Ok false => Ok a
  | Raise e => Raise e
  end.

(** [lo <= f <= hi] for a float that is a number. *)
Definition in_range (lo hi : Z) (f : pyfloat) : bool :=
  fle (of_Z lo) f && fle f (of_Z hi).

End Num.

(** ** [dict] operations on decoded objects *)

Module Dict.

Fixpoint lookup (k : string) (d : list (string * pyobj)) : option pyobj :=
  match d with
  | [] => None
  | (k', v) :: rest => if String.eqb k k' then Some v else lookup k rest
  end.

(** [d[k] = v]: a key keeps the place of its first insertion. *)
Fixpoint set (k : string) (v : pyobj) (d : list (string * pyobj)) : list (string * pyobj) :=
  match d with
  | [] => [(k, v)]
  | (k', v') :: rest =>
      if String.eqb k k' then (k, v) :: rest else (k', v') :: set k v rest
  end.

(** [o.get(k, default)]: only a dict has [get]. *)
Definition get (o : pyobj) (k : string) (default : pyobj) : res pyobj :=
  match o with
  | PyDict d => Ok (match lookup k d with Some v => v | None => default end)
  | _ => Raise AttributeError
  end.

(** [for x in o]: a list yields its items, a dict its keys, a string its
    characters; nothing else decoded from JSON is iterable. *)
Definition iter (o : pyobj) : res (list pyobj) :=
  match o with
  | PyList l => Ok l
  | PyDict d => Ok (map (fun kv => PyStr (fst kv)) d)
  | PyStr s => Ok (map (fun c => PyStr (String c EmptyString)) (list_ascii_of_string s))
  | _ => Raise TypeError
  end.

End Dict.

(** ** [json.loads]

    The decoder of Python's [json] module with its default settings: one
    value between optional whitespace, [NaN], [Infinity] and [-Infinity]
    accepted, no control character inside a string.  Every failure is a
    [JSONDecodeError], which the decoder functions below return as [None].
    An escape [\uXXXX] that names a character above 255 has no image among
    the 8-bit characters and decodes to a question mark.

    The recursion is on a counter that [loads] starts at twice the length
    of the text plus two: a value and the list of items it belongs to take
    two steps and at least one character, so the counter does not run out
    before the text does.  The interpreter's own limits (its recursion
    depth, the length of an integer literal) are not modelled. *)

Module Json.

Definition is_ws (c : ascii) : bool :=
  match c with
  | " "%char | "009"%char | "010"%char | "013"%char => true
  | _ => false
  end.

Fixpoint skip_ws (s : string) : string :=
  match s with
  | String c r => if is_ws c then skip_ws r else s
  | EmptyString => EmptyString
  end.

Definition digit (c : ascii) : option Z :=
  let n := Py.code c in
  if Py.between 48 n 57 then Some (n - 48) else None.

Definition hexdigit (c : ascii) : option Z :=
  let n := Py.code c in
  if Py.between 48 n 57 then Some (n - 48)
  else if Py.between 97 n 102 then Some (n - 87)
  else if Py.between 65 n 70 then Some (n - 55)
  else None.

(** The longest run of decimal digits at the head of [s], most
    significant first. *)
Fixpoint digits (s : string) : list Z * string :=
  match s with
  | String c r =>
      match digit c with
      | Some d => let (ds, rest) := digits r in (d :: ds, rest)
      | None => ([], s)
      end
  | EmptyString => ([], s)
  end.

Definition number_of (ds : list Z) : Z := fold_left (fun acc d => 10 * acc + d) ds 0.

Definition starts_with (c : ascii) (s : string) : bool :=
  match s with
  | String c' _ => Ascii.eqb c' c
  | EmptyString => false
  end.

Definition tail (s : string) : string := Py.drop 1 s.

(** The integer part: a zero, or digits that do not start with a zero. *)
Definition int_part (s : string) : option (list Z * string) :=
  if starts_with "0" s then Some ([0], tail s)
  else match digits s with
       | ([], _) => None
       | (ds, rest) => Some (ds, rest)
       end.

(** The optional fraction: a point and at least one digit. *)
Definition frac_part (s : string) : option (list Z) * string :=
  if starts_with "." s then
    match digits (tail s) with
    | ([], _) => (None, s)
    | (ds, rest) => (Some ds, rest)
    end
  else (None, s).

(** The optional exponent: e or E, an optional sign, at least one digit. *)
Definition exp_part (s : string) : option Z * string :=
  if starts_with "e" s || starts_with "E" s then
    let r := tail s in
    let negative := starts_with "-" r in
    let r' := if starts_with "-" r || starts_with "+" r then tail r else r in
    match digits r' with
    | ([], _) => (None, s)
    | (ds, rest) => (Some (if negative then - number_of ds else number_of ds), rest)
    end
  else (None, s).

Definition pow10 (e : Z) : Q :=
  if 0 <=? e then inject_Z (10 ^ e) else / inject_Z (10 ^ (- e)).

(** [float(text)] of a decimal literal: the double nearest to it, an
    infinity out of the range of the doubles. *)
Definition float_of (negative : bool) (q : Q) : pyfloat :=
  Double.round (if negative then - q else q).

Definition number (s : string) : option (pyobj * string) :=
  let negative := starts_with "-" s in
  let s1 := if negative then tail s else s in
  match int_part s1 with
  | None => None
  | Some (ids, s2) =>
      let '(frac, s3) := frac_part s2 in
      let '(exp, s4) := exp_part s3 in
      match frac, exp with
      | None, None =>
          Some (PyInt (if negative then - number_of ids else number_of ids), s4)
      | _, _ =>
          let fds := default [] frac in
          let mantissa := number_of (ids ++ fds) in
          let e := default 0 exp - Z.of_nat (length fds) in
          Some (PyFloat (float_of negative (inject_Z mantissa * pow10 e)), s4)
      end
  end.

Definition hex4 (s : string) : option (Z * string) :=
  match s with
  | String a (String b (String c (String d r))) =>
      match hexdigit a, hexdigit b, hexdigit c, hexdigit d with
      | Some x, Some y, Some z, Some w => Some (((x * 16 + y) * 16 + z) * 16 + w, r)
      | _, _, _, _ => None
      end
  | _ => None
  end.

Definition char_of_code (n : Z) : ascii := if n <? 256 then Py.chr n else "?"%char.

Definition quote : ascii := "034"%char.
Definition backslash : ascii := "\"%char.

(** What follows a high surrogate when a low surrogate is escaped right
    after it. *)
Definition after_low_surrogate (s : string) : option string :=
  if starts_with backslash s && starts_with "u" (tail s) then
    match hex4 (tail (tail s)) with
    | Some (lo, rest) => if Py.between 56320 lo 57343 then Some rest else None
    | None => None
    end
  else None.

(** The character a one-letter escape stands for. *)
Definition escaped (c : ascii) : option ascii :=
  if Ascii.eqb c quote then Some quote
  else if Ascii.eqb c backslash then Some backslash
  else if Ascii.eqb c "/" then Some "/"%char
  else if Ascii.eqb c "b" then Some "008"%char
  else if Ascii.eqb c "f" then Some "012"%char
  else if Ascii.eqb c "n" then Some "010"%char
  else if Ascii.eqb c "r" then Some "013"%char
  else if Ascii.eqb c "t" then Some "009"%char
  else None.

(** The body of a string after its opening quote; [acc] holds the
    characters read so far, last first. *)
Fixpoint scanstring (fuel : nat) (acc : string) (s : string) : option (string * string) :=
  match fuel, s with
  | O, _ | _, EmptyString => None
  | S fuel', String c r =>
      if Ascii.eqb c quote then Some (Py.rev acc, r)
      else if Ascii.eqb c backslash then
        if starts_with "u" r then
          match hex4 (tail r) with
          | None => None
          | Some (hi, r') =>
              if Py.between 55296 hi 56319 then
                match after_low_surrogate r' with
                | Some r'' => scanstring fuel' (String "?" acc) r''
                | None => scanstring fuel' (String "?" acc) r'
                end
              else scanstring fuel' (String (char_of_code hi) acc) r'
          end
        else
          match r with
          | String c' r' =>
              match escaped c' with
              | Some x => scanstring fuel' (String x acc) r'
              | None => None
              end
          | EmptyString => None
          end
      else if Py.code c <? 32 then None
      else scanstring fuel' (String c acc) r
  end.

Definition literal (word : string) (v : pyobj) (s : string) : option (pyobj * string) :=
  if String.prefix word s then Some (v, Py.drop (String.length word) s) else None.

(** A string literal at the head of [s]. *)
Definition string_at (s : string) : option (string * string) :=
  if starts_with quote s then scanstring (String.length s) EmptyString (tail s) else None.

(** [scan_once]: one value at the head of [s].  [elements] reads the rest
    of an array after its first bracket, [members] the rest of an object,
    both with the items read so far. *)
Fixpoint scan_once (fuel : nat) (s : string) : option (pyobj * string) :=
  match fuel with
  | O => None
  | S fuel' =>
      if starts_with quote s then
        match string_at s with
        | Some (str, rest) => Some (PyStr str, rest)
        | None => None
        end
      else if starts_with "{" s then
        let r := skip_ws (tail s) in
        if starts_with "}" r then Some (PyDict [], tail r) else members fuel' [] r
      else if starts_with "[" s then
        let r := skip_ws (tail s) in
        if starts_with "]" r then Some (PyList [], tail r) else elements fuel' [] r
      else if starts_with "n" s then literal "null" PyNone s
      else if starts_with "t" s then literal "true" (PyBool true) s
      else if starts_with "f" s then literal "false" (PyBool false) s
      else
        match number s with
        | Some v => Some v
        | None =>
            if starts_with "N" s then literal "NaN" (PyFloat fnan) s
            else if starts_with "I" s then literal "Infinity" (PyFloat (finf false)) s
            else if starts_with "-" s then literal "-Infinity" (PyFloat (finf true)) s
            else None
        end
  end
with elements (fuel : nat) (acc : list pyobj) (s : string) : option (pyobj * string) :=
  match fuel with
  | O => None
  | S fuel' =>
      match scan_once fuel' s with
      | None => None
      | Some (v, rest) =>
          let r := skip_ws rest in
          if starts_with "]" r then Some (PyList (rev (v :: acc)), tail r)
          else if starts_with "," r then elements fuel' (v :: acc) (skip_ws (tail r))
          else None
      end
  end
with members (fuel : nat) (acc : list (string * pyobj)) (s : string) : option (pyobj * string) :=
  match fuel with
  | O => None
  | S fuel' =>
      match string_at s with
      | None => None
      | Some (key, rest) =>
          let r := skip_ws rest in
          if starts_with ":" r then
            match scan_once fuel' (skip_ws (tail r)) with
            | None => None
            | Some (v, rest') =>
                let r' := skip_ws rest' in
                if starts_with "}" r' then Some (PyDict (Dict.set key v acc), tail r')
                else if starts_with "," r'
                     then members fuel' (Dict.set key v acc) (skip_ws (tail r'))
                     else None
            end
          else None
      end
  end.

(** [json.loads(text)] *)
Definition loads (text : string) : res pyobj :=
  match scan_once (2 * String.length text + 2) (skip_ws text) with
  | Some (v, rest) =>
      match skip_ws rest with
      | EmptyString => Ok v
      | _ => Raise JSONDecodeError
      end
  | None => Raise JSONDecodeError
  end.

End Json.

(** ** Field validation of the pydantic models

    A model class validates its fields when an instance is built and
    raises one [ValidationError] if any field is refused.  What the
    library reads out of a string given for a number or a boolean (its
    lax mode) is taken as a parameter. *)

Module Pydantic.

Record lax_mode : Type := {
  str_as_float : string -> option pyfloat;
  str_as_bool : string -> option bool
}.

Definition lift {A} (o : option A) : res A :=
  match o with
  | Some a => Ok a
  | None => Raise ValidationError
  end.

(** A library that reads nothing out of strings; the examples are run
    with it. *)
Definition no_coercion : lax_mode :=
  {| str_as_float := fun _ => None; str_as_bool := fun _ => None |}.

(** A field declared [str]. *)
Definition str_field (o : pyobj) : res string :=
  match o with
  | PyStr s => Ok s
  | _ => Raise ValidationError
  end.

(** A field declared [float = Field(ge=lo, le=hi)]. *)
Definition float_field (lax : lax_mode) (lo hi : Z) (o : pyobj) : res pyfloat :=
  let number :=
    match o with
    | PyStr s => str_as_float lax s
    | _ => Num.value o
    end in
  match number with
  | Some f => if Num.in_range lo hi f then Ok f else Raise ValidationError
  | None => Raise ValidationError
  end.

(** A field declared [bool]. *)
Definition bool_field (lax : lax_mode) (o : pyobj) : res bool :=
  match o with
  | PyBool b => Ok b
  | PyInt 0 => Ok false
  | PyInt 1 => Ok true
  | PyFloat (fin q) =>
      if Qeq_bool q 0 then Ok false
      else if Qeq_bool q 1 then Ok true
      else Raise ValidationError
  | PyStr s => lift (str_as_bool lax s)
  | _ => Raise ValidationError
  end.

Fixpoint all_str (items : list pyobj) : res (list string) :=
  match items with
  | [] => Ok []
  | o :: rest =>
      match str_field o, all_str rest with
      | Ok s, Ok ss => Ok (s :: ss)
      | _, _ => Raise ValidationError
      end
  end.

(** A field declared [list[str]]. *)
Definition list_str_field (o : pyobj) : res (list string) :=
  match o with
  | PyList items => all_str items
  | _ => Raise ValidationError
  end.

End Pydantic.

(** ** The score models ([src/models/scores.py]) *)

Module RoomAnalysis.

Record t : Type := {
  room_type : string;
  aesthetic_quality : pyfloat;
  materials : list string;
  light_quality : string;
  condition : string;
  notes : string
}.

Definition make (lax : Pydantic.lax_mode)
    (room_type aesthetic_quality materials light_quality condition notes : pyobj) : res t :=
  (room_type <- Pydantic.str_field room_type ;;
   aesthetic_quality <- Pydantic.float_field lax 1 10 aesthetic_quality ;;
   materials <- Pydantic.list_str_field materials ;;
   light_quality <- Pydantic.str_field light_quality ;;
   condition <- Pydantic.str_field condition ;;
   notes <- Pydantic.str_field notes ;;
   Ok {| room_type := room_type; aesthetic_quality := aesthetic_quality;
         materials := materials; light_quality := light_quality;
         condition := condition; notes := notes |})%res.

End RoomAnalysis.

Module VisionAnalysis.

Record t : Type := {
  rooms : list RoomAnalysis.t;
  overall_aesthetic : pyfloat;
  architectural_style : string;
  red_flags : list string;
  positive_signals : list string;
  renovation_state : string;
  raw_description : string
}.

Definition make (lax : Pydantic.lax_mode) (rooms : list RoomAnalysis.t)
    (overall_aesthetic architectural_style red_flags positive_signals
       renovation_state raw_description : pyobj) : res t :=
  (overall_aesthetic <- Pydantic.float_field lax 1 10 overall_aesthetic ;;
   architectural_style <- Pydantic.str_field architectural_style ;;
   red_flags <- Pydantic.list_str_field red_flags ;;
   positive_signals <- Pydantic.list_str_field positive_signals ;;
   renovation_state <- Pydantic.str_field renovation_state ;;
   raw_description <- Pydantic.str_field raw_description ;;
   Ok {| rooms := rooms; overall_aesthetic := overall_aesthetic;
         architectural_style := architectural_style; red_flags := red_flags;
         positive_signals := positive_signals; renovation_state := renovation_state;
         raw_description := raw_description |})%res.

(** [analysis.raw_description = text] *)
Definition set_raw_description (a : t) (text : string) : t :=
  {| rooms := rooms a; overall_aesthetic := overall_aesthetic a;
     architectural_style := architectural_style a; red_flags := red_flags a;
     positive_signals := positive_signals a; renovation_state := renovation_state a;
     raw_description := text |}.

End VisionAnalysis.

Module DimensionScore.

Record t : Type := {
  dimension : string;
  score : pyfloat;
  weight : pyfloat;
  notes : string
}.

Definition make (lax : Pydantic.lax_mode) (dimension score weight notes : pyobj) : res t :=
  (dimension <- Pydantic.str_field dimension ;;
   score <- Pydantic.float_field lax 0 10 score ;;
   weight <- Pydantic.float_field lax 0 1 weight ;;
   notes <- Pydantic.str_field notes ;;
   Ok {| dimension := dimension; score := score; weight := weight; notes := notes |})%res.

End DimensionScore.

Module PresentFitScore.

Record t : Type := {
  score : pyfloat;
  passed : bool;
  violations : list string;
  dimension_scores : list DimensionScore.t;
  justification : string;
  deal_breakers : list string
}.

Definition make (lax : Pydantic.lax_mode) (score passed violations : pyobj)
    (dimension_scores : list DimensionScore.t) (justification deal_breakers : pyobj) : res t :=
  (score <- Pydantic.float_field lax 0 100 score ;;
   passed <- Pydantic.bool_field lax passed ;;
   violations <- Pydantic.list_str_field violations ;;
   justification <- Pydantic.str_field justification ;;
   deal_breakers <- Pydantic.list_str_field deal_breakers ;;
   Ok {| score := score; passed := passed; violations := violations;
         dimension_scores := dimension_scores; justification := justification;
         deal_breakers := deal_breakers |})%res.

End PresentFitScore.

Module RenovationIdea.

Record t : Type := {
  area : string;
  current_state : string;
  proposed_change : string;
  impact : string;
  difficulty : string
}.

Definition make (area current_state proposed_change impact difficulty : pyobj) : res t :=
  (area <- Pydantic.str_field area ;;
   current_state <- Pydantic.str_field current_state ;;
   proposed_change <- Pydantic.str_field proposed_change ;;
   impact <- Pydantic.str_field impact ;;
   difficulty <- Pydantic.str_field difficulty ;;
   Ok {| area := area; current_state := current_state; proposed_change := proposed_change;
         impact := impact; difficulty := difficulty |})%res.

End RenovationIdea.

Module PotentialScore.

Record t : Type := {
  score : pyfloat;
  renovation_ideas : list RenovationIdea.t;
  feasibility : string;
  cost_class : string;
  risk_notes : list string;
  upside_narrative : string
}.

Definition make (lax : Pydantic.lax_mode) (score : pyobj)
    (renovation_ideas : list RenovationIdea.t)
    (feasibility cost_class risk_notes upside_narrative : pyobj) : res t :=
  (score <- Pydantic.float_field lax 0 100 score ;;
   feasibility <- Pydantic.str_field feasibility ;;
   cost_class <- Pydantic.str_field cost_class ;;
   risk_notes <- Pydantic.list_str_field risk_notes ;;
   upside_narrative <- Pydantic.str_field upside_narrative ;;
   Ok {| score := score; renovation_ideas := renovation_ideas; feasibility := feasibility;
         cost_class := cost_class; risk_notes := risk_notes;
         upside_narrative := upside_narrative |})%res.

End PotentialScore.

(** ** The preference model ([src/models/taste.py]) *)

Module WeightedDimension.

Record t : Type := {
  name : string;
  weight : pyfloat;
  description : string;
  positive_signals : list string;
  negative_signals : list string
}.

End WeightedDimension.

Module Exemplar.

Record t : Type := {
  house_id : string;
  address : string;
  sentiment : string;
  reason : string
}.

End Exemplar.

Module TasteModel.

Record t : Type := {
  principles : list string;
  anti_principles : list string;
  hard_constraints : list string;
  soft_constraints : list string;
  dimensions : list WeightedDimension.t;
  exemplars : list Exemplar.t;
  violation_patterns : list string;
  location_preferences : list (string * string);
  renovation_budget_max : option Z;
  renovation_tolerance : string;
  version : Z;
  notes : string
}.

(** A dimension whose weight is written as the decimal [weight]. *)
Definition dim (name : string) (weight : Q) (description : string) : WeightedDimension.t :=
  {| WeightedDimension.name := name; WeightedDimension.weight := Double.round weight;
     WeightedDimension.description := description;
     WeightedDimension.positive_signals := []; WeightedDimension.negative_signals := [] |}.

(** [TasteModel.create_empty()] *)
Definition create_empty : t :=
  {| principles := []; anti_principles := []; hard_constraints := []; soft_constraints := [];
     dimensions :=
       [ dim "natural_light" 0.15 "Quality and abundance of natural light";
         dim "materials_quality" 0.15 "Quality of visible materials and finishes";
         dim "layout_flow" 0.12 "How well spaces flow and connect";
         dim "architectural_character" 0.12 "Architectural interest and character";
         dim "kitchen_quality" 0.12 "Kitchen design and functionality";
         dim "outdoor_space" 0.10 "Quality of outdoor spaces and views";
         dim "proportions" 0.08 "Room proportions and ceiling heights";
         dim "condition" 0.08 "Overall maintenance and condition";
         dim "storage" 0.04 "Storage space availability";
         dim "privacy" 0.04 "Privacy from neighbors and street" ];
     exemplars := []; violation_patterns := []; location_preferences := [];
     renovation_budget_max := None; renovation_tolerance := "medium";
     version := 1; notes := "" |}.

End TasteModel.

(** ** The listing record ([src/models/house.py]) *)

Module HouseFeatures.

Record t : Type := {
  bedrooms : option Z;
  bathrooms : option pyfloat;
  sqft : option Z;
  lot_sqft : option Z;
  year_built : option Z;
  property_type : string;
  parking : string;
  hoa_fee : option Z;
  heating : string;
  cooling : string;
  flooring : list string;
  appliances : list string
}.

Definition default : t :=
  {| bedrooms := None; bathrooms := None; sqft := None; lot_sqft := None;
     year_built := None; property_type := ""; parking := ""; hoa_fee := None;
     heating := ""; cooling := ""; flooring := []; appliances := [] |}.

End HouseFeatures.

Module House.

Record t : Type := {
  id : string;
  url : string;
  address : string;
  city : string;
  state : string;
  zip_code : string;
  latitude : option pyfloat;
  longitude : option pyfloat;
  price : option Z;
  description : string;
  features : HouseFeatures.t;
  image_urls : list string;
  vision_analysis : option VisionAnalysis.t;
  present_fit_score : option PresentFitScore.t;
  potential_score : option PotentialScore.t;
  brief : string;
  annotations : list string;
  user_verdict : option string;
  ingested_at : Z;
  scored_at : option Z
}.

(** [house.vision_analysis = analysis] *)
Definition set_vision_analysis (h : t) (analysis : VisionAnalysis.t) : t :=
  {| id := id h; url := url h; address := address h; city := city h; state := state h;
     zip_code := zip_code h; latitude := latitude h; longitude := longitude h;
     price := price h; description := description h; features := features h;
     image_urls := image_urls h; vision_analysis := Some analysis;
     present_fit_score := present_fit_score h; potential_score := potential_score h;
     brief := brief h; annotations := annotations h; user_verdict := user_verdict h;
     ingested_at := ingested_at h; scored_at := scored_at h |}.

(** [house.present_fit_score = score; house.scored_at = now] *)
Definition set_present_fit_score (h : t) (score : PresentFitScore.t) (now : Z) : t :=
  {| id := id h; url := url h; address := address h; city := city h; state := state h;
     zip_code := zip_code h; latitude := latitude h; longitude := longitude h;
     price := price h; description := description h; features := features h;
     image_urls := image_urls h; vision_analysis := vision_analysis h;
     present_fit_score := Some score; potential_score := potential_score h;
     brief := brief h; annotations := annotations h; user_verdict := user_verdict h;
     ingested_at := ingested_at h; scored_at := Some now |}.

(** [house.potential_score = score] *)
Definition set_potential_score (h : t) (score : PotentialScore.t) : t :=
  {| id := id h; url := url h; address := address h; city := city h; state := state h;
     zip_code := zip_code h; latitude := latitude h; longitude := longitude h;
     price := price h; description := description h; features := features h;
     image_urls := image_urls h; vision_analysis := vision_analysis h;
     present_fit_score := present_fit_score h; potential_score := Some score;
     brief := brief h; annotations := annotations h; user_verdict := user_verdict h;
     ingested_at := ingested_at h; scored_at := scored_at h |}.

(** [house.brief = text] *)
Definition set_brief (h : t) (text : string) : t :=
  {| id := id h; url := url h; address := address h; city := city h; state := state h;
     zip_code := zip_code h; latitude := latitude h; longitude := longitude h;
     price := price h; description := description h; features := features h;
     image_urls := image_urls h; vision_analysis := vision_analysis h;
     present_fit_score := present_fit_score h; potential_score := potential_score h;
     brief := text; annotations := annotations h; user_verdict := user_verdict h;
     ingested_at := ingested_at h; scored_at := scored_at h |}.

(** [House.create_from_zillow], ingested at [now]. *)
Definition create_from_zillow (house_id url address : string) (price : option Z)
    (image_urls : list string) (description : string) (features : HouseFeatures.t)
    (now : Z) : t :=
  {| id := house_id; url := url; address := address; city := ""; state := "";
     zip_code := ""; latitude := None; longitude := None; price := price;
     description := description; features := features; image_urls := image_urls;
     vision_analysis := None; present_fit_score := None; potential_score := None;
     brief := ""; annotations := []; user_verdict := None;
     ingested_at := now; scored_at := None |}.

End House.

(** ** The entity store ([src/storage/json_store.py])

    The directory of house files is a finite map from the identifier in
    the file name to the record in the file; the taste file holds a
    preference model or is absent. *)

Module JsonStore.

Record t : Type := {
  houses : gmap string House.t;
  taste : option TasteModel.t
}.

Definition empty : t := {| houses := ∅; taste := None |}.

(** [save_house]: the file named after the identifier is overwritten. *)
Definition save_house (store : t) (house : House.t) : t :=
  {| houses := <[House.id house := house]> (houses store); taste := taste store |}.

(** [load_house] *)
Definition load_house (store : t) (house_id : string) : option House.t :=
  houses store !! house_id.

(** [sorted(houses, key=lambda h: h.ingested_at, reverse=True)]: a house
    goes behind those ingested at the same time or later that were listed
    before it. *)
Fixpoint insert_by_ingested_at (h : House.t) (sorted : list House.t) : list House.t :=
  match sorted with
  | [] => [h]
  | x :: rest =>
      if House.ingested_at h <=? House.ingested_at x
      then x :: insert_by_ingested_at h rest
      else h :: x :: rest
  end.

Definition sorted_by_ingested_at (l : list House.t) : list House.t :=
  fold_left (fun acc h => insert_by_ingested_at h acc) l [].

(** [list_houses]: every stored record, latest ingestion first. *)
Definition list_houses (store : t) : list House.t :=
  sorted_by_ingested_at (snd <$> map_to_list (houses store)).

(** [delete_house] *)
Definition delete_house (store : t) (house_id : string) : t * bool :=
  match houses store !! house_id with
  | Some _ => ({| houses := delete house_id (houses store); taste := taste store |}, true)
  | None => (store, false)
  end.

Definition save_taste (store : t) (taste : TasteModel.t) : t :=
  {| houses := houses store; taste := Some taste |}.

Definition load_taste (store : t) : option TasteModel.t := taste store.

(** [load_or_create_taste]: a missing model is created and saved. *)
Definition load_or_create_taste (store : t) : TasteModel.t * t :=
  match load_taste store with
  | Some taste => (taste, store)
  | None => (TasteModel.create_empty, save_taste store TasteModel.create_empty)
  end.

(** The table of [normalize_address], in the order it is written.  A key
    that ends in a dollar sign stands for the abbreviation at the end of
    the address. *)
Definition replacements : list (string * string) :=
  [ (" st ", " street "); (" st$", " street");
    (" dr ", " drive "); (" dr$", " drive");
    (" ave ", " avenue "); (" ave$", " avenue");
    (" rd ", " road "); (" rd$", " road");
    (" ln ", " lane "); (" ln$", " lane");
    (" ct ", " court "); (" ct$", " court");
    (" cir ", " circle "); (" cir$", " circle");
    (" blvd ", " boulevard "); (" blvd$", " boulevard");
    (" pl ", " place "); (" pl$", " place") ].

(** One turn of the loop over the table. *)
Definition replace_abbreviation (addr : string) (entry : string * string) : string :=
  let (abbr, full) := entry in
  if Py.endswith abbr "$" then
    if Py.endswith addr (Py.slice abbr None (Some (-1)))
    then String.append (Py.slice addr None (Some (- Py.len abbr + 1))) full
    else addr
  else Py.replace addr abbr full.

Definition blank_punctuation (c : ascii) : ascii :=
  if Py.isalnum c || Ascii.eqb c " " then c else " "%char.

(** [normalize_address] *)
Definition normalize_address (address : string) : string :=
  let addr := Py.join " " (Py.split (Py.lower address)) in
  let addr := Py.map_chars blank_punctuation addr in
  let addr := fold_left replace_abbreviation replacements addr in
  Py.join " " (Py.split addr).


(** [find_house_by_address] *)
Definition find_house_by_address (store : t) (address : string) : option House.t :=
  let normalized := normalize_address address in
  List.find (fun house => String.eqb (normalize_address (House.address house)) normalized)
            (list_houses store).



(** [get_unscored_houses] *)
Definition get_unscored_houses (store : t) : list House.t :=
  filter (fun h => House.present_fit_score h = None) (list_houses store).

(** [taste_exists] *)
Definition taste_exists (store : t) : bool :=
  match taste store with
  | Some _ => true
  | None => false
  end.

(** The slug of [generate_house_id]: the address in lower case, without
    the characters that are neither alphanumeric nor a space, its words
    joined by hyphens, cut at 50 characters. *)
Definition slug_of (address : string) : string :=
  let slug := Py.lower address in
  let slug := Py.filter_chars (fun c => Py.isalnum c || Ascii.eqb c " ") slug in
  Py.slice (Py.join "-" (Py.split slug)) None (Some 50).

(** [generate_house_id], given the text [timestamp] that
    [datetime.now().strftime("%Y%m%d%H%M%S")] returns. *)
Definition generate_house_id (address timestamp : string) : string :=
  let slug := slug_of address in
  match slug with
  | EmptyString => String.append "house-" timestamp
  | _ => String.append slug (String.append "-" timestamp)
  end.

(** The key of [get_scored_houses]: the primary score, or [0]. *)
Definition fit_key (h : House.t) : pyfloat :=
  match House.present_fit_score h with
  | Some score => PresentFitScore.score score
  | None => Num.of_Z 0
  end.

(** [get_scored_houses]: the houses with a primary score, best first. *)
Definition get_scored_houses (store : t) : list House.t :=
  let scored := filter (fun h => is_Some (House.present_fit_score h)) (list_houses store) in
  Py.sorted_reverse (fun a b => Num.flt (fit_key a) (fit_key b)) scored.

End JsonStore.

(** ** Images

    A Pillow image is the expression that built it.  What matters below
    is its size, its mode, and which images were pasted where. *)

Module PIL.

Inductive Image : Type :=
  | Opened (width height : Z) (mode : string) (content : string)
  | New (mode : string) (width height : Z) (color : Z * Z * Z)
  | Resized (img : Image) (width height : Z)
  | Converted (img : Image) (mode : string)
  | Pasted (canvas img : Image) (x y : Z).

Fixpoint width (img : Image) : Z :=
  match img with
  | Opened w _ _ _ | New _ w _ _ | Resized _ w _ => w
  | Converted i _ => width i
  | Pasted c _ _ _ => width c
  end.

Fixpoint height (img : Image) : Z :=
  match img with
  | Opened _ h _ _ | New _ _ h _ | Resized _ _ h => h
  | Converted i _ => height i
  | Pasted c _ _ _ => height c
  end.

Fixpoint mode (img : Image) : string :=
  match img with
  | Opened _ _ m _ | New m _ _ _ | Converted _ m => m
  | Resized i _ _ => mode i
  | Pasted c _ _ _ => mode c
  end.

(** What was pasted on a canvas, first paste first, and the canvas it
    started from. *)
Fixpoint pastes (img : Image) : list (Image * (Z * Z)) :=
  match img with
  | Pasted c i x y => (pastes c ++ [(i, (x, y))])%list
  | _ => []
  end.

Fixpoint blank (img : Image) : Image :=
  match img with
  | Pasted c _ _ _ => blank c
  | _ => img
  end.

(** [img.resize((width, height), ...)]: a copy when the size does not
    change; any other size with a side below 1 is refused. *)
Definition resize (img : Image) (width' height' : Z) : res Image :=
  if (width' =? width img) && (height' =? height img) then Ok (Resized img width' height')
  else if (width' <? 1) || (height' <? 1) then Raise ValueError
  else Ok (Resized img width' height').

(** The bytes of [img.save(buffer, format="PNG", optimize=...)]. *)
Record png : Type := { encoded : Image; optimize : bool }.

End PIL.

(** ** The outside world

    The network, the image decoder, the two model endpoints and the clock
    answer as they please; each answer may depend on how many outside
    calls were made before it. *)

Module Httpx.

Record Response : Type := { status_code : Z; content : string }.

(** [response.raise_for_status()] *)
Definition raise_for_status (r : Response) : res unit :=
  if Py.between 200 (status_code r) 299 then Ok tt else Raise HTTPStatusError.

End Httpx.

(** What a prompt is rendered from. *)
Inductive prompt : Type :=
  | PresentFitPrompt (house : House.t) (taste : TasteModel.t)
  | PotentialPrompt (house : House.t) (taste : TasteModel.t)
  | BriefPrompt (house : House.t) (taste : TasteModel.t).

Record World : Type := {
  lax : Pydantic.lax_mode;
  now : nat -> Z;
  http_get : nat -> string -> res Httpx.Response;
  image_open : string -> res PIL.Image;
  openrouter_vision : nat -> PIL.png -> res string;
  openrouter_chat : nat -> prompt -> res string
}.

(** ** Effects: the store, the count of outside calls, the requests sent

    [store] holds the valid records by file name.  [damaged] names the
    files of the houses directory that hold no valid record, each with
    the exception that reading it raises (a [JSONDecodeError] for a text
    that is not JSON, a [ValidationError] for a record the model
    refuses); a name that [store] has a record for is read from
    [store]. *)

Record state : Type := {
  store : JsonStore.t;
  damaged : gmap string exn;
  ticks : nat;
  requested : list string
}.

Definition M (A : Type) : Type := state -> res A * state.

Definition ret {A} (a : A) : M A := fun s => (Ok a, s).

Definition raise {A} (e : exn) : M A := fun s => (Raise e, s).

Definition bind {A B} (m : M A) (k : A -> M B) : M B :=
  fun s =>
    match m s with
    | (Ok a, s') => k a s'
    | (Raise e, s') => (Raise e, s')
    end.

(** [try: body / except Exception: handler] *)
Definition try_except {A} (body : M A) (handler : exn -> M A) : M A :=
  fun s =>
    match body s with
    | (Ok a, s') => (Ok a, s')
    | (Raise e, s') => handler e s'
    end.

Definition lift {A} (r : res A) : M A := fun s => (r, s).

Declare Scope M_scope.
Delimit Scope M_scope with M.
Notation "x <- c1 ;; c2" := (bind c1 (fun x => c2))
  (at level 100, c1 at next level, right associativity) : M_scope.
Notation "c1 ;;; c2" := (bind c1 (fun _ => c2))
  (at level 100, right associativity) : M_scope.

Definition tick (s : state) : state :=
  {| store := store s; damaged := damaged s; ticks := S (ticks s);
     requested := requested s |}.

(** An outside call. *)
Definition outside {A} (answer : nat -> res A) : M A :=
  fun s => (answer (ticks s), tick s).

(** [client.get(url, follow_redirects=True)] *)
Definition client_get (w : World) (url : string) : M Httpx.Response :=
  fun s => (http_get w (ticks s) url,
            {| store := store s; damaged := damaged s; ticks := S (ticks s);
               requested := url :: requested s |}).

(** [datetime.now()] *)
Definition datetime_now (w : World) : M Z := outside (fun t => Ok (now w t)).

(** [self.store.load_house(house_id)]: the record of the file, [None]
    when there is no file, and the exception of a file that holds no
    valid record. *)
Definition load_house (house_id : string) : M (option House.t) :=
  fun s =>
    match JsonStore.load_house (store s) house_id with
    | Some house => (Ok (Some house), s)
    | None =>
        match damaged s !! house_id with
        | Some e => (Raise e, s)
        | None => (Ok None, s)
        end
    end.

(** [self.store.save_house(house)]: the file is written anew. *)
Definition save_house (house : House.t) : M unit :=
  fun s => (Ok tt, {| store := JsonStore.save_house (store s) house;
                      damaged := delete (House.id house) (damaged s);
                      ticks := ticks s; requested := requested s |}).

Definition load_or_create_taste : M TasteModel.t :=
  fun s =>
    let (taste, store') := JsonStore.load_or_create_taste (store s) in
    (Ok taste, {| store := store'; damaged := damaged s; ticks := ticks s;
                  requested := requested s |}).

(** The files that cannot be read. *)
Definition unreadable (s : state) : list (string * exn) :=
  filter (fun file => JsonStore.load_house (store s) file.1 = None) (map_to_list (damaged s)).

(** [self.store.get_unscored_houses()]: [list_houses] reads every file of
    the directory, and the first that cannot be read raises. *)
Definition get_unscored_houses : M (list House.t) :=
  fun s =>
    match unreadable s with
    | [] => (Ok (JsonStore.get_unscored_houses (store s)), s)
    | (_, e) :: _ => (Raise e, s)
    end.

(** ** The image compositor ([src/services/image_composite.py]) *)

Module ImageComposite.

Import PIL.

(** [fetch_image]: whatever the request, the status check or the decoder
    raises, the result is [None]. *)
Definition fetch_image (w : World) (url : string) : M (option Image) :=
  try_except
    (response <- client_get w url ;;
     lift (Httpx.raise_for_status response) ;;;
     img <- lift (image_open w (Httpx.content response)) ;;
     ret (Some img))%M
    (fun _ => ret None).

(** [asyncio.gather] of the tasks: the results in the order of the tasks.  The
    tasks are run one after the other here; how the event loop interleaves
    them under the semaphore is not modelled. *)
Fixpoint gather {A} (tasks : list (M A)) : M (list A) :=
  match tasks with
  | [] => ret []
  | task :: rest =>
      (a <- task ;; others <- gather rest ;; ret (a :: others))%M
  end.

(** [fetch_images] *)
Definition fetch_images (w : World) (urls : list string) : M (list Image) :=
  (results <- gather (map (fetch_image w) urls) ;;
   ret (omap id results))%M.

(** [calculate_grid_dimensions] *)
Definition calculate_grid_dimensions (num_images max_cols : Z) : res (Z * Z) :=
  if num_images =? 0 then Ok (0, 0)
  else if num_images <=? 2 then Ok (num_images, 1)
  else if num_images <=? 4 then Ok (2, 2)
  else if num_images <=? 6 then Ok (3, 2)
  else if num_images <=? 9 then Ok (3, 3)
  else
    (root <- (x <- Num.float_of_int num_images ;; r <- Num.fsqrt x ;; Num.ceil r) ;;
     let cols := Z.min max_cols root in
     rows <- (q <- Num.int_truediv num_images cols ;; Num.ceil q) ;;
     Ok (cols, rows))%res.

Definition default_max_cols : Z := 5.

(** The size an image is given in its cell. *)
Definition fit (img : Image) (cell_width cell_height : Z) : res (Z * Z) :=
  (img_ratio <- Num.int_truediv (width img) (height img) ;;
   cell_ratio <- Num.int_truediv cell_width cell_height ;;
   if Num.flt cell_ratio img_ratio then
     w <- Num.float_of_int cell_width ;;
     h <- Num.fdiv w img_ratio ;;
     new_height <- Num.int_of_float h ;;
     Ok (cell_width, new_height)
   else
     h <- Num.float_of_int cell_height ;;
     new_width <- Num.int_of_float (Num.fmul h img_ratio) ;;
     Ok (new_width, cell_height))%res.

(** The loop of [create_grid_image] from index [idx] on. *)
Fixpoint paste_images (cols rows cell_width cell_height padding : Z)
    (canvas : Image) (idx : Z) (images : list Image) : res Image :=
  match images with
  | [] => Ok canvas
  | img :: rest =>
      if cols * rows <=? idx then Ok canvas
      else
        (row <- PyMath.floordiv idx cols ;;
         col <- PyMath.modulo idx cols ;;
         size <- fit img cell_width cell_height ;;
         let '(new_width, new_height) := size in
         resized <- resize img new_width new_height ;;
         let resized :=
           if String.eqb (mode resized) "RGB" then resized else Converted resized "RGB" in
         let x := padding + col * (cell_width + padding) + (cell_width - new_width) / 2 in
         let y := padding + row * (cell_height + padding) + (cell_height - new_height) / 2 in
         paste_images cols rows cell_width cell_height padding
           (Pasted canvas resized x y) (idx + 1) rest)%res
  end.

(** [create_grid_image] *)
Definition create_grid_image (images : list Image) (cell_width cell_height padding : Z)
    (bg_color : Z * Z * Z) : res Image :=
  match images with
  | [] => Ok (New "RGB" cell_width cell_height bg_color)
  | _ =>
      (dims <- calculate_grid_dimensions (Z.of_nat (length images)) default_max_cols ;;
       let '(cols, rows) := dims in
       let total_width := cols * cell_width + (cols + 1) * padding in
       let total_height := rows * cell_height + (rows + 1) * padding in
       let canvas := New "RGB" total_width total_height bg_color in
       paste_images cols rows cell_width cell_height padding canvas 0 images)%res
  end.

Definition default_padding : Z := 2.
Definition default_bg_color : Z * Z * Z := (255, 255, 255).

(** [image_urls[:max_images] if max_images else image_urls] *)
Definition limit_urls (image_urls : list string) (max_images : option Z) : list string :=
  match max_images with
  | None => image_urls
  | Some n => if n =? 0 then image_urls else PyMath.list_until image_urls n
  end.

(** [create_composite] *)
Definition create_composite (w : World) (image_urls : list string)
    (cell_width cell_height : Z) (max_images : option Z) : M png :=
  (let urls := limit_urls image_urls max_images in
   images <- fetch_images w urls ;;
   match images with
   | [] =>
       let placeholder := New "RGB" cell_width cell_height (200, 200, 200) in
       ret {| encoded := placeholder; optimize := false |}
   | _ =>
       grid <- lift (create_grid_image images cell_width cell_height
                       default_padding default_bg_color) ;;
       ret {| encoded := grid; optimize := true |}
   end)%M.

Definition default_cell_width : Z := 400.
Definition default_cell_height : Z := 300.

(** [create_composite_sync] *)
Definition create_composite_sync (w : World) (image_urls : list string)
    (cell_width cell_height : Z) (max_images : option Z) : M png :=
  create_composite w image_urls cell_width cell_height max_images.

End ImageComposite.

(** ** Reading a model response ([src/agents/*.py])

    The three scoring agents open [_parse_response] with the same lines:
    the inside of the first fenced block (tagged [json] first, then
    untagged), stripped, replaces the response. *)

Module BaseAgent.

Definition fence : string := "```".
Definition json_fence : string := "```json".

Definition unfence (response : string) : string :=
  if Py.contains json_fence response then
    let start := Py.find response json_fence 0 + 7 in
    let end_ := Py.find response fence start in
    Py.strip (Py.slice response (Some start) (Some end_))
  else if Py.contains fence response then
    let start := Py.find response fence 0 + 3 in
    let end_ := Py.find response fence start in
    Py.strip (Py.slice response (Some start) (Some end_))
  else response.

(** [except (json.JSONDecodeError, KeyError, TypeError)] *)
Definition handled (e : exn) : bool :=
  match e with
  | JSONDecodeError | KeyError | TypeError => true
  | _ => false
  end.

(** [try: body / except (json.JSONDecodeError, KeyError, TypeError): fallback] *)
Definition try_parse {A} (body : res A) (fallback : A) : res A :=
  match body with
  | Ok a => Ok a
  | Raise e => if handled e then Ok fallback else Raise e
  end.

(** A [for] loop that builds a list, one item at a time. *)
Fixpoint for_each {A B} (f : A -> res B) (items : list A) : res (list B) :=
  match items with
  | [] => Ok []
  | x :: rest => (y <- f x ;; ys <- for_each f rest ;; Ok (y :: ys))%res
  end.

End BaseAgent.

Module VisionAgent.

Import BaseAgent.

Definition room (lax : Pydantic.lax_mode) (room_data : pyobj) : res RoomAnalysis.t :=
  (room_type <- Dict.get room_data "room_type" (PyStr "unknown") ;;
   aesthetic_quality <- Dict.get room_data "aesthetic_quality" (PyInt 5) ;;
   materials <- Dict.get room_data "materials" (PyList []) ;;
   light_quality <- Dict.get room_data "light_quality" (PyStr "") ;;
   condition <- Dict.get room_data "condition" (PyStr "") ;;
   notes <- Dict.get room_data "notes" (PyStr "") ;;
   RoomAnalysis.make lax room_type aesthetic_quality materials light_quality condition notes)%res.

(** The body of the [try] of [_parse_response], on the unfenced text. *)
Definition parse_body (lax : Pydantic.lax_mode) (response : string) : res VisionAnalysis.t :=
  (data <- Json.loads response ;;
   rooms_data <- Dict.get data "rooms" (PyList []) ;;
   items <- Dict.iter rooms_data ;;
   rooms <- for_each (room lax) items ;;
   overall_aesthetic <- Dict.get data "overall_aesthetic" (PyInt 5) ;;
   architectural_style <- Dict.get data "architectural_style" (PyStr "") ;;
   red_flags <- Dict.get data "red_flags" (PyList []) ;;
   positive_signals <- Dict.get data "positive_signals" (PyList []) ;;
   renovation_state <- Dict.get data "renovation_state" (PyStr "") ;;
   VisionAnalysis.make lax rooms overall_aesthetic architectural_style red_flags
     positive_signals renovation_state (PyStr ""))%res.

Definition placeholder (raw_description : string) : VisionAnalysis.t :=
  {| VisionAnalysis.rooms := []; VisionAnalysis.overall_aesthetic := Num.of_Z 5;
     VisionAnalysis.architectural_style := ""; VisionAnalysis.red_flags := [];
     VisionAnalysis.positive_signals := []; VisionAnalysis.renovation_state := "";
     VisionAnalysis.raw_description := raw_description |}.

Definition fallback (response : string) : VisionAnalysis.t :=
  placeholder (String.append "Parse error. Raw response: " (Py.slice response None (Some 500))).

(** [VisionAgent._parse_response] *)
Definition _parse_response (lax : Pydantic.lax_mode) (response : string) : res VisionAnalysis.t :=
  let response := unfence response in
  try_parse (parse_body lax response) (fallback response).

(** [VisionAgent.analyze] *)
Definition analyze (w : World) (house_id : string) : M (option VisionAnalysis.t) :=
  (house <- load_house house_id ;;
   match house with
   | None => ret None
   | Some house =>
       match House.image_urls house with
       | [] =>
           let analysis := placeholder "No images available for analysis" in
           save_house (House.set_vision_analysis house analysis) ;;;
           ret (Some analysis)
       | _ =>
           composite_bytes <-
             ImageComposite.create_composite_sync w (House.image_urls house)
               ImageComposite.default_cell_width ImageComposite.default_cell_height (Some 36) ;;
           response <- outside (fun t => openrouter_vision w t composite_bytes) ;;
           analysis <- lift (_parse_response (lax w) response) ;;
           let analysis := VisionAnalysis.set_raw_description analysis response in
           save_house (House.set_vision_analysis house analysis) ;;;
           ret (Some analysis)
       end
   end)%M.

End VisionAgent.

Module PresentFitAgent.

Import BaseAgent.

(** The score and the weight of one entry, as the loop clamps them. *)
Definition clamp_score (raw_score : pyobj) : res pyobj :=
  (small <- Num.le raw_score (PyInt 10) ;;
   scaled <- (if small : bool then Ok raw_score else Num.div10 raw_score) ;;
   lower <- Num.max2 (PyFloat (fin 0)) scaled ;;
   Num.min2 (PyFloat (fin 10)) lower)%res.

Definition clamp_weight (raw_weight : pyobj) : res pyobj :=
  (lower <- Num.max2 (PyFloat (fin 0)) raw_weight ;;
   Num.min2 (PyFloat (fin 1)) lower)%res.

(** One turn of the loop over [dimension_scores]. *)
Definition dimension_score (lax : Pydantic.lax_mode) (ds : pyobj) : res DimensionScore.t :=
  (raw_score <- Dict.get ds "score" (PyFloat (fin 5)) ;;
   clamped_score <- clamp_score raw_score ;;
   dimension <- Dict.get ds "dimension" (PyStr "") ;;
   raw_weight <- Dict.get ds "weight" (PyFloat (Double.round 0.1)) ;;
   weight <- clamp_weight raw_weight ;;
   notes <- Dict.get ds "notes" (PyStr "") ;;
   DimensionScore.make lax dimension clamped_score weight notes)%res.

(** The body of the [try] of [_parse_response], on the unfenced text. *)
Definition parse_body (lax : Pydantic.lax_mode) (response : string) : res PresentFitScore.t :=
  (data <- Json.loads response ;;
   entries <- Dict.get data "dimension_scores" (PyList []) ;;
   items <- Dict.iter entries ;;
   dimension_scores <- for_each (dimension_score lax) items ;;
   score <- Dict.get data "score" (PyFloat (fin 50)) ;;
   passed <- Dict.get data "passed" (PyBool true) ;;
   violations <- Dict.get data "violations" (PyList []) ;;
   justification <- Dict.get data "justification" (PyStr "") ;;
   deal_breakers <- Dict.get data "deal_breakers" (PyList []) ;;
   PresentFitScore.make lax score passed violations dimension_scores
     justification deal_breakers)%res.

Definition fallback (response : string) : PresentFitScore.t :=
  {| PresentFitScore.score := fin 50; PresentFitScore.passed := true;
     PresentFitScore.violations := []; PresentFitScore.dimension_scores := [];
     PresentFitScore.justification :=
       String.append "Scoring parse error. Raw: " (Py.slice response None (Some 300));
     PresentFitScore.deal_breakers := [] |}.

(** [PresentFitAgent._parse_response] *)
Definition _parse_response (lax : Pydantic.lax_mode) (response : string)
    (taste : TasteModel.t) : res PresentFitScore.t :=
  let response := unfence response in
  try_parse (parse_body lax response) (fallback response).

(** [_build_context]: the price is formatted with a thousands separator,
    which [None] does not support; the analysis is read after it. *)
Definition _build_context (house : House.t) (taste : TasteModel.t) : res prompt :=
  match House.price house, House.vision_analysis house with
  | None, _ => Raise TypeError
  | Some _, None => Raise AttributeError
  | Some _, Some _ => Ok (PresentFitPrompt house taste)
  end.

(** [PresentFitAgent.score] *)
Definition score (w : World) (house_id : string) : M (option PresentFitScore.t) :=
  (house <- load_house house_id ;;
   match house with
   | None => ret None
   | Some house =>
       taste <- load_or_create_taste ;;
       match House.vision_analysis house with
       | None => ret None
       | Some _ =>
           context <- lift (_build_context house taste) ;;
           response <- outside (fun t => openrouter_chat w t context) ;;
           score <- lift (_parse_response (lax w) response taste) ;;
           now <- datetime_now w ;;
           save_house (House.set_present_fit_score house score now) ;;;
           ret (Some score)
       end
   end)%M.

End PresentFitAgent.

Module PotentialAgent.

Import BaseAgent.

Definition renovation_idea (idea : pyobj) : res RenovationIdea.t :=
  (area <- Dict.get idea "area" (PyStr "") ;;
   current_state <- Dict.get idea "current_state" (PyStr "") ;;
   proposed_change <- Dict.get idea "proposed_change" (PyStr "") ;;
   impact <- Dict.get idea "impact" (PyStr "") ;;
   difficulty <- Dict.get idea "difficulty" (PyStr "medium") ;;
   RenovationIdea.make area current_state proposed_change impact difficulty)%res.

Definition parse_body (lax : Pydantic.lax_mode) (response : string) : res PotentialScore.t :=
  (data <- Json.loads response ;;
   ideas_data <- Dict.get data "renovation_ideas" (PyList []) ;;
   items <- Dict.iter ideas_data ;;
   ideas <- for_each renovation_idea items ;;
   score <- Dict.get data "score" (PyFloat (fin 50)) ;;
   feasibility <- Dict.get data "feasibility" (PyStr "medium") ;;
   cost_class <- Dict.get data "cost_class" (PyStr "$50-100k") ;;
   risk_notes <- Dict.get data "risk_notes" (PyList []) ;;
   upside_narrative <- Dict.get data "upside_narrative" (PyStr "") ;;
   PotentialScore.make lax score ideas feasibility cost_class risk_notes upside_narrative)%res.

Definition fallback (response : string) : PotentialScore.t :=
  {| PotentialScore.score := fin 50; PotentialScore.renovation_ideas := [];
     PotentialScore.feasibility := "unknown"; PotentialScore.cost_class := "unknown";
     PotentialScore.risk_notes := [];
     PotentialScore.upside_narrative :=
       String.append "Parse error. Raw: " (Py.slice response None (Some 300)) |}.

(** [PotentialAgent._parse_response] *)
Definition _parse_response (lax : Pydantic.lax_mode) (response : string) : res PotentialScore.t :=
  let response := unfence response in
  try_parse (parse_body lax response) (fallback response).

(** [_build_context]: the price and, after the analysis is read, the
    renovation budget are formatted with a thousands separator. *)
Definition _build_context (house : House.t) (taste : TasteModel.t) : res prompt :=
  match House.price house, House.vision_analysis house,
        TasteModel.renovation_budget_max taste with
  | None, _, _ => Raise TypeError
  | Some _, None, _ => Raise AttributeError
  | Some _, Some _, None => Raise TypeError
  | Some _, Some _, Some _ => Ok (PotentialPrompt house taste)
  end.

(** [PotentialAgent.score] *)
Definition score (w : World) (house_id : string) : M (option PotentialScore.t) :=
  (house <- load_house house_id ;;
   match house with
   | None => ret None
   | Some house =>
       taste <- load_or_create_taste ;;
       match House.vision_analysis house with
       | None => ret None
       | Some _ =>
           context <- lift (_build_context house taste) ;;
           response <- outside (fun t => openrouter_chat w t context) ;;
           score <- lift (_parse_response (lax w) response) ;;
           save_house (House.set_potential_score house score) ;;;
           ret (Some score)
       end
   end)%M.

End PotentialAgent.

Module BriefAgent.

(** [_build_context]: the price again. *)
Definition _build_context (house : House.t) (taste : TasteModel.t) : res prompt :=
  match House.price house with
  | None => Raise TypeError
  | Some _ => Ok (BriefPrompt house taste)
  end.

(** [BriefAgent.generate] *)
Definition generate (w : World) (house_id : string) : M (option string) :=
  (house <- load_house house_id ;;
   match house with
   | None => ret None
   | Some house =>
       taste <- load_or_create_taste ;;
       context <- lift (_build_context house taste) ;;
       response <- outside (fun t => openrouter_chat w t context) ;;
       save_house (House.set_brief house response) ;;;
       ret (Some response)
   end)%M.

End BriefAgent.

(** ** The pipeline ([src/agents/orchestrator.py]) *)

Module Orchestrator.

(** What a stage of [score_house] tells the rest of the function. *)
Inductive outcome : Type :=
  | Continue
  | ReturnFalse.

(** Stage 1: a raise returns [False]; a missing analysis is only
    reported. *)
Definition step1 (w : World) (house_id : string) : M outcome :=
  try_except
    (vision <- VisionAgent.analyze w house_id ;; ret Continue)%M
    (fun _ => ret ReturnFalse).

(** Stage 2: a raise and a missing score both return [False]. *)
Definition step2 (w : World) (house_id : string) : M outcome :=
  try_except
    (fit_score <- PresentFitAgent.score w house_id ;;
     match fit_score with
     | Some _ => ret Continue
     | None => ret ReturnFalse
     end)%M
    (fun _ => ret ReturnFalse).

(** Stage 3 and stage 4: whatever happens, the function goes on. *)
Definition step3 (w : World) (house_id : string) : M outcome :=
  try_except
    (pot_score <- PotentialAgent.score w house_id ;; ret Continue)%M
    (fun _ => ret Continue).

Definition step4 (w : World) (house_id : string) : M outcome :=
  try_except
    (brief <- BriefAgent.generate w house_id ;; ret Continue)%M
    (fun _ => ret Continue).

(** [score_house] *)
Definition score_house (w : World) (house_id : string) : M bool :=
  (house <- load_house house_id ;;
   match house with
   | None => ret false
   | Some _ =>
       o1 <- step1 w house_id ;;
       match o1 with
       | ReturnFalse => ret false
       | Continue =>
           o2 <- step2 w house_id ;;
           match o2 with
           | ReturnFalse => ret false
           | Continue =>
               step3 w house_id ;;;
               step4 w house_id ;;;
               ret true
           end
       end
   end)%M.

(** The loop of [batch_score] over the identifiers, with the results so
    far. *)
Fixpoint score_each (w : World) (house_ids : list string) (results : gmap string bool)
    : M (gmap string bool) :=
  match house_ids with
  | [] => ret results
  | house_id :: rest =>
      (house <- load_house house_id ;;
       result <- score_house w house_id ;;
       score_each w rest (<[house_id := result]> results))%M
  end.

(** [batch_score] *)
Definition batch_score (w : World) (house_ids : option (list string))
    : M (gmap string bool) :=
  (house_ids <-
     match house_ids with
     | None => houses <- get_unscored_houses ;; ret (House.id <$> houses)
     | Some ids => ret ids
     end ;;
   match house_ids with
   | [] => ret ∅
   | _ => score_each w house_ids ∅
   end)%M.

(** One row of [get_rankings]: the identifier, the primary score and the
    secondary score, each score [0] when it is missing. *)
Definition ranking (h : House.t) : string * pyfloat * pyfloat :=
  let fit :=
    match House.present_fit_score h with
    | Some score => PresentFitScore.score score
    | None => Num.of_Z 0
    end in
  let pot :=
    match House.potential_score h with
    | Some score => PotentialScore.score score
    | None => Num.of_Z 0
    end in
  (House.id h, fit, pot).

(** [get_rankings] *)
Definition get_rankings (store : JsonStore.t) : list (string * pyfloat * pyfloat) :=
  let houses := JsonStore.get_scored_houses store in
  let rankings := ranking <$> houses in
  Py.sorted_reverse (fun a b => Num.flt (snd (fst a)) (snd (fst b))) rankings.

End Orchestrator.

(** ** Words of the specification about the grid *)

Module GridSpec.

Import PIL.

(** The corner at which an image of width [w] (height [h]) sits when it is
    centred in the cell of index [idx], cells counted row by row. *)
Definition cell_x (cols cell_width padding idx w : Z) : Z :=
  padding + (idx mod cols) * (cell_width + padding) + (cell_width - w) / 2.

Definition cell_y (cols cell_height padding idx h : Z) : Z :=
  padding + (idx / cols) * (cell_height + padding) + (cell_height - h) / 2.

(** [placed] is [img] resized to [w] by [h], converted to RGB or not. *)
Definition placed_from (img : Image) (w h : Z) (placed : Image) : Prop :=
  placed = Resized img w h \/ placed = Converted (Resized img w h) "RGB".

(** [img] can be given its place in a cell: fitting it gives a size, and
    resizing it to that size is not refused. *)
Definition resizable (cell_width cell_height : Z) (img : Image) : Prop :=
  exists w h resized,
    ImageComposite.fit img cell_width cell_height = Ok (w, h) /\
    resize img w h = Ok resized.

(** The pastes [ps] put the images, in their order, into the cells from
    index [idx] on. *)
Fixpoint placed_in_order (cols cell_width cell_height padding idx : Z)
    (images : list Image) (ps : list (Image * (Z * Z))) : Prop :=
  match images, ps with
  | [], [] => True
  | img :: images', (placed, (x, y)) :: ps' =>
      (exists w h, placed_from img w h placed /\
                   x = cell_x cols cell_width padding idx w /\
                   y = cell_y cols cell_height padding idx h) /\
      placed_in_order cols cell_width cell_height padding (idx + 1) images' ps'
  | _, _ => False
  end.

End GridSpec.

(** ** Words of the specification about the clamp *)

Module ClampSpec.

(** Two floats are the same number. *)
Definition same (a b : pyfloat) : Prop :=
  match a, b with
  | fnan, fnan => True
  | finf n1, finf n2 => n1 = n2
  | fin p, fin q => Qeq p q
  | _, _ => False
  end.

(** [lo <= f <= hi] *)
Definition within (lo hi : Z) (f : pyfloat) : Prop := Num.in_range lo hi f = true.

(** What the specification says of a score [x] and its clamped value
    [f]: at most 10, it passes, a negative one becoming 0; above 10, it
    is divided by 10 first and then cut at 10. *)
Definition clamped_score (x f : pyfloat) : Prop :=
  within 0 10 f /\
  (Num.fle x (Num.of_Z 10) = true ->
     (Num.flt x (Num.of_Z 0) = true -> same f (Num.of_Z 0)) /\
     (Num.fle (Num.of_Z 0) x = true -> same f x)) /\
  (Num.flt (Num.of_Z 10) x = true ->
     (Num.fle (Num.fdiv10 x) (Num.of_Z 10) = true -> same f (Num.fdiv10 x)) /\
     (Num.flt (Num.of_Z 10) (Num.fdiv10 x) = true -> same f (Num.of_Z 10))).

(** The same of a weight [y] and its clamped value [g]: cut at 0 and
    at 1. *)
Definition clamped_weight (y g : pyfloat) : Prop :=
  within 0 1 g /\
  (Num.flt y (Num.of_Z 0) = true -> same g (Num.of_Z 0)) /\
  (Num.fle (Num.of_Z 0) y = true -> Num.fle y (Num.of_Z 1) = true -> same g y) /\
  (Num.flt (Num.of_Z 1) y = true -> same g (Num.of_Z 1)).

(** An [int] whose tenth is beyond the doubles. *)
Definition too_large (raw : pyobj) : bool :=
  match raw with
  | PyInt z => 10 * Num.overflow_bound <=? z
  | _ => false
  end.

(** An entry [ds] of a response and the [DimensionScore] built from it. *)
Definition entry_clamped (ds : pyobj) (d : DimensionScore.t) : Prop :=
  exists raw_score raw_weight x y,
    Dict.get ds "score" (PyFloat (fin 5)) = Ok raw_score /\
    Num.value raw_score = Some x /\
    clamped_score x (DimensionScore.score d) /\
    Dict.get ds "weight" (PyFloat (Double.round 0.1)) = Ok raw_weight /\
    Num.value raw_weight = Some y /\
    clamped_weight y (DimensionScore.weight d).

(** A JSON text is built with this quote. *)
Definition quote : string := String "034" EmptyString.

Definition quoted (s : string) : string := String.append quote (String.append s quote).

(** The decimal digits of [10 * (2^1024 - 2^970)]. *)
Definition overflowing_digits : string :=
  String.concat "" [
    "17976931348623158079372897140530341507993413271003782693617377";
    "89804449682927647509466490179775872070963302864166928879109465";
    "55547851940402630657488671505820681908902000708383676273854845";
    "81771153176447573027006985557136695962284291481986083493647529";
    "27190741684443655107043427115596995080930428801779041744977920" ].

(** A response with entries: a score on the 0-100 scale with a weight
    above 1, a negative score with the default weight, a score on the
    0-10 scale. *)
Definition response_with_entries : string :=
  String.concat "" [
    "{"; quoted "dimension_scores"; ": [";
    "{"; quoted "dimension"; ": "; quoted "light"; ", ";
         quoted "score"; ": 85, "; quoted "weight"; ": 2}, ";
    "{"; quoted "score"; ": -3}, ";
    "{"; quoted "score"; ": 7.5, "; quoted "weight"; ": 0.25}";
    "]}" ].

(** A response whose one entry has the score [10 * (2^1024 - 2^970)]. *)
Definition response_with_overflowing_score : string :=
  String.concat "" [
    "{"; quoted "dimension_scores"; ": [{"; quoted "score"; ": ";
    overflowing_digits; "}]}" ].

End ClampSpec.

(** ** Words of the specification about the store *)

Module StoreSpec.

Import JsonStore.

(** Every file holds the record that carries the file's identifier. *)
Definition well_formed (store : t) : Prop :=
  forall k h, houses store !! k = Some h -> House.id h = k.



End StoreSpec.

(** ** Words of the specification about fetching *)

Module FetchSpec.

(** What a request for [url] made at time [t] brings: an image, when the
    request is answered, the status is a 2xx and the body decodes. *)
Definition fetched (w : World) (t : nat) (url : string) : option PIL.Image :=
  match http_get w t url with
  | Ok response =>
      if Py.between 200 (Httpx.status_code response) 299 then
        match image_open w (Httpx.content response) with
        | Ok img => Some img
        | Raise _ => None
        end
      else None
  | Raise _ => None
  end.

(** The images that requests for [urls], made from time [t] on, bring:
    the failures left out, the order kept. *)
Fixpoint fetched_all (w : World) (t : nat) (urls : list string) : list PIL.Image :=
  match urls with
  | [] => []
  | url :: rest =>
      match fetched w t url with
      | Some img => img :: fetched_all w (S t) rest
      | None => fetched_all w (S t) rest
      end
  end.

(** The state once each of [urls] was requested, once, in order. *)
Definition after_requests (s : state) (urls : list string) : state :=
  {| store := store s;
     damaged := damaged s;
     ticks := length urls + ticks s;
     requested := (rev urls ++ requested s)%list |}.

(** The placeholder: one cell, grey, nothing pasted on it. *)
Definition placeholder (cell_width cell_height : Z) : PIL.png :=
  {| PIL.encoded := PIL.New "RGB" cell_width cell_height (200, 200, 200);
     PIL.optimize := false |}.

End FetchSpec.

(** ** Words of the specification about the pipeline *)

Module PipelineSpec.

(** Both required stages completed: the visual analysis returned, and the
    primary scoring returned a score. *)
Definition required_stages_completed (w : World) (house_id : string) (s : state) : Prop :=
  exists v s1 fit s2,
    VisionAgent.analyze w house_id s = (Ok v, s1) /\
    PresentFitAgent.score w house_id s1 = (Ok (Some fit), s2).

(** A required stage failed: the visual analysis raised, or it returned
    and the primary scoring raised or returned nothing. *)
Definition required_stage_failed (w : World) (house_id : string) (s : state) : Prop :=
  (exists e s1, VisionAgent.analyze w house_id s = (Raise e, s1)) \/
  (exists v s1 r s2,
     VisionAgent.analyze w house_id s = (Ok v, s1) /\
     PresentFitAgent.score w house_id s1 = (r, s2) /\
     (r = Ok None \/ exists e, r = Raise e)).

(** The slots a run fills are all unset. *)
Definition unset (h : House.t) : Prop :=
  House.vision_analysis h = None /\ House.present_fit_score h = None /\
  House.potential_score h = None /\ House.brief h = "".

(** The sentence of the specification on a failing stage 3: with stages
    1, 2 and 4 succeeding the run returns [True], the secondary score is
    absent and the other three artifacts are present. *)
Definition stage3_failure_leaves_three (w : World) (house_id : string) (s : state) : Prop :=
  forall v s1 fit s2 e s3 brief s4,
    VisionAgent.analyze w house_id s = (Ok v, s1) ->
    PresentFitAgent.score w house_id s1 = (Ok (Some fit), s2) ->
    PotentialAgent.score w house_id s2 = (Raise e, s3) ->
    BriefAgent.generate w house_id s3 = (Ok (Some brief), s4) ->
    brief <> "" ->
    exists h',
      Orchestrator.score_house w house_id s = (Ok true, s4) /\
      JsonStore.load_house (store s4) house_id = Some h' /\
      House.potential_score h' = None /\
      is_Some (House.vision_analysis h') /\
      is_Some (House.present_fit_score h') /\
      House.brief h' <> "".

(** What the code does on a failing stage 3: with stages 1, 2 and 4
    returning, the run returns [True]; the stored record holds the
    analysis, the primary score and the narrative that these stages
    returned, and its secondary score is the one that [h], the record
    before the run, had. *)
Definition stage3_failure_keeps_slot (w : World) (house_id : string) (s : state)
    (h : House.t) : Prop :=
  forall v s1 fit s2 e s3 brief s4,
    VisionAgent.analyze w house_id s = (Ok v, s1) ->
    PresentFitAgent.score w house_id s1 = (Ok (Some fit), s2) ->
    PotentialAgent.score w house_id s2 = (Raise e, s3) ->
    BriefAgent.generate w house_id s3 = (Ok (Some brief), s4) ->
    exists h',
      Orchestrator.score_house w house_id s = (Ok true, s4) /\
      JsonStore.load_house (store s4) house_id = Some h' /\
      House.potential_score h' = House.potential_score h /\
      is_Some v /\ House.vision_analysis h' = v /\
      House.present_fit_score h' = Some fit /\
      House.brief h' = brief.

(** The file of [house_id] can be read: [load_house] returns, a record
    or [None]. *)
Definition readable (s : state) (house_id : string) : Prop :=
  exists house, load_house house_id s = (Ok house, s).

(** From [s] to [s'] no record was removed and no file was damaged. *)
Definition grows (s s' : state) : Prop :=
  (forall house_id, is_Some (JsonStore.houses (store s) !! house_id) ->
                    is_Some (JsonStore.houses (store s') !! house_id)) /\
  (forall house_id, damaged s !! house_id = None -> damaged s' !! house_id = None).

(** A batch, taken in order: each identifier with what [score_house]
    returned for it in the state the ones before it left. *)
Inductive batch_run (w : World) : state -> list string -> list (string * bool) -> state -> Prop :=
  | batch_nil s :
      batch_run w s [] [] s
  | batch_cons s house_id rest b s1 outcomes s' :
      Orchestrator.score_house w house_id s = (Ok b, s1) ->
      batch_run w s1 rest outcomes s' ->
      batch_run w s (house_id :: rest) ((house_id, b) :: outcomes) s'.

(** The mapping a list of outcomes leaves: the last word on an identifier
    stands. *)
Definition results_of (outcomes : list (string * bool)) : gmap string bool :=
  fold_left (fun results o => <[fst o := snd o]> results) outcomes ∅.

End PipelineSpec.

(** ** A world and some records to run the definitions on *)

Module Examples.

(** No network and no vision endpoint; the chat endpoint answers every
    prompt with an empty JSON object. *)
Definition offline : World :=
  {| lax := Pydantic.no_coercion;
     now := fun t => Z.of_nat t;
     http_get := fun _ _ => Raise RequestError;
     image_open := fun _ => Raise UnidentifiedImageError;
     openrouter_vision := fun _ _ => Raise RequestError;
     openrouter_chat := fun _ _ => Ok "{}" |}.

Definition oak_ave : House.t :=
  House.create_from_zillow "456-oak-ave-20240101000000" "" "456 Oak Ave" (Some 500000)
    [] "" HouseFeatures.default 1.


Definition elm_st : House.t :=
  House.create_from_zillow "12-elm-st-20240101000002" "" "12 Elm St" (Some 350000)
    ["https://photos.example/elm-1.jpg"; "https://photos.example/elm-2.jpg"] ""
    HouseFeatures.default 3.

Definition old_potential : PotentialScore.t :=
  PotentialAgent.fallback "an earlier run".

(** A record that an earlier run left with a secondary score. *)
Definition scored_before : House.t := House.set_potential_score oak_ave old_potential.

Definition state_of (houses : list House.t) : state :=
  {| store := fold_left JsonStore.save_house houses JsonStore.empty;
     damaged := ∅; ticks := 0; requested := [] |}.

(** A file of the houses directory whose record the model refuses, as
    the [zip_code] that [house ingest] copies from the listing without
    validation leaves it when the listing gives a number. *)
Definition pine_rd : string := "9-pine-rd-20240101000003".

Definition with_refused_record (s : state) : state :=
  {| store := store s; damaged := <[pine_rd := ValidationError]> (damaged s);
     ticks := ticks s; requested := requested s |}.

End Examples.

(** * Properties *)

(** ** Rounding *)

Section DoubleFacts.

Import Double.

Lemma pow2_pos (k : Z) : 0 <= k -> 0 < 2 ^ k.
Proof. intros Hk. apply Z.pow_pos_nonneg; lia. Qed.

Lemma pow2_succ (k : Z) : 0 <= k -> 2 ^ (k + 1) = 2 * 2 ^ k.
Proof. intros Hk. rewrite Z.pow_add_r by lia. lia. Qed.

Lemma shifted_nonneg (p d k : Z) : 0 <= k -> shifted p d k = (p, d * 2 ^ k).
Proof. intros Hk. unfold shifted. destruct (Z.leb_spec 0 k); [reflexivity | lia]. Qed.

Lemma shifted_neg (p d k : Z) : k < 0 -> shifted p d k = (p * 2 ^ (- k), d).
Proof. intros Hk. unfold shifted. destruct (Z.leb_spec 0 k); [lia | reflexivity]. Qed.

(** The nearest integer is within a half of the fraction. *)
Lemma nearest_even_bounds (p d : Z) :
  0 < d -> 2 * d * nearest_even p d - d <= 2 * p <= 2 * d * nearest_even p d + d.
Proof.
  intros Hd. unfold nearest_even.
  pose proof (Z.div_mod p d ltac:(lia)) as Hdm.
  pose proof (Z.mod_pos_bound p d Hd) as Hr.
  set (q := p / d) in *. set (r := p mod d) in *.
  destruct (Z.ltb_spec (2 * r) d); [nia |].
  destruct (Z.ltb_spec d (2 * r)); [nia |].
  destruct (Z.even q); nia.
Qed.

Lemma nearest_even_ge (p d c : Z) : 0 < d -> c * d <= p -> c <= nearest_even p d.
Proof. intros Hd Hc. pose proof (nearest_even_bounds p d Hd). nia. Qed.

Lemma nearest_even_le (p d c : Z) : 0 < d -> p <= c * d -> nearest_even p d <= c.
Proof. intros Hd Hc. pose proof (nearest_even_bounds p d Hd). nia. Qed.

Lemma nearest_even_exact (c d : Z) : 0 < d -> nearest_even (c * d) d = c.
Proof.
  intros Hd. apply Z.le_antisymm; [apply nearest_even_le | apply nearest_even_ge]; lia.
Qed.

(** The exponent of a fraction that is at least 1. *)
Lemma exponent_spec (p d : Z) :
  0 < d -> d <= p ->
  0 <= exponent p d /\ d * 2 ^ exponent p d <= p < d * 2 ^ (exponent p d + 1).
Proof.
  intros Hd Hp. unfold exponent.
  pose proof (Z.log2_spec p ltac:(lia)) as Ha.
  pose proof (Z.log2_spec d Hd) as Hb.
  pose proof (Z.log2_nonneg d) as Hb0.
  assert (Hab : Z.log2 d <= Z.log2 p) by (apply Z.log2_le_mono; lia).
  set (a := Z.log2 p) in *. set (b := Z.log2 d) in *.
  replace (Z.succ a) with (a + 1) in Ha by lia.
  replace (Z.succ b) with (b + 1) in Hb by lia.
  assert (Hsplit : 2 ^ a = 2 ^ b * 2 ^ (a - b)).
  { rewrite <- Z.pow_add_r by lia. f_equal. lia. }
  pose proof (pow2_pos (a - b) ltac:(lia)) as Hpos.
  pose proof (pow2_pos b ltac:(lia)) as Hposb.
  rewrite !pow2_succ in * by lia.
  rewrite shifted_nonneg by lia.
  destruct (Z.leb_spec (d * 2 ^ (a - b)) p) as [Hle | Hlt].
  - split; [lia |]. rewrite pow2_succ by lia. nia.
  - assert (Hab1 : 1 <= a - b).
    { destruct (Z.eq_dec (a - b) 0) as [E | E]; [| lia].
      rewrite E in Hlt. simpl in Hlt. lia. }
    split; [lia |].
    replace (a - b - 1 + 1) with (a - b) by lia.
    assert (Hhalf : 2 ^ (a - b) = 2 * 2 ^ (a - b - 1)).
    { rewrite <- pow2_succ by lia. f_equal. lia. }
    pose proof (pow2_pos (a - b - 1) ltac:(lia)). nia.
Qed.

Lemma round_int_ratio (n d : Z) :
  0 < d -> round (inject_Z n / inject_Z d) = round_ratio n d.
Proof.
  intros Hd. destruct d as [| dp | dp]; try lia.
  unfold round, Qdiv, Qmult, Qinv, inject_Z. simpl. rewrite Z.mul_1_r. reflexivity.
Qed.

Lemma round_int (n : Z) : round (inject_Z n) = round_ratio n 1.
Proof. reflexivity. Qed.

(** The last place of the double nearest to a fraction from 1 on. *)
Lemma nearest_normal (p d : Z) :
  0 < d -> d <= p ->
  nearest p d
  = (let (n, m) := shifted p d (exponent p d - 52) in nearest_even n m, exponent p d - 52).
Proof.
  intros Hd Hp. unfold nearest, prec, emin.
  destruct (exponent_spec p d Hd Hp) as [He _].
  replace (Z.max (exponent p d - (53 - 1)) (-1074)) with (exponent p d - 52) by lia.
  destruct (shifted p d (exponent p d - 52)); reflexivity.
Qed.

Lemma Qceiling_make (m D c : Z) :
  0 < D -> (c - 1) * D < m <= c * D -> Qceiling (Qmake m (Z.to_pos D)) = c.
Proof.
  intros HD Hm. unfold Qceiling, Qfloor, Qopp. simpl.
  rewrite Z2Pos.id by lia.
  pose proof (Z.div_mod (- m) D ltac:(lia)) as Hdm.
  pose proof (Z.mod_pos_bound (- m) D HD) as Hr.
  set (q := (- m) / D) in *. set (r := (- m) mod D) in *. nia.
Qed.

(** Up to [5 * 2^51] the rounded quotient by 5 has the ceiling of the
    exact one. *)
Lemma int_truediv_5_ceiling (n : Z) :
  5 <= n <= 5 * 2 ^ 51 ->
  exists q, Num.int_truediv n 5 = Ok (fin q) /\ PyMath.is_ceil_quot n 5 (Qceiling q).
Proof.
  intros Hn. unfold Num.int_truediv. simpl (5 =? 0). cbv iota.
  rewrite round_int_ratio by lia.
  destruct (exponent_spec n 5 ltac:(lia) ltac:(lia)) as [He [Hlo Hhi]].
  assert (He51 : exponent n 5 <= 51).
  { destruct (Z_le_gt_dec (exponent n 5) 51) as [H | H]; [exact H | exfalso].
    assert (2 ^ 52 <= 2 ^ exponent n 5) by (apply Z.pow_le_mono_r; lia).
    assert (2 ^ 52 = 2 * 2 ^ 51) by reflexivity. lia. }
  unfold round_ratio. destruct n as [| np | np]; try lia.
  rewrite nearest_normal by lia.
  set (e := exponent (Z.pos np) 5) in *.
  rewrite shifted_neg by lia.
  replace (- (e - 52)) with (52 - e) by lia.
  destruct (Z.leb_spec 0 (e - 52)) as [Hk | Hk]; [lia |]. cbn [andb].
  eexists. split; [reflexivity |].
  unfold value. destruct (Z.leb_spec 0 (e - 52)) as [Hk' | _]; [lia |].
  replace (- (e - 52)) with (52 - e) by lia.
  pose proof (pow2_pos (52 - e) ltac:(lia)) as HD.
  set (D := 2 ^ (52 - e)) in *.
  pose proof (nearest_even_bounds (Z.pos np * D) 5 ltac:(lia)) as Hm.
  set (m := nearest_even (Z.pos np * D) 5) in *.
  destruct (Z.eq_dec e 51) as [E51 | E51].
  - (* the last binade: the quotient is exact *)
    assert (Hnp : Z.pos np = 5 * 2 ^ 51) by (rewrite E51 in Hlo; lia).
    assert (HD2 : D = 2) by (unfold D; rewrite E51; reflexivity).
    rewrite (Qceiling_make m D (2 ^ 51)); [| lia |].
    + unfold PyMath.is_ceil_quot. lia.
    + assert (Hmx : m = 2 ^ 52).
      { unfold m. rewrite Hnp, HD2.
        replace (5 * 2 ^ 51 * 2) with (2 ^ 52 * 5) by reflexivity.
        apply nearest_even_exact. lia. }
      rewrite Hmx, HD2. split; reflexivity || (vm_compute; congruence).
  - assert (HD4 : 4 <= D).
    { unfold D. change 4 with (2 ^ 2). apply Z.pow_le_mono_r; lia. }
    set (c := Qceiling (Qmake m (Z.to_pos D))).
    assert (Hc : (c - 1) * D < m <= c * D).
    { unfold c, Qceiling, Qfloor, Qopp. simpl. rewrite Z2Pos.id by lia.
      pose proof (Z.div_mod (- m) D ltac:(lia)) as Hdm.
      pose proof (Z.mod_pos_bound (- m) D HD) as Hr.
      set (q := (- m) / D) in *. set (r := (- m) mod D) in *. nia. }
    unfold PyMath.is_ceil_quot. nia.
Qed.

(** An integer from 17 to [2^54] as a float. *)
Lemma float_of_int_from_17 (n : Z) :
  17 <= n <= 2 ^ 54 ->
  exists x, Num.float_of_int n = Ok (fin x) /\
            17 * Z.pos (Qden x) <= Qnum x <= 2 ^ 55 * Z.pos (Qden x).
Proof.
  intros Hn. unfold Num.float_of_int. rewrite round_int.
  destruct (exponent_spec n 1 ltac:(lia) ltac:(lia)) as [He [Hlo Hhi]].
  rewrite !Z.mul_1_l in Hlo, Hhi.
  assert (He54 : exponent n 1 <= 54).
  { destruct (Z_le_gt_dec (exponent n 1) 54) as [H | H]; [exact H | exfalso].
    assert (2 ^ 55 <= 2 ^ exponent n 1) by (apply Z.pow_le_mono_r; lia).
    assert (2 ^ 55 = 2 * 2 ^ 54) by reflexivity. lia. }
  unfold round_ratio. destruct n as [| np | np]; try lia.
  rewrite nearest_normal by lia.
  set (e := exponent (Z.pos np) 1) in *.
  destruct (Z_le_gt_dec 0 (e - 52)) as [Hk | Hk].
  - rewrite shifted_nonneg by lia. rewrite Z.mul_1_l.
    pose proof (pow2_pos (e - 52) Hk) as HD.
    assert (Hsplit : 2 ^ e = 2 ^ 52 * 2 ^ (e - 52)).
    { rewrite <- Z.pow_add_r by lia. f_equal. lia. }
    assert (HD4 : 2 ^ (e - 52) <= 4).
    { change 4 with (2 ^ 2). apply Z.pow_le_mono_r; lia. }
    rewrite pow2_succ in Hhi by lia.
    set (D := 2 ^ (e - 52)) in *.
    pose proof (nearest_even_ge (Z.pos np) D (2 ^ 52) HD ltac:(lia)) as Hm1.
    pose proof (nearest_even_le (Z.pos np) D (2 ^ 53) HD
                  ltac:(change (2 ^ 53) with (2 * 2 ^ 52); lia)) as Hm2.
    set (m := nearest_even (Z.pos np) D) in *.
    destruct (Z.leb_spec 0 (e - 52)) as [_ | ?]; [| lia]. cbn [andb].
    destruct (Z.leb_spec (2 ^ emax) (m * D)) as [Hover | _].
    { exfalso. assert (m * D <= 2 ^ 53 * 4) by nia.
      assert (2 ^ 53 * 4 < 2 ^ emax) by (vm_compute; reflexivity). lia. }
    eexists. split; [reflexivity |]. unfold value.
    destruct (Z.leb_spec 0 (e - 52)) as [_ | ?]; [| lia]. fold D. simpl.
    assert (2 ^ 52 = 4503599627370496) by reflexivity.
    assert (2 ^ 53 = 9007199254740992) by reflexivity.
    assert (2 ^ 55 = 36028797018963968) by reflexivity. nia.
  - rewrite shifted_neg by lia.
    replace (- (e - 52)) with (52 - e) by lia.
    pose proof (pow2_pos (52 - e) ltac:(lia)) as HD.
    set (D := 2 ^ (52 - e)) in *.
    rewrite <- (Z.mul_1_r (Z.pos np * D)), nearest_even_exact by lia.
    destruct (Z.leb_spec 0 (e - 52)) as [? | _]; [lia |]. cbn [andb].
    eexists. split; [reflexivity |]. unfold value.
    destruct (Z.leb_spec 0 (e - 52)) as [? | _]; [lia |].
    replace (- (e - 52)) with (52 - e) by lia. fold D. simpl.
    rewrite Z2Pos.id by lia.
    assert (2 ^ 54 = 18014398509481984) by reflexivity.
    assert (2 ^ 55 = 36028797018963968) by reflexivity. nia.
Qed.

(** The root of a float from 17 to [2^55] is above 4. *)
Lemma fsqrt_above_4 (x : Q) :
  17 * Z.pos (Qden x) <= Qnum x <= 2 ^ 55 * Z.pos (Qden x) ->
  exists y, Num.fsqrt (fin x) = Ok (fin y) /\ 5 <= Qceiling y.
Proof.
  intros Hx. destruct x as [p d]. cbn [Qnum Qden] in Hx.
  unfold Num.fsqrt.
  assert (Hpos : Num.Qltb (p # d) 0 = false).
  { apply negb_false_iff, Qle_bool_iff. unfold Qle. simpl. lia. }
  rewrite Hpos. unfold sqrt. cbn [Qnum Qden].
  destruct p as [| pp | pp]; try lia.
  destruct (exponent_spec (Z.pos pp) (Z.pos d) ltac:(lia) ltac:(lia)) as [He [Hlo Hhi]].
  set (e := exponent (Z.pos pp) (Z.pos d)) in *.
  assert (He4 : 4 <= e).
  { destruct (Z_le_gt_dec 4 e) as [H | H]; [exact H | exfalso].
    assert (2 ^ (e + 1) <= 2 ^ 4) by (apply Z.pow_le_mono_r; lia).
    change (2 ^ 4) with 16 in *. nia. }
  assert (He55 : e <= 55).
  { destruct (Z_le_gt_dec e 55) as [H | H]; [exact H | exfalso].
    assert (2 ^ 56 <= 2 ^ e) by (apply Z.pow_le_mono_r; lia).
    assert (2 ^ 56 = 2 * 2 ^ 55) by reflexivity. nia. }
  unfold nearest_sqrt, prec. fold e.
  assert (HE : 2 <= e / 2 <= 27).
  { split; [apply Z.div_le_lower_bound; lia |].
    assert (e / 2 < 28) by (apply Z.div_lt_upper_bound; lia). lia. }
  set (E := e / 2) in *.
  rewrite shifted_neg by lia.
  replace (- (2 * (E - (53 - 1)))) with (2 * (52 - E)) by lia.
  set (j := 52 - E) in *.
  assert (Hj : 25 <= j <= 50) by (unfold j; lia).
  pose proof (pow2_pos j ltac:(lia)) as HJ.
  assert (Hsq : 2 ^ (2 * j) = 2 ^ j * 2 ^ j).
  { rewrite <- Z.pow_add_r by lia. f_equal. lia. }
  assert (HJ9 : 9 <= 2 ^ j).
  { assert (2 ^ 4 <= 2 ^ j) by (apply Z.pow_le_mono_r; lia).
    change (2 ^ 4) with 16 in *. lia. }
  set (J := 2 ^ j) in *. rewrite Hsq.
  set (N := Z.pos pp * (J * J) / Z.pos d).
  assert (HN : 17 * (J * J) <= N).
  { unfold N. apply Z.div_le_lower_bound; [lia | nia]. }
  assert (Hs : 4 * J + 1 <= Z.sqrt N).
  { rewrite <- (Z.sqrt_square (4 * J + 1)) by lia. apply Z.sqrt_le_mono. nia. }
  set (s := Z.sqrt N) in *.
  match goal with
  | |- context [if ?c then s + 1 else s] => set (m := if c then s + 1 else s)
  end.
  assert (Hm : 4 * J + 1 <= m).
  { unfold m. match goal with |- context [if ?c then s + 1 else s] => destruct c end; lia. }
  eexists. split; [reflexivity |]. unfold value.
  destruct (Z.leb_spec 0 (E - (53 - 1))) as [? | _]; [lia |].
  replace (- (E - (53 - 1))) with j by (unfold j; lia). fold J.
  set (c := Qceiling (Qmake m (Z.to_pos J))).
  assert (Hc : m <= c * J).
  { unfold c, Qceiling, Qfloor, Qopp. simpl. rewrite Z2Pos.id by lia.
    pose proof (Z.div_mod (- m) J ltac:(lia)) as Hdm.
    pose proof (Z.mod_pos_bound (- m) J HJ) as Hr.
    set (q := (- m) / J) in *. set (r := (- m) mod J) in *. nia. }
  nia.
Qed.

End DoubleFacts.

(** ** Where rounding overflows *)

Section OverflowFacts.

Import Double.

Lemma nearest_even_tie (p d c : Z) :
  0 < d -> 2 * p = (2 * c + 1) * d -> nearest_even p d = if Z.even c then c else c + 1.
Proof.
  intros Hd Hp. unfold nearest_even.
  pose proof (Z.div_mod p d ltac:(lia)) as Hdm.
  pose proof (Z.mod_pos_bound p d Hd) as Hr.
  set (q := p / d) in *. set (r := p mod d) in *.
  assert (Hq : q = c) by nia. subst q.
  destruct (Z.ltb_spec (2 * r) d); [nia |].
  destruct (Z.ltb_spec d (2 * r)); [nia |]. rewrite Hq. reflexivity.
Qed.

Lemma exponent_below_1 (p d : Z) : 0 < p -> p < d -> exponent p d < 0.
Proof.
  intros Hp Hd. unfold exponent.
  assert (Hlog : Z.log2 p <= Z.log2 d) by (apply Z.log2_le_mono; lia).
  destruct (Z.eq_dec (Z.log2 p - Z.log2 d) 0) as [E | E].
  - rewrite E. unfold shifted. simpl. change (2 ^ 0) with 1.
    destruct (Z.leb_spec (d * 1) p); lia.
  - destruct (shifted p d (Z.log2 p - Z.log2 d)) as [n m]. destruct (m <=? n); lia.
Qed.

(** A fraction rounds to an infinity exactly from the overflow bound on. *)
Lemma round_ratio_overflow (p d : Z) :
  0 < p -> 0 < d ->
  if d * Num.overflow_bound <=? p
  then round_ratio p d = finf false
  else exists q, round_ratio p d = fin q.
Proof.
  intros Hp Hd.
  assert (HB : Num.overflow_bound = (2 ^ 54 - 1) * 2 ^ 970) by reflexivity.
  assert (H1024 : 2 ^ emax = 2 ^ 54 * 2 ^ 970) by reflexivity.
  assert (H970 : 0 < 2 ^ 970) by (apply pow2_pos; lia).
  unfold round_ratio. destruct p as [| pp | pp]; try lia.
  destruct (Z_lt_ge_dec (Z.pos pp) d) as [Hsmall | Hbig].
  - (* below 1 *)
    destruct (Z.leb_spec (d * Num.overflow_bound) (Z.pos pp)) as [H | _]; [nia |].
    pose proof (exponent_below_1 (Z.pos pp) d Hp Hsmall) as He.
    unfold nearest, prec, emin.
    destruct (shifted _ _ _) as [n m].
    destruct (Z.leb_spec 0 (Z.max (exponent (Z.pos pp) d - (53 - 1)) (-1074))); [lia |].
    cbn [andb]. eauto.
  - destruct (exponent_spec (Z.pos pp) d Hd ltac:(lia)) as [He [Hlo Hhi]].
    rewrite nearest_normal by lia.
    set (e := exponent (Z.pos pp) d) in *.
    destruct (Z_lt_ge_dec (e - 52) 0) as [Hk | Hk].
    + (* below 2^52 *)
      destruct (Z.leb_spec (d * Num.overflow_bound) (Z.pos pp)) as [H | _].
      { exfalso. assert (2 ^ (e + 1) <= 2 ^ 52) by (apply Z.pow_le_mono_r; lia).
        assert (2 ^ 52 < 2 ^ 54 - 1) by (vm_compute; reflexivity).
        assert (0 < 2 ^ (e + 1)) by (apply pow2_pos; lia). nia. }
      destruct (shifted _ _ _) as [n m].
      destruct (Z.leb_spec 0 (e - 52)); [lia |]. cbn [andb]. eauto.
    + rewrite shifted_nonneg by lia.
      destruct (Z.leb_spec 0 (e - 52)) as [_ | ?]; [| lia]. cbn [andb].
      pose proof (pow2_pos (e - 52) ltac:(lia)) as HK.
      assert (Hsplit : 2 ^ e = 2 ^ 52 * 2 ^ (e - 52)).
      { rewrite <- Z.pow_add_r by lia. f_equal. lia. }
      rewrite pow2_succ in Hhi by lia.
      set (K := 2 ^ (e - 52)) in *.
      rewrite Hsplit in Hlo, Hhi. clear Hsplit.
      change (2 ^ 54) with 18014398509481984 in *.
      change (2 ^ 52) with 4503599627370496 in *.
      assert (HdK : 0 < d * K) by nia.
      pose proof (nearest_even_bounds (Z.pos pp) (d * K) HdK) as Hm.
      pose proof (nearest_even_le (Z.pos pp) (d * K) 9007199254740992 HdK ltac:(lia)) as Hm53.
      pose proof (nearest_even_ge (Z.pos pp) (d * K) 4503599627370496 HdK ltac:(lia)) as Hm52.
      set (m := nearest_even (Z.pos pp) (d * K)) in *.
      rewrite H1024.
      destruct (Z.compare_spec (e - 52) 971) as [E | E | E].
      * (* the last binade *)
        assert (HK971 : K = 2 * 2 ^ 970) by (unfold K; rewrite E; reflexivity).
        destruct (Z.leb_spec (d * Num.overflow_bound) (Z.pos pp)) as [Hge | Hlt].
        -- assert (Hm' : 2 ^ 53 <= m).
           { destruct (Z.eq_dec (2 * Z.pos pp) ((2 * 9007199254740991 + 1) * (d * K))) as [T | T].
             - unfold m. rewrite (nearest_even_tie _ _ _ HdK T). vm_compute. congruence.
             - nia. }
           change (2 ^ 53) with 9007199254740992 in Hm'.
           destruct (Z.leb_spec (18014398509481984 * 2 ^ 970) (m * K)) as [_ | Hno]; [reflexivity |].
           exfalso. nia.
        -- destruct (Z.leb_spec (18014398509481984 * 2 ^ 970) (m * K)) as [Hover | _]; [| eauto].
           exfalso. nia.
      * (* below it *)
        assert (HK970 : K <= 2 ^ 970).
        { unfold K. apply Z.pow_le_mono_r; lia. }
        destruct (Z.leb_spec (d * Num.overflow_bound) (Z.pos pp)) as [Hge | Hlt].
        { exfalso. nia. }
        destruct (Z.leb_spec (18014398509481984 * 2 ^ 970) (m * K)) as [Hover | _]; [| eauto].
        exfalso. nia.
      * (* beyond it *)
        assert (HK972 : 4 * 2 ^ 970 <= K).
        { change (4 * 2 ^ 970) with (2 ^ 972). unfold K. apply Z.pow_le_mono_r; lia. }
        destruct (Z.leb_spec (d * Num.overflow_bound) (Z.pos pp)) as [_ | Hlt].
        -- destruct (Z.leb_spec (18014398509481984 * 2 ^ 970) (m * K)) as [_ | Hno]; [reflexivity |].
           exfalso. nia.
        -- exfalso. nia.
Qed.

(** [z / 10] on an [int]. *)
Lemma int_truediv_10 (z : Z) :
  Num.int_truediv z 10
  = if 10 * Num.overflow_bound <=? Z.abs z then Raise OverflowError
    else Ok (Num.fdiv10 (Num.of_Z z)).
Proof.
  unfold Num.int_truediv, Num.fdiv10, Num.of_Z. simpl (10 =? 0). cbv iota.
  change 10%Q with (inject_Z 10).
  rewrite round_int_ratio by lia.
  destruct z as [| zp | zp].
  - reflexivity.
  - pose proof (round_ratio_overflow (Z.pos zp) 10 ltac:(lia) ltac:(lia)) as H.
    change (Z.abs (Z.pos zp)) with (Z.pos zp).
    destruct (10 * Num.overflow_bound <=? Z.pos zp).
    + rewrite H. reflexivity.
    + destruct H as [q ->]. reflexivity.
  - pose proof (round_ratio_overflow (Z.pos zp) 10 ltac:(lia) ltac:(lia)) as H.
    change (Z.abs (Z.neg zp)) with (Z.pos zp).
    unfold round_ratio in *. change (- Z.neg zp) with (Z.pos zp).
    destruct (nearest (Z.pos zp) 10) as [m k].
    destruct (10 * Num.overflow_bound <=? Z.pos zp).
    + destruct ((0 <=? k) && _); [reflexivity | discriminate].
    + destruct ((0 <=? k) && _); [destruct H; discriminate | reflexivity].
Qed.

End OverflowFacts.

(** ** Grid dimensions *)

Section GridFacts.

Import PyMath ImageComposite.

Lemma is_ceil_quot_unique (a b r r' : Z) :
  0 < b -> is_ceil_quot a b r -> is_ceil_quot a b r' -> r = r'.
Proof. unfold is_ceil_quot. intros. nia. Qed.

Lemma is_ceil_sqrt_unique (n k k' : Z) :
  is_ceil_sqrt n k -> is_ceil_sqrt n k' -> k = k'.
Proof. unfold is_ceil_sqrt. intros. nia. Qed.

Lemma is_ceil_sqrt_exists (n : Z) : 0 <= n -> exists k, is_ceil_sqrt n k.
Proof.
  intros Hn. unfold is_ceil_sqrt.
  pose proof (Z.sqrt_spec n Hn) as Hs. cbv zeta in Hs.
  pose proof (Z.sqrt_nonneg n) as H0.
  set (r := Z.sqrt n) in *.
  destruct (Z.eq_dec (r * r) n) as [E | E].
  - exists r. repeat split; try lia.
  - exists (r + 1). replace (r + 1 - 1) with r by lia. repeat split; try lia.
Qed.

Lemma calculate_grid_dimensions_small (n : Z) :
  1 <= n <= 9 ->
  calculate_grid_dimensions n default_max_cols
  = Ok (if n <=? 2 then (n, 1) else if n <=? 4 then (2, 2)
        else if n <=? 6 then (3, 2) else (3, 3)).
Proof.
  intros Hn. unfold calculate_grid_dimensions.
  destruct (Z.eqb_spec n 0); [lia |].
  repeat match goal with
         | |- context [?a <=? ?b] => destruct (Z.leb_spec a b); try lia; try reflexivity
         end.
Qed.

Lemma calculate_grid_dimensions_beyond_9 (n : Z) :
  9 < n ->
  calculate_grid_dimensions n default_max_cols
  = (root <- (x <- Num.float_of_int n ;; r <- Num.fsqrt x ;; Num.ceil r) ;;
     let cols := Z.min default_max_cols root in
     rows <- (q <- Num.int_truediv n cols ;; Num.ceil q) ;;
     Ok (cols, rows))%res.
Proof.
  intros Hn. unfold calculate_grid_dimensions.
  repeat match goal with
         | |- context [?a =? ?b] => destruct (Z.eqb_spec a b); [lia |]
         | |- context [?a <=? ?b] => destruct (Z.leb_spec a b); [lia |]
         end.
  reflexivity.
Qed.

(** From 10 to 16 images: four columns. *)
Lemma calculate_grid_dimensions_medium (n : Z) :
  9 < n <= 16 ->
  calculate_grid_dimensions n default_max_cols = Ok (4, if n <=? 12 then 3 else 4).
Proof.
  intros Hn.
  assert (H : n = 10 \/ n = 11 \/ n = 12 \/ n = 13 \/ n = 14 \/ n = 15 \/ n = 16) by lia.
  repeat destruct H as [-> | H]; try subst n; vm_compute; reflexivity.
Qed.

(** From 17 images to [5 * 2^51]: five columns, and the ceiling of a
    fifth of the count for the rows. *)
Lemma calculate_grid_dimensions_large (n : Z) :
  16 < n <= 5 * 2 ^ 51 ->
  exists rows,
    calculate_grid_dimensions n default_max_cols = Ok (5, rows) /\
    is_ceil_quot n 5 rows.
Proof.
  intros Hn. rewrite calculate_grid_dimensions_beyond_9 by lia.
  assert (H54 : 5 * 2 ^ 51 <= 2 ^ 54) by (vm_compute; congruence).
  destruct (float_of_int_from_17 n ltac:(lia)) as (x & -> & Hx). cbn [res_bind].
  destruct (fsqrt_above_4 x Hx) as (y & -> & Hy). cbn [res_bind Num.ceil].
  unfold default_max_cols. rewrite Z.min_l by lia.
  destruct (int_truediv_5_ceiling n ltac:(lia)) as (q & -> & Hq). cbn [res_bind Num.ceil].
  eauto.
Qed.

(** C7, as the code has it.  For a count [n] from 1 to [5 * 2^51] the
    grid is [(n, 1)] up to two images, [(2, 2)] up to four, [(3, 2)] up to
    six, [(3, 3)] up to nine, and beyond that the columns are the smaller
    of five and the ceiling of the square root of [n], the rows the
    ceiling of [n] over the columns; so one image gives [(1, 1)], four
    [(2, 2)], seven [(3, 3)] and twenty [(5, 4)]. *)
Theorem calculate_grid_dimensions_table :
  (forall n : Z, 1 <= n <= 5 * 2 ^ 51 ->
     exists cols rows,
       calculate_grid_dimensions n default_max_cols = Ok (cols, rows) /\
       (n <= 2 -> cols = n /\ rows = 1) /\
       (2 < n <= 4 -> cols = 2 /\ rows = 2) /\
       (4 < n <= 6 -> cols = 3 /\ rows = 2) /\
       (6 < n <= 9 -> cols = 3 /\ rows = 3) /\
       (9 < n ->
          exists k, is_ceil_sqrt n k /\ cols = Z.min 5 k /\
                    is_ceil_quot n cols rows)) /\
  calculate_grid_dimensions 1 default_max_cols = Ok (1, 1) /\
  calculate_grid_dimensions 4 default_max_cols = Ok (2, 2) /\
  calculate_grid_dimensions 7 default_max_cols = Ok (3, 3) /\
  calculate_grid_dimensions 20 default_max_cols = Ok (5, 4).
Proof.
  split; [| repeat split; vm_compute; reflexivity].
  intros n Hn. destruct (Z_le_gt_dec n 9) as [Hs | Hl].
  - rewrite (calculate_grid_dimensions_small n) by lia.
    destruct (Z.leb_spec n 2); [| destruct (Z.leb_spec n 4); [| destruct (Z.leb_spec n 6)]];
      eexists _, _; (split; [reflexivity |]); repeat split; intros; lia.
  - destruct (is_ceil_sqrt_exists n ltac:(lia)) as [k Hk].
    destruct (Z_le_gt_dec n 16) as [Hm | Hb].
    + rewrite (calculate_grid_dimensions_medium n) by lia.
      eexists _, _. split; [reflexivity |].
      repeat split; try (intros; lia).
      intros _. exists k. split; [exact Hk |].
      assert (Hk4 : k = 4) by (unfold is_ceil_sqrt in Hk; nia).
      split; [lia |]. unfold is_ceil_quot.
      destruct (Z.leb_spec n 12); lia.
    + destruct (calculate_grid_dimensions_large n ltac:(lia)) as (rows & -> & Hrows).
      eexists _, _. split; [reflexivity |].
      repeat split; try (intros; lia).
      intros _. exists k. split; [exact Hk |].
      assert (Hk5 : 5 <= k) by (unfold is_ceil_sqrt in Hk; nia).
      split; [lia | exact Hrows].
Qed.

Lemma calculate_grid_dimensions_table_witness :
  1 <= 20 <= 5 * 2 ^ 51 /\
  exists cols rows,
    calculate_grid_dimensions 20 default_max_cols = Ok (cols, rows) /\
    (20 <= 2 -> cols = 20 /\ rows = 1) /\
    (2 < 20 <= 4 -> cols = 2 /\ rows = 2) /\
    (4 < 20 <= 6 -> cols = 3 /\ rows = 2) /\
    (6 < 20 <= 9 -> cols = 3 /\ rows = 3) /\
    (9 < 20 ->
       exists k, is_ceil_sqrt 20 k /\ cols = Z.min 5 k /\
                 is_ceil_quot 20 cols rows).
Proof.
  assert (H : 1 <= 20 <= 5 * 2 ^ 51) by (split; [lia | vm_compute; congruence]).
  split; [exact H |].
  apply (proj1 calculate_grid_dimensions_table 20 H).
Defined.

(** C7, as the specification states it, at [5 * 2^51 + 1] images: a fifth
    of the count is [2^51 + 1/5], the nearest double is [2^51], and the
    rows are one short of the ceiling. *)
Lemma calculate_grid_dimensions_rounds_down :
  1 <= 5 * 2 ^ 51 + 1 /\
  calculate_grid_dimensions (5 * 2 ^ 51 + 1) default_max_cols = Ok (5, 2 ^ 51) /\
  ~ is_ceil_quot (5 * 2 ^ 51 + 1) 5 (2 ^ 51).
Proof.
  split; [vm_compute; congruence | split; [vm_compute; reflexivity |]].
  unfold is_ceil_quot. intros [_ H]. vm_compute in H. congruence.
Qed.

End GridFacts.

(** ** Placement of the images in the grid *)

Section PlacementFacts.

Import PIL ImageComposite GridSpec.

Lemma calculate_grid_dimensions_capacity (n : Z) :
  1 <= n <= 5 * 2 ^ 51 ->
  exists cols rows,
    calculate_grid_dimensions n default_max_cols = Ok (cols, rows) /\
    0 < cols /\ n <= cols * rows.
Proof.
  intros Hn. destruct (Z_le_gt_dec n 9) as [Hs | Hl].
  - rewrite (calculate_grid_dimensions_small n) by lia.
    destruct (Z.leb_spec n 2); [| destruct (Z.leb_spec n 4); [| destruct (Z.leb_spec n 6)]];
      eexists _, _; (split; [reflexivity |]); lia.
  - destruct (Z_le_gt_dec n 16) as [Hm | Hb].
    + rewrite (calculate_grid_dimensions_medium n) by lia.
      eexists _, _. split; [reflexivity |]. destruct (Z.leb_spec n 12); lia.
    + destruct (calculate_grid_dimensions_large n ltac:(lia)) as (rows & -> & Hrows).
      eexists _, _. split; [reflexivity |]. unfold PyMath.is_ceil_quot in Hrows. lia.
Qed.

Lemma resize_placed (img resized : Image) (w h : Z) :
  resize img w h = Ok resized -> resized = Resized img w h.
Proof.
  unfold resize. destruct (_ && _); [congruence |]. destruct (_ || _); congruence.
Qed.

(** One turn of the loop of [create_grid_image], away from the end of
    the grid. *)
Lemma paste_images_step (cols rows cw ch pad : Z) (canvas : Image) (idx : Z) (img : Image)
    (rest : list Image) :
  0 < cols -> idx < cols * rows ->
  paste_images cols rows cw ch pad canvas idx (img :: rest)
  = (size <- fit img cw ch ;;
     let '(w, h) := size in
     resized <- resize img w h ;;
     let resized :=
       if String.eqb (mode resized) "RGB" then resized else Converted resized "RGB" in
     paste_images cols rows cw ch pad
       (Pasted canvas resized (cell_x cols cw pad idx w) (cell_y cols ch pad idx h))
       (idx + 1) rest)%res.
Proof.
  intros Hcols Hidx. cbn [paste_images].
  destruct (Z.leb_spec (cols * rows) idx); [lia |].
  unfold PyMath.floordiv, PyMath.modulo.
  destruct (Z.eqb_spec cols 0); [lia |]. cbn [res_bind].
  destruct (fit img cw ch) as [[w h] |]; reflexivity.
Qed.

Lemma paste_images_in_order (cols rows cw ch pad : Z) (images : list Image) :
  forall (canvas : Image) (idx : Z) (canvas' : Image),
    paste_images cols rows cw ch pad canvas idx images = Ok canvas' ->
    0 < cols -> idx + Z.of_nat (length images) <= cols * rows ->
    exists ps, pastes canvas' = (pastes canvas ++ ps)%list /\
               placed_in_order cols cw ch pad idx images ps.
Proof.
  induction images as [| img rest IH]; intros canvas idx canvas' Hrun Hcols Hcap.
  - simpl in Hrun. injection Hrun as <-. exists []. split; [by rewrite app_nil_r | exact I].
  - rewrite length_cons in Hcap. rewrite paste_images_step in Hrun by lia.
    destruct (fit img cw ch) as [[w h] | e] eqn:Hfit; cbn [res_bind] in Hrun; [| discriminate].
    destruct (resize img w h) as [resized | e] eqn:Hres; cbn [res_bind] in Hrun;
      [| discriminate].
    apply resize_placed in Hres. subst resized.
    apply IH in Hrun; [| lia | lia].
    destruct Hrun as (ps & Hps & Hord).
    eexists (_ :: ps). split.
    + rewrite Hps. simpl. rewrite <- app_assoc. reflexivity.
    + simpl. split; [| exact Hord].
      exists w, h. split; [| split; reflexivity].
      unfold placed_from. simpl. destruct (String.eqb _ _); auto.
Qed.

Lemma placed_in_order_lookup (cols cw ch pad : Z) (images : list Image) :
  forall (idx : Z) (ps : list (Image * (Z * Z))),
    placed_in_order cols cw ch pad idx images ps ->
    length ps = length images /\
    forall (i : nat) (img : Image),
      images !! i = Some img ->
      exists w h placed,
        ps !! i = Some (placed, (cell_x cols cw pad (idx + Z.of_nat i) w,
                                 cell_y cols ch pad (idx + Z.of_nat i) h)) /\
        placed_from img w h placed.
Proof.
  induction images as [| img rest IH]; intros idx ps Hord.
  - destruct ps; [| contradiction]. split; [reflexivity |]. intros i x Hx. discriminate.
  - destruct ps as [| [placed [x y]] ps']; [contradiction |].
    destruct Hord as [(w & h & Hfrom & -> & ->) Hrest].
    destruct (IH _ _ Hrest) as [Hlen Hat]. split; [simpl; congruence |].
    intros [| i] im Him.
    + injection Him as <-. exists w, h, placed.
      replace (idx + Z.of_nat 0) with idx by lia. auto.
    + apply Hat in Him. destruct Him as (w' & h' & placed' & Hl & Hf).
      exists w', h', placed'. split; [| exact Hf].
      replace (idx + Z.of_nat (S i)) with (idx + 1 + Z.of_nat i) by lia. exact Hl.
Qed.

(** With room for every image, the loop returns exactly when every image
    can be fitted and resized. *)
Lemma paste_images_returns (cols rows cw ch pad : Z) (images : list Image) :
  0 < cols ->
  forall (canvas : Image) (idx : Z),
    idx + Z.of_nat (length images) <= cols * rows ->
    is_Ok (paste_images cols rows cw ch pad canvas idx images)
    <-> Forall (resizable cw ch) images.
Proof.
  intros Hcols. induction images as [| img rest IH]; intros canvas idx Hcap.
  - split; [constructor | intros _; eexists; reflexivity].
  - rewrite length_cons in Hcap. rewrite paste_images_step by lia.
    rewrite Forall_cons. unfold resizable at 1.
    destruct (fit img cw ch) as [[w h] | e] eqn:Hfit; cbn [res_bind].
    + destruct (resize img w h) as [resized | e] eqn:Hres; cbn [res_bind].
      * rewrite IH by lia. split; [| tauto]. intros H. split; [eauto 6 | exact H].
      * split; [intros [? ?]; discriminate |].
        intros [(w' & h' & r & [= <- <-] & Hr) _]. congruence.
    + split; [intros [? ?]; discriminate |].
      intros [(w' & h' & r & ? & _) _]. discriminate.
Qed.

(** C10, as the code has it.  For every count [n] from 1 to [5 * 2^51]
    the grid has room for [n] images, so the loop that fills the grid
    never leaves early: when [create_grid_image] returns, every image
    has been pasted, in the order of the list, into the cell of its
    index.  With a cell of positive size and a padding that is not
    negative it returns exactly when every image can be fitted and
    resized, and raises otherwise. *)
Theorem grid_holds_every_image :
  (forall n : Z, 1 <= n <= 5 * 2 ^ 51 ->
     exists cols rows,
       calculate_grid_dimensions n default_max_cols = Ok (cols, rows) /\
       n <= cols * rows) /\
  (forall (images : list Image) (cw ch pad : Z) (bg : Z * Z * Z) (canvas : Image),
     images <> [] ->
     Z.of_nat (length images) <= 5 * 2 ^ 51 ->
     create_grid_image images cw ch pad bg = Ok canvas ->
     exists cols rows,
       calculate_grid_dimensions (Z.of_nat (length images)) default_max_cols
       = Ok (cols, rows) /\
       length (pastes canvas) = length images /\
       forall (i : nat) (img : Image),
         images !! i = Some img ->
         exists w h placed,
           pastes canvas !! i
           = Some (placed, (cell_x cols cw pad (Z.of_nat i) w,
                            cell_y cols ch pad (Z.of_nat i) h)) /\
           placed_from img w h placed) /\
  (forall (images : list Image) (cw ch pad : Z) (bg : Z * Z * Z),
     0 < cw -> 0 < ch -> 0 <= pad ->
     Z.of_nat (length images) <= 5 * 2 ^ 51 ->
     is_Ok (create_grid_image images cw ch pad bg) <-> Forall (resizable cw ch) images).
Proof.
  split; [| split].
  - intros n Hn. destruct (calculate_grid_dimensions_capacity n Hn) as (c & r & E & _ & H).
    eauto.
  - intros images cw ch pad bg canvas Hne Hlen Hrun.
    destruct images as [| img0 rest]; [congruence |].
    unfold create_grid_image in Hrun.
    destruct (calculate_grid_dimensions_capacity (Z.of_nat (length (img0 :: rest))))
      as (cols & rows & E & Hcols & Hcap); [rewrite length_cons in *; lia |].
    rewrite E in Hrun. cbn [res_bind] in Hrun.
    apply paste_images_in_order in Hrun; [| lia | lia].
    destruct Hrun as (ps & Hps & Hord). simpl in Hps. subst ps.
    destruct (placed_in_order_lookup _ _ _ _ _ _ _ Hord) as [Hlen' Hat].
    exists cols, rows. split; [exact E |]. split; [exact Hlen' |].
    intros i img Hi. destruct (Hat i img Hi) as (w & h & placed & Hl & Hf).
    exists w, h, placed. split; [| exact Hf]. rewrite Z.add_0_l in Hl. exact Hl.
  - intros images cw ch pad bg _ _ _ Hlen.
    destruct images as [| img0 rest].
    { split; [constructor | intros _; eexists; reflexivity]. }
    unfold create_grid_image.
    destruct (calculate_grid_dimensions_capacity (Z.of_nat (length (img0 :: rest))))
      as (cols & rows & E & Hcols & Hcap); [rewrite length_cons in *; lia |].
    rewrite E. cbn [res_bind]. apply paste_images_returns; [exact Hcols | lia].
Qed.

(** The fitted size follows the floats of the code: the ratio
    [1100 / 1500] is rounded, and its product with 300 falls just below
    220. *)
Lemma fit_rounds_down :
  fit (Opened 1100 1500 "RGB" "a") 400 300 = Ok (219, 300) /\
  300 * 1100 / 1500 = 220.
Proof. split; vm_compute; reflexivity. Qed.

Lemma grid_holds_every_image_witness :
  (1 <= 7 <= 5 * 2 ^ 51 /\
   exists cols rows,
     calculate_grid_dimensions 7 default_max_cols = Ok (cols, rows) /\ 7 <= cols * rows) /\
  exists canvas,
    create_grid_image
      [Opened 800 600 "RGB" "a"; Opened 100 600 "L" "b"; Opened 1000 100 "RGB" "c"]
      400 300 2 (255, 255, 255) = Ok canvas /\
    length (pastes canvas) = 3%nat.
Proof.
  assert (H7 : 1 <= 7 <= 5 * 2 ^ 51) by (split; [lia | vm_compute; congruence]).
  split.
  - split; [exact H7 | apply (proj1 grid_holds_every_image 7 H7)].
  - set (images := [Opened 800 600 "RGB" "a"; Opened 100 600 "L" "b";
                    Opened 1000 100 "RGB" "c"]).
    assert (Hlen : Z.of_nat (length images) <= 5 * 2 ^ 51) by (vm_compute; congruence).
    assert (Hall : Forall (resizable 400 300) images).
    { repeat constructor; eexists _, _, _; split; vm_compute; reflexivity. }
    destruct (proj2 (proj2 (proj2 grid_holds_every_image) images 400 300 2 (255, 255, 255)
                      ltac:(lia) ltac:(lia) ltac:(lia) Hlen) Hall) as [canvas E].
    exists canvas. split; [exact E |].
    assert (Hne : images <> []) by discriminate.
    destruct (proj1 (proj2 grid_holds_every_image) images 400 300 2 (255, 255, 255)
                canvas Hne Hlen E) as (cols & rows & _ & Hpastes & _).
    exact Hpastes.
Defined.

(** C10, as the claim states it: beyond [5 * 2^51] images the grid is
    too small, and an image that is fetched but cannot be resized, such
    as one of 1000 by 1 in a cell of 400 by 300, whose fitted height is 0,
    is not placed: composing the grid raises. *)
Lemma grid_misses_an_image :
  (1 <= 5 * 2 ^ 51 + 1 /\
   exists cols rows,
     calculate_grid_dimensions (5 * 2 ^ 51 + 1) default_max_cols = Ok (cols, rows) /\
     cols * rows < 5 * 2 ^ 51 + 1) /\
  fit (Opened 1000 1 "RGB" "a") 400 300 = Ok (400, 0) /\
  create_grid_image [Opened 1000 1 "RGB" "a"] 400 300 2 (255, 255, 255) = Raise ValueError.
Proof.
  split; [split; [vm_compute; congruence |] | split; vm_compute; reflexivity].
  exists 5, (2 ^ 51). split; vm_compute; reflexivity.
Qed.

End PlacementFacts.

(** ** Address normalization *)

Section NormalizeFacts.

Import JsonStore.

Lemma normalize_address_main_street :
  normalize_address "123 Main St." = "123 main street" /\
  normalize_address "123 MAIN STREET" = "123 main street".
Proof. split; vm_compute; reflexivity. Qed.

Lemma normalize_address_oak_avenue :
  normalize_address "456 Oak Ave" = "456 oak avenue" /\
  normalize_address "456 oak avenue" = "456 oak avenue".
Proof. split; vm_compute; reflexivity. Qed.

(** C5, at the input ["1 st st x"]. Two abbreviations in a row share the
    space between them, and [str.replace] expands only the first: the
    normal form still holds an abbreviation, and normalizing it again
    gives another string.  The two spellings of the specification's own
    example do agree. *)
Theorem normalize_address_not_idempotent :
  normalize_address "1 st st x" = "1 street st x" /\
  normalize_address (normalize_address "1 st st x") = "1 street street x" /\
  normalize_address (normalize_address "1 st st x") <> normalize_address "1 st st x" /\
  normalize_address "1 St St X" <> normalize_address "1 Street Street X" /\
  normalize_address "123 Main St." = normalize_address "123 MAIN STREET".
Proof.
  repeat split; try (vm_compute; reflexivity); vm_compute; discriminate.
Qed.

End NormalizeFacts.

(** ** Comparisons of floats *)

Section NumFacts.

Import Num.

Lemma Qltb_lt (p q : Q) : Qltb p q = true <-> (p < q)%Q.
Proof.
  unfold Qltb. rewrite negb_true_iff. split.
  - intros H. apply Qnot_le_lt. intros Hle. apply Qle_bool_iff in Hle. congruence.
  - intros H. destruct (Qle_bool q p) eqn:E; [| reflexivity].
    apply Qle_bool_iff in E. exfalso. exact (Qlt_not_le _ _ H E).
Qed.

Lemma Qltb_false (p q : Q) : Qltb p q = false <-> (q <= p)%Q.
Proof.
  unfold Qltb. rewrite negb_false_iff. apply Qle_bool_iff.
Qed.

Lemma flt_fle (a b : pyfloat) : flt a b = true -> fle a b = true.
Proof.
  destruct a as [| n1 | p], b as [| n2 | q]; simpl; try congruence.
  - destruct n1, n2; simpl; congruence.
  - intros H. apply Qltb_lt in H. apply Qle_bool_iff. apply Qlt_le_weak. exact H.
Qed.

Lemma flt_false_fle (a b : pyfloat) :
  flt a b = false -> a <> fnan -> b <> fnan -> fle b a = true.
Proof.
  destruct a as [| n1 | p], b as [| n2 | q]; simpl; try congruence.
  - destruct n1, n2; simpl; congruence.
  - destruct n1; simpl; congruence.
  - destruct n2; simpl; congruence.
  - intros H _ _. apply Qltb_false in H. apply Qle_bool_iff. exact H.
Qed.

Lemma fle_flt_false (a b : pyfloat) : fle a b = true -> flt b a = false.
Proof.
  destruct a as [| n1 | p], b as [| n2 | q]; simpl; try congruence.
  - destruct n1, n2; simpl; congruence.
  - destruct n1; simpl; congruence.
  - destruct n2; simpl; congruence.
  - intros H. apply Qltb_false. apply Qle_bool_iff. exact H.
Qed.

Lemma fle_antisym (a b : pyfloat) :
  fle a b = true -> fle b a = true -> ClampSpec.same a b.
Proof.
  destruct a as [| n1 | p], b as [| n2 | q]; simpl; try congruence.
  - destruct n1, n2; simpl; congruence.
  - destruct n1; simpl; congruence.
  - destruct n2; simpl; congruence.
  - intros H1 H2. apply Qle_bool_iff in H1, H2. apply Qle_antisym; assumption.
Qed.

Lemma same_refl (a : pyfloat) : ClampSpec.same a a.
Proof. destruct a; simpl; auto. reflexivity. Qed.

Lemma flt_of_Z (a b : Z) : a < b -> flt (of_Z a) (of_Z b) = true.
Proof. intros H. simpl. apply Qltb_lt. rewrite <- Zlt_Qlt. exact H. Qed.

Lemma fle_of_Z (a b : Z) : a <= b -> fle (of_Z a) (of_Z b) = true.
Proof. intros H. simpl. apply Qle_bool_iff. rewrite <- Zle_Qle. exact H. Qed.

Lemma flt_trans (a b c : pyfloat) : flt a b = true -> flt b c = true -> flt a c = true.
Proof.
  destruct a as [| [] | p], b as [| [] | q], c as [| [] | r]; simpl; try congruence.
  rewrite !Qltb_lt. apply Qlt_trans.
Qed.

(** [min(hi, max(lo, o))] as the two agents write it. *)
Lemma clamp_edges (lo hi : Z) (o v : pyobj) :
  lo < hi ->
  (lower <- max2 (PyFloat (of_Z lo)) o ;; min2 (PyFloat (of_Z hi)) lower)%res = Ok v ->
  exists x f,
    value o = Some x /\ value v = Some f /\ in_range lo hi f = true /\
    (flt x (of_Z lo) = true -> ClampSpec.same f (of_Z lo)) /\
    (fle (of_Z lo) x = true -> fle x (of_Z hi) = true -> ClampSpec.same f x) /\
    (flt (of_Z hi) x = true -> ClampSpec.same f (of_Z hi)).
Proof.
  intros Hlh. unfold max2, min2, gt, lt, in_range. cbn [value].
  pose proof (flt_of_Z lo hi Hlh) as Hlt.
  pose proof (fle_of_Z lo hi ltac:(lia)) as Hlohi.
  pose proof (fle_of_Z lo lo ltac:(lia)) as Hll.
  pose proof (fle_of_Z hi hi ltac:(lia)) as Hhh.
  destruct (value o) as [x |] eqn:Hx; cbn [res_bind]; [| discriminate].
  destruct (flt (of_Z lo) x) eqn:Hlo; cbn [res_bind]; rewrite ?Hx; cbn [value].
  - (* above the lower edge *)
    destruct (flt x (of_Z hi)) eqn:Hhi; intros [= <-]; exists x; eexists;
      (split; [reflexivity |]); rewrite ?Hx; cbn [value]; (split; [reflexivity |]).
    + rewrite (flt_fle _ _ Hlo), (flt_fle _ _ Hhi). split; [reflexivity |].
      split; [| split]; intros; try apply same_refl.
      * pose proof (fle_flt_false _ _ (flt_fle _ _ Hlo)). congruence.
      * pose proof (fle_flt_false _ _ (flt_fle _ _ Hhi)). congruence.
    + rewrite Hlohi, Hhh. split; [reflexivity |].
      assert (Hxn : x <> fnan) by (intros ->; discriminate).
      pose proof (flt_false_fle _ _ Hhi Hxn ltac:(discriminate)) as Hge.
      split; [| split]; intros; try apply same_refl.
      * pose proof (fle_flt_false _ _ (flt_fle _ _ Hlo)). congruence.
      * apply fle_antisym; assumption.
  - (* at or below the lower edge, or not a number *)
    rewrite Hlt. intros [= <-]. exists x; eexists.
    split; [reflexivity |]. cbn [value]. split; [reflexivity |].
    rewrite Hll, Hlohi. split; [reflexivity |].
    split; [| split]; intros; try apply same_refl.
    + apply fle_antisym; [assumption |].
      apply flt_false_fle; [assumption | discriminate | intros ->; discriminate].
    + pose proof (flt_trans _ _ _ Hlt H). congruence.
Qed.

End NumFacts.

(** ** The clamp of the primary-scoring extractor *)

Section ClampFacts.

Import Num BaseAgent PresentFitAgent ClampSpec.

(** Rounding keeps the sign. *)
Lemma round_nonneg (q : Q) : (0 <= q)%Q -> fle (of_Z 0) (Double.round q) = true.
Proof.
  intros Hq. unfold Double.round, Double.round_ratio.
  assert (Hn : 0 <= Qnum q) by (unfold Qle in Hq; simpl in Hq; lia).
  destruct (Qnum q) as [| p | p]; [reflexivity | | lia].
  unfold Double.nearest.
  set (k := Z.max _ _). clearbody k.
  assert (Hm : forall n m, Double.shifted (Z.pos p) (Z.pos (Qden q)) k = (n, m) ->
                           0 <= Double.nearest_even n m).
  { intros n m. unfold Double.shifted.
    destruct (Z.leb_spec 0 k) as [Hk | Hk]; intros [= <- <-].
    - apply nearest_even_ge; [pose proof (pow2_pos k Hk); lia | lia].
    - apply nearest_even_ge; [lia |]. pose proof (pow2_pos (- k) ltac:(lia)). lia. }
  destruct (Double.shifted _ _ k) as [n m]. specialize (Hm n m eq_refl).
  destruct ((0 <=? k) && _); [reflexivity |].
  unfold Double.value, of_Z, fle. apply Qle_bool_iff.
  destruct (Z.leb_spec 0 k) as [Hk | Hk].
  - rewrite <- Zle_Qle. pose proof (pow2_pos k Hk). nia.
  - unfold Qle. simpl. lia.
Qed.

Lemma fdiv10_above (x : pyfloat) :
  flt (of_Z 10) x = true -> fle (of_Z 0) (fdiv10 x) = true.
Proof.
  destruct x as [| [] | q]; simpl; try congruence.
  intros H10. apply Qltb_lt in H10. apply (round_nonneg (q / 10)).
  apply Qle_shift_div_l; [reflexivity |].
  rewrite Qmult_0_l. apply Qlt_le_weak. eapply Qlt_trans; [| exact H10]. reflexivity.
Qed.

Lemma div10_value (raw d : pyobj) (x : pyfloat) :
  div10 raw = Ok d -> value raw = Some x -> value d = Some (fdiv10 x).
Proof.
  unfold div10. destruct raw as [| b | z | f | | |]; try discriminate.
  - intros Hd [= <-]. destruct b; vm_compute in Hd; injection Hd as <-;
      vm_compute; reflexivity.
  - rewrite int_truediv_10.
    destruct (10 * overflow_bound <=? Z.abs z); [discriminate |].
    cbn [res_bind]. intros [= <-] [= <-]. reflexivity.
  - intros [= <-] [= <-]. reflexivity.
Qed.

Lemma overflow_bound_above_1 : 1 < overflow_bound.
Proof. reflexivity. Qed.

(** The tenth of a number above 10 that is not too large. *)
Lemma div10_returns (raw : pyobj) (x : pyfloat) :
  value raw = Some x -> fle x (of_Z 10) = false -> too_large raw = false ->
  is_Ok (div10 raw).
Proof.
  unfold div10, too_large. destruct raw as [| b | z | f | | |]; try discriminate.
  - intros _ _ _. destruct b; vm_compute; eexists; reflexivity.
  - intros [= <-] Hz Hsmall. rewrite int_truediv_10.
    destruct (Z.leb_spec (10 * overflow_bound) z) as [| Hlt]; [discriminate |].
    destruct (Z_le_gt_dec z 10) as [Hle | Hgt].
    { rewrite (fle_of_Z _ _ Hle) in Hz. discriminate. }
    destruct (Z.leb_spec (10 * overflow_bound) (Z.abs z)) as [Hge |]; [lia |].
    eexists; reflexivity.
  - intros _ _ _. eexists; reflexivity.
Qed.

(** The tenth of an [int] that is too large. *)
Lemma div10_overflows (raw : pyobj) :
  too_large raw = true ->
  le raw (PyInt 10) = Ok false /\ div10 raw = Raise OverflowError.
Proof.
  unfold too_large. destruct raw as [| b | z | f | | |]; try discriminate.
  intros Hz. apply Z.leb_le in Hz. pose proof overflow_bound_above_1 as H1. split.
  - unfold le. cbn [value]. f_equal.
    destruct (fle (of_Z z) (of_Z 10)) eqn:Hle; [| reflexivity].
    apply fle_flt_false in Hle. rewrite flt_of_Z in Hle by lia. discriminate.
  - unfold div10. rewrite int_truediv_10.
    destruct (Z.leb_spec (10 * overflow_bound) (Z.abs z)); [reflexivity | lia].
Qed.

Lemma clamp_score_clamps (raw v : pyobj) :
  clamp_score raw = Ok v ->
  exists x f, value raw = Some x /\ value v = Some f /\ clamped_score x f.
Proof.
  unfold clamp_score, le. cbn [value].
  destruct (value raw) as [x |] eqn:Hx; cbn [res_bind]; [| discriminate].
  change (PyFloat (fin 0)) with (PyFloat (of_Z 0)).
  change (PyFloat (fin 10)) with (PyFloat (of_Z 10)).
  destruct (fle x (of_Z 10)) eqn:Hsmall; cbn [res_bind].
  - intros Hrun. apply clamp_edges in Hrun; [| lia].
    destruct Hrun as (x' & f & Hx' & Hf & Hin & Hneg & Hmid & Htop).
    rewrite Hx in Hx'. injection Hx' as <-.
    exists x, f. split; [reflexivity |]. split; [exact Hf |].
    split; [exact Hin |]. split.
    + intros _. split; [exact Hneg | intros H0; apply Hmid; assumption].
    + intros Hgt. pose proof (fle_flt_false _ _ Hsmall). congruence.
  - destruct (div10 raw) as [d | e] eqn:Hd; cbn [res_bind]; [| discriminate].
    intros Hrun. apply clamp_edges in Hrun; [| lia].
    destruct Hrun as (y & f & Hy & Hf & Hin & Hneg & Hmid & Htop).
    rewrite (div10_value _ _ _ Hd Hx) in Hy. injection Hy as <-.
    exists x, f. split; [reflexivity |]. split; [exact Hf |].
    split; [exact Hin |]. split.
    + intros Hle. congruence.
    + intros Hgt. split; [| exact Htop].
      intros Hle. apply Hmid; [apply fdiv10_above; exact Hgt | exact Hle].
Qed.

Lemma clamp_weight_clamps (raw v : pyobj) :
  clamp_weight raw = Ok v ->
  exists y g, value raw = Some y /\ value v = Some g /\ clamped_weight y g.
Proof.
  unfold clamp_weight.
  change (PyFloat (fin 0)) with (PyFloat (of_Z 0)).
  change (PyFloat (fin 1)) with (PyFloat (of_Z 1)).
  intros Hrun. apply clamp_edges in Hrun; [| lia].
  destruct Hrun as (x & f & Hx & Hf & Hin & H1 & H2 & H3). exists x, f.
  unfold clamped_weight, within. auto 10.
Qed.

(** [min(hi, max(lo, o))] returns on every number. *)
Lemma clamp_edges_returns (lo hi o : pyobj) (a b y : pyfloat) :
  value lo = Some a -> value hi = Some b -> value o = Some y ->
  is_Ok (lower <- max2 lo o ;; min2 hi lower)%res.
Proof.
  intros Ha Hb Hy. unfold max2, min2, gt, lt. rewrite Ha, Hy.
  destruct (flt a y); cbn [res_bind]; rewrite ?Ha, ?Hb, ?Hy;
    match goal with |- context [flt ?u ?v] => destruct (flt u v) end;
    eexists; reflexivity.
Qed.

Lemma clamp_weight_returns (raw : pyobj) (y : pyfloat) :
  value raw = Some y -> is_Ok (clamp_weight raw).
Proof.
  intros Hy. unfold clamp_weight.
  exact (clamp_edges_returns (PyFloat (fin 0)) (PyFloat (fin 1)) raw _ _ y eq_refl eq_refl Hy).
Qed.

Lemma clamp_score_returns (raw : pyobj) (x : pyfloat) :
  value raw = Some x -> too_large raw = false -> is_Ok (clamp_score raw).
Proof.
  intros Hx Hsize. unfold clamp_score, le. cbn [value]. rewrite Hx. cbn [res_bind].
  destruct (fle x (of_Z 10)) eqn:Hsmall; cbn [res_bind].
  - exact (clamp_edges_returns (PyFloat (fin 0)) (PyFloat (fin 10)) raw _ _ x eq_refl eq_refl Hx).
  - destruct (div10_returns raw x Hx Hsmall Hsize) as [d Hd]. rewrite Hd. cbn [res_bind].
    exact (clamp_edges_returns (PyFloat (fin 0)) (PyFloat (fin 10)) d _ _ _ eq_refl eq_refl
             (div10_value _ _ _ Hd Hx)).
Qed.

Lemma clamp_score_overflows (raw : pyobj) :
  too_large raw = true -> clamp_score raw = Raise OverflowError.
Proof.
  intros Hsize. destruct (div10_overflows raw Hsize) as [Hle Hdiv].
  unfold clamp_score. rewrite Hle. cbn [res_bind]. rewrite Hdiv. reflexivity.
Qed.

Lemma float_field_of_number (lax : Pydantic.lax_mode) (lo hi : Z) (v : pyobj) (f g : pyfloat) :
  value v = Some f -> Pydantic.float_field lax lo hi v = Ok g ->
  g = f /\ within lo hi g.
Proof.
  intros Hv. unfold Pydantic.float_field.
  destruct v; try discriminate; rewrite Hv;
    (destruct (in_range lo hi f) eqn:Hin; [| discriminate]);
    intros [= <-]; split; auto.
Qed.

(** A number within the bounds of a field is accepted as it is. *)
Lemma float_field_accepts (lax : Pydantic.lax_mode) (lo hi : Z) (v : pyobj) (f : pyfloat) :
  value v = Some f -> within lo hi f -> Pydantic.float_field lax lo hi v = Ok f.
Proof.
  intros Hv Hin. unfold Pydantic.float_field, within in *.
  destruct v; try discriminate; rewrite Hv, Hin; reflexivity.
Qed.

Lemma dimension_score_clamps (lax : Pydantic.lax_mode) (ds : pyobj) (d : DimensionScore.t) :
  dimension_score lax ds = Ok d -> entry_clamped ds d.
Proof.
  unfold dimension_score, entry_clamped.
  destruct (Dict.get ds "score" _) as [raw_score |] eqn:Hs; cbn [res_bind]; [| discriminate].
  destruct (clamp_score raw_score) as [v |] eqn:Hc; cbn [res_bind]; [| discriminate].
  destruct (Dict.get ds "dimension" _) as [dimension |]; cbn [res_bind]; [| discriminate].
  destruct (Dict.get ds "weight" _) as [raw_weight |] eqn:Hw; cbn [res_bind]; [| discriminate].
  destruct (clamp_weight raw_weight) as [u |] eqn:Hcw; cbn [res_bind]; [| discriminate].
  destruct (Dict.get ds "notes" _) as [notes |]; cbn [res_bind]; [| discriminate].
  apply clamp_score_clamps in Hc. destruct Hc as (x & f & Hx & Hf & Hcl).
  apply clamp_weight_clamps in Hcw. destruct Hcw as (y & g & Hy & Hg & Hin).
  unfold DimensionScore.make.
  destruct (Pydantic.str_field dimension); cbn [res_bind]; [| discriminate].
  destruct (Pydantic.float_field lax 0 10 v) as [f' |] eqn:Hf'; cbn [res_bind]; [| discriminate].
  destruct (Pydantic.float_field lax 0 1 u) as [g' |] eqn:Hg'; cbn [res_bind]; [| discriminate].
  destruct (Pydantic.str_field notes); cbn [res_bind]; [| discriminate].
  intros [= <-]. cbn.
  destruct (float_field_of_number _ _ _ _ _ _ Hf Hf') as [-> _].
  destruct (float_field_of_number _ _ _ _ _ _ Hg Hg') as [-> _].
  exists raw_score, raw_weight, x, y. auto 10.
Qed.

(** An entry whose score and weight are numbers and whose name and notes
    are strings is not refused. *)
Lemma dimension_score_returns (lax : Pydantic.lax_mode) (ds raw_score raw_weight : pyobj)
    (x y : pyfloat) (dimension notes : string) :
  Dict.get ds "score" (PyFloat (fin 5)) = Ok raw_score ->
  value raw_score = Some x -> too_large raw_score = false ->
  Dict.get ds "weight" (PyFloat (Double.round 0.1)) = Ok raw_weight ->
  value raw_weight = Some y ->
  Dict.get ds "dimension" (PyStr "") = Ok (PyStr dimension) ->
  Dict.get ds "notes" (PyStr "") = Ok (PyStr notes) ->
  is_Ok (dimension_score lax ds).
Proof.
  intros Hs Hx Hsize Hw Hy Hd Hn. unfold dimension_score.
  rewrite Hs, Hd, Hw, Hn. cbn [res_bind].
  destruct (clamp_score_returns _ _ Hx Hsize) as [v Hv].
  destruct (clamp_weight_returns _ _ Hy) as [u Hu].
  rewrite Hv, Hu. cbn [res_bind].
  destruct (clamp_score_clamps _ _ Hv) as (x' & f & _ & Hf & [Hfin _]).
  destruct (clamp_weight_clamps _ _ Hu) as (y' & g & _ & Hg & [Hgin _]).
  unfold DimensionScore.make. cbn [Pydantic.str_field res_bind].
  rewrite (float_field_accepts _ _ _ _ _ Hf Hfin), (float_field_accepts _ _ _ _ _ Hg Hgin).
  cbn [res_bind]. eexists; reflexivity.
Qed.

Lemma for_each_Forall2 {A B} (f : A -> res B) (items : list A) :
  forall out, for_each f items = Ok out -> Forall2 (fun a b => f a = Ok b) items out.
Proof.
  induction items as [| a rest IH]; intros out; simpl.
  - intros [= <-]. constructor.
  - destruct (f a) as [b |] eqn:Hb; cbn [res_bind]; [| discriminate].
    destruct (for_each f rest) as [bs |]; cbn [res_bind]; [| discriminate].
    intros [= <-]. constructor; eauto.
Qed.

Lemma parse_body_dimension_scores (lax : Pydantic.lax_mode) (response : string)
    (p : PresentFitScore.t) :
  parse_body lax response = Ok p ->
  exists data entries items,
    Json.loads response = Ok data /\
    Dict.get data "dimension_scores" (PyList []) = Ok entries /\
    Dict.iter entries = Ok items /\
    for_each (dimension_score lax) items = Ok (PresentFitScore.dimension_scores p).
Proof.
  unfold parse_body.
  destruct (Json.loads response) as [data |]; cbn [res_bind]; [| discriminate].
  destruct (Dict.get data "dimension_scores" _) as [entries |] eqn:Hentries;
    cbn [res_bind]; [| discriminate].
  destruct (Dict.iter entries) as [items |] eqn:Hitems; cbn [res_bind]; [| discriminate].
  destruct (for_each (dimension_score lax) items) as [out |] eqn:Hout; cbn [res_bind];
    [| discriminate].
  repeat match goal with
         | |- (res_bind ?r _ = Ok _) -> _ =>
             destruct r eqn:?; cbn [res_bind]; [| discriminate]
         end.
  unfold PresentFitScore.make.
  repeat match goal with
         | |- (res_bind ?r _ = Ok _) -> _ =>
             destruct r eqn:?; cbn [res_bind]; [| discriminate]
         end.
  intros [= <-]. cbn. exists data, entries, items. auto.
Qed.

(** C1. The clamp of the primary-scoring extractor.  On every numeric
    score whose tenth is a float, the clamp returns a value in [0, 10]: a
    score of at most 10 passes, a negative one becoming 0; a score above
    10 is divided by 10 and then cut at 10.  On every numeric weight it
    returns a value in [0, 1].  Every entry the loop builds carries these
    two values, an entry with numeric score and weight and string name
    and notes is built, and the entries of a parsed response are those of
    its list, in order.  On an integer score of at least
    [10 * (2^1024 - 2^970)] the division raises [OverflowError], which the
    handler does not list: the extractor raises instead of clamping. *)
Theorem dimension_score_clamp_overflows (lax : Pydantic.lax_mode) (taste : TasteModel.t) :
  (forall (raw : pyobj) (x : pyfloat),
     value raw = Some x ->
     if too_large raw then clamp_score raw = Raise OverflowError
     else exists v f, clamp_score raw = Ok v /\ value v = Some f /\ clamped_score x f) /\
  (forall (raw : pyobj) (y : pyfloat),
     value raw = Some y ->
     exists v g, clamp_weight raw = Ok v /\ value v = Some g /\ clamped_weight y g) /\
  (forall (ds : pyobj) (d : DimensionScore.t),
     dimension_score lax ds = Ok d ->
     entry_clamped ds d /\
     within 0 10 (DimensionScore.score d) /\ within 0 1 (DimensionScore.weight d)) /\
  (forall (ds raw_score raw_weight : pyobj) (x y : pyfloat) (dimension notes : string),
     Dict.get ds "score" (PyFloat (fin 5)) = Ok raw_score ->
     value raw_score = Some x -> too_large raw_score = false ->
     Dict.get ds "weight" (PyFloat (Double.round 0.1)) = Ok raw_weight ->
     value raw_weight = Some y ->
     Dict.get ds "dimension" (PyStr "") = Ok (PyStr dimension) ->
     Dict.get ds "notes" (PyStr "") = Ok (PyStr notes) ->
     exists d, dimension_score lax ds = Ok d) /\
  (forall (response : string) (p : PresentFitScore.t),
     _parse_response lax response taste = Ok p ->
     p = fallback (unfence response) \/
     exists data entries items,
       Json.loads (unfence response) = Ok data /\
       Dict.get data "dimension_scores" (PyList []) = Ok entries /\
       Dict.iter entries = Ok items /\
       Forall2 entry_clamped items (PresentFitScore.dimension_scores p)) /\
  Json.loads response_with_overflowing_score
  = Ok (PyDict [("dimension_scores",
                 PyList [PyDict [("score", PyInt (10 * overflow_bound))]])]) /\
  _parse_response lax response_with_overflowing_score taste = Raise OverflowError.
Proof.
  split; [| split; [| split; [| split; [| split; [| split]]]]].
  - intros raw x Hx. destruct (too_large raw) eqn:Hsize.
    + apply clamp_score_overflows, Hsize.
    + destruct (clamp_score_returns raw x Hx Hsize) as [v Hv].
      destruct (clamp_score_clamps _ _ Hv) as (x' & f & Hx' & Hf & Hcl).
      rewrite Hx in Hx'. injection Hx' as <-. eauto.
  - intros raw y Hy. destruct (clamp_weight_returns raw y Hy) as [v Hv].
    destruct (clamp_weight_clamps _ _ Hv) as (y' & g & Hy' & Hg & Hcl).
    rewrite Hy in Hy'. injection Hy' as <-. eauto.
  - intros ds d Hd. apply dimension_score_clamps in Hd. split; [exact Hd |].
    destruct Hd as (? & ? & x & y & _ & _ & [Hin _] & _ & _ & [Hw _]). auto.
  - intros ds raw_score raw_weight x y dimension notes Hs Hx Hsize Hw Hy Hd Hn.
    exact (dimension_score_returns lax ds raw_score raw_weight x y dimension notes
             Hs Hx Hsize Hw Hy Hd Hn).
  - intros response p. unfold _parse_response, try_parse.
    destruct (parse_body lax (unfence response)) as [q | e] eqn:Hbody.
    + intros [= <-]. right. apply parse_body_dimension_scores in Hbody.
      destruct Hbody as (data & entries & items & Hdata & Hentries & Hitems & Hrun).
      exists data, entries, items. repeat (split; [assumption |]).
      apply for_each_Forall2 in Hrun.
      eapply Forall2_impl; [exact Hrun |]. intros ds d. apply dimension_score_clamps.
    + destruct (handled e); [| discriminate]. intros [= <-]. left. reflexivity.
  - vm_compute. reflexivity.
  - vm_compute. reflexivity.
Qed.

Lemma dimension_score_clamp_overflows_witness :
  exists (p : PresentFitScore.t) (items : list pyobj),
    _parse_response Pydantic.no_coercion response_with_entries TasteModel.create_empty
    = Ok p /\
    length items = 3%nat /\
    Forall2 entry_clamped items (PresentFitScore.dimension_scores p) /\
    Forall2 (fun e d => same (DimensionScore.score d) (fst e) /\
                        same (DimensionScore.weight d) (snd e))
            [(fin 8.5, fin 1); (fin 0, Double.round 0.1); (fin 7.5, fin 0.25)]
            (PresentFitScore.dimension_scores p).
Proof.
  destruct (_parse_response Pydantic.no_coercion response_with_entries
              TasteModel.create_empty) as [p | e] eqn:Hp; [| vm_compute in Hp; discriminate].
  destruct (dimension_score_clamp_overflows Pydantic.no_coercion TasteModel.create_empty)
    as (_ & _ & _ & _ & Hparse & _).
  destruct (Hparse _ _ Hp) as [Hfall | (data & entries & items & Hdata & Hentries & Hitems & Hall)].
  { exfalso. vm_compute in Hp. injection Hp as <-. vm_compute in Hfall. discriminate. }
  exists p, items. split; [reflexivity |].
  vm_compute in Hdata. injection Hdata as <-.
  vm_compute in Hentries. injection Hentries as <-.
  vm_compute in Hitems. injection Hitems as <-.
  split; [reflexivity |]. split; [exact Hall |].
  vm_compute in Hp. injection Hp as <-.
  repeat constructor; vm_compute; reflexivity.
Defined.

End ClampFacts.

(** ** What the extractors do with a response that is not an object *)

Section ExtractorFacts.

Import BaseAgent.

Lemma take_length_le (n : nat) (s : string) : (String.length (Py.take n s) <= n)%nat.
Proof.
  revert s. induction n as [| n IH]; intros s; simpl; [lia |].
  destruct s; simpl; [lia |]. specialize (IH s). lia.
Qed.

Lemma slice_prefix_length (s : string) (k : Z) :
  0 <= k -> (String.length (Py.slice s None (Some k)) <= Z.to_nat k)%nat.
Proof.
  intros Hk. unfold Py.slice, Py.clip.
  destruct (Z.ltb_spec k 0); [lia |].
  etransitivity; [apply take_length_le |]. unfold Py.len. lia.
Qed.

Lemma take_is_prefix (n : nat) (s : string) : String.prefix (Py.take n s) s = true.
Proof.
  revert s. induction n as [| n IH]; intros s; simpl.
  - destruct s; reflexivity.
  - destruct s as [| c r]; simpl; [reflexivity |].
    destruct (ascii_dec c c); [apply IH | congruence].
Qed.

Lemma slice_is_prefix (s : string) (k : Z) :
  String.prefix (Py.slice s None (Some k)) s = true.
Proof. unfold Py.slice. simpl. apply take_is_prefix. Qed.

(** A text that [json.loads] refuses does give the fallback of either
    agent, with a prefix of the unfenced text in it. *)
Lemma parse_response_fallback (lax : Pydantic.lax_mode) (response : string)
    (taste : TasteModel.t) :
  Json.loads (unfence response) = Raise JSONDecodeError ->
  let text := unfence response in
  let shown := Py.slice text None (Some 300) in
  let seen := Py.slice text None (Some 500) in
  PresentFitAgent._parse_response lax response taste = Ok (PresentFitAgent.fallback text) /\
  PresentFitScore.score (PresentFitAgent.fallback text) = fin 50 /\
  PresentFitScore.justification (PresentFitAgent.fallback text)
  = String.append "Scoring parse error. Raw: " shown /\
  String.prefix shown text = true /\ (String.length shown <= 300)%nat /\
  VisionAgent._parse_response lax response = Ok (VisionAgent.fallback text) /\
  VisionAnalysis.raw_description (VisionAgent.fallback text)
  = String.append "Parse error. Raw response: " seen /\
  String.prefix seen text = true /\ (String.length seen <= 500)%nat.
Proof.
  intros Hloads. cbv zeta.
  unfold PresentFitAgent._parse_response, VisionAgent._parse_response, try_parse,
    PresentFitAgent.parse_body, VisionAgent.parse_body.
  rewrite Hloads. cbn [res_bind handled].
  repeat split; try reflexivity.
  - apply slice_is_prefix.
  - apply (slice_prefix_length _ 300). lia.
  - apply slice_is_prefix.
  - apply (slice_prefix_length _ 500). lia.
Qed.

(** C2, at the input ["[]"]. The text is valid JSON, so no
    [JSONDecodeError] is raised; the decoded list has no [get], and the
    [AttributeError] is not among the exceptions the extractor catches:
    it leaves [_parse_response], of the primary scoring and of the vision
    analysis alike.  An aggregate score out of range leaves it as a
    [ValidationError]. *)
Theorem parse_response_raises_on_json_array (lax : Pydantic.lax_mode) (taste : TasteModel.t) :
  Json.loads "[]" = Ok (PyList []) /\
  PresentFitAgent._parse_response lax "[]" taste = Raise AttributeError /\
  VisionAgent._parse_response lax "[]" = Raise AttributeError /\
  PresentFitAgent._parse_response lax
    (String.append "{" (String.append (ClampSpec.quoted "score") ": 150}")) taste
  = Raise ValidationError.
Proof. repeat split; vm_compute; reflexivity. Qed.

End ExtractorFacts.

(** ** The store *)

Section StoreFacts.

Import JsonStore StoreSpec.

Lemma elem_of_insert_by_ingested_at (h x : House.t) (l : list House.t) :
  x ∈ insert_by_ingested_at h l <-> x = h \/ x ∈ l.
Proof.
  induction l as [| y rest IH]; simpl.
  - rewrite list_elem_of_singleton. set_solver.
  - destruct (House.ingested_at h <=? House.ingested_at y).
    + rewrite !elem_of_cons, IH. tauto.
    + rewrite !elem_of_cons. tauto.
Qed.

Lemma elem_of_sorted_by_ingested_at (x : House.t) (l : list House.t) :
  x ∈ sorted_by_ingested_at l <-> x ∈ l.
Proof.
  unfold sorted_by_ingested_at.
  assert (H : forall acc, x ∈ fold_left (fun acc h => insert_by_ingested_at h acc) l acc
                          <-> x ∈ l \/ x ∈ acc).
  { induction l as [| y rest IH]; intros acc; simpl.
    - set_solver.
    - rewrite IH, elem_of_insert_by_ingested_at, elem_of_cons. tauto. }
  rewrite H. set_solver.
Qed.

Lemma elem_of_list_houses (store : t) (h : House.t) :
  h ∈ list_houses store <-> exists k, houses store !! k = Some h.
Proof.
  unfold list_houses. rewrite elem_of_sorted_by_ingested_at, list_elem_of_fmap. split.
  - intros ([k h'] & -> & Hin). apply elem_of_map_to_list in Hin. eauto.
  - intros [k Hk]. exists (k, h). split; [reflexivity |]. by apply elem_of_map_to_list.
Qed.



(** The store keeps each record under its own identifier. *)
Lemma well_formed_empty : well_formed empty.
Proof. intros k h Hk. simpl in Hk. rewrite lookup_empty in Hk. discriminate. Qed.

Lemma well_formed_save_house (store : t) (house : House.t) :
  well_formed store -> well_formed (save_house store house).
Proof.
  intros Hwf k h. unfold save_house. simpl. rewrite lookup_insert. case_decide.
  - intros [= <-]. assumption.
  - apply Hwf.
Qed.

Lemma well_formed_state_of (houses : list House.t) :
  well_formed (store (Examples.state_of houses)).
Proof.
  unfold Examples.state_of. simpl.
  assert (H : forall st, well_formed st -> well_formed (fold_left save_house houses st)).
  { induction houses as [| h rest IH]; intros st Hst; simpl; [exact Hst |].
    apply IH, well_formed_save_house, Hst. }
  apply H, well_formed_empty.
Qed.






End StoreFacts.

(** ** Fetching and compositing *)

Section FetchFacts.

Import PIL ImageComposite FetchSpec.

Variable w : World.

Lemma fetch_image_swallows (url : string) (s : state) :
  fetch_image w url s = (Ok (fetched w (ticks s) url), after_requests s [url]).
Proof.
  unfold fetch_image, try_except, bind, client_get, lift, ret, fetched,
    Httpx.raise_for_status, after_requests.
  destruct (http_get w (ticks s) url) as [response | e]; [| reflexivity].
  destruct (Py.between 200 (Httpx.status_code response) 299); [| reflexivity].
  destruct (image_open w (Httpx.content response)); reflexivity.
Qed.

Lemma after_requests_cons (s : state) (url : string) (rest : list string) :
  after_requests (after_requests s [url]) rest = after_requests s (url :: rest).
Proof.
  unfold after_requests. cbn [store ticks requested]. f_equal.
  - rewrite length_cons. simpl. lia.
  - simpl. rewrite <- app_assoc. reflexivity.
Qed.

Lemma gather_fetches (urls : list string) :
  forall s : state,
    exists results,
      gather (map (fetch_image w) urls) s = (Ok results, after_requests s urls) /\
      omap id results = fetched_all w (ticks s) urls.
Proof.
  induction urls as [| url rest IH]; intros s.
  - exists []. split; [| reflexivity]. unfold after_requests. simpl.
    destruct s; reflexivity.
  - cbn [map gather]. unfold bind at 1. rewrite fetch_image_swallows.
    destruct (IH (after_requests s [url])) as (results & Hrun & Himgs).
    unfold bind at 1. rewrite Hrun. unfold ret. rewrite after_requests_cons.
    eexists. split; [reflexivity |].
    cbn [omap fetched_all]. change (ticks (after_requests s [url])) with (S (ticks s)) in Himgs.
    rewrite <- Himgs. destruct (fetched w (ticks s) url); reflexivity.
Qed.

Lemma fetch_images_survivors (urls : list string) (s : state) :
  fetch_images w urls s = (Ok (fetched_all w (ticks s) urls), after_requests s urls).
Proof.
  unfold fetch_images, bind. destruct (gather_fetches urls s) as (results & -> & <-).
  reflexivity.
Qed.

Lemma fetched_all_none (urls : list string) :
  forall t : nat,
    (forall (i : nat) (url : string), urls !! i = Some url -> fetched w (i + t) url = None) ->
    fetched_all w t urls = [].
Proof.
  induction urls as [| url rest IH]; intros t Hall; [reflexivity |].
  pose proof (Hall 0%nat url eq_refl) as Hfirst. simpl in Hfirst.
  simpl. rewrite Hfirst. apply IH.
  intros i u Hi. specialize (Hall (S i) u Hi). rewrite <- Hall. f_equal. lia.
Qed.

(** C8. A fetch that fails, at the request, at the status or at the
    decoder, gives no image and no exception, and its address is
    requested once; the images that did arrive go on, in order.  When none
    arrives, or none was asked for, the composite is the grey placeholder
    of one cell, and no exception either. *)
Theorem failed_fetches_are_dropped :
  (forall (url : string) (s : state),
     fetch_image w url s = (Ok (fetched w (ticks s) url), after_requests s [url])) /\
  (forall (urls : list string) (s : state),
     fetch_images w urls s = (Ok (fetched_all w (ticks s) urls), after_requests s urls)) /\
  (forall (image_urls : list string) (cw ch : Z) (max_images : option Z) (s : state),
     let urls := limit_urls image_urls max_images in
     (forall (i : nat) (url : string),
        urls !! i = Some url -> fetched w (i + ticks s) url = None) ->
     create_composite w image_urls cw ch max_images s
     = (Ok (placeholder cw ch), after_requests s urls)) /\
  (forall (image_urls : list string) (cw ch : Z) (max_images : option Z) (s : state)
          (grid : Image),
     let urls := limit_urls image_urls max_images in
     fetched_all w (ticks s) urls <> [] ->
     create_grid_image (fetched_all w (ticks s) urls) cw ch default_padding default_bg_color
     = Ok grid ->
     create_composite w image_urls cw ch max_images s
     = (Ok {| encoded := grid; optimize := true |}, after_requests s urls)).
Proof.
  split; [exact fetch_image_swallows | split; [exact fetch_images_survivors | split]].
  - intros image_urls cw ch max_images s urls Hall.
    unfold create_composite. fold urls. unfold bind.
    rewrite fetch_images_survivors, (fetched_all_none urls (ticks s) Hall). reflexivity.
  - intros image_urls cw ch max_images s grid urls Hsome Hgrid.
    unfold create_composite. fold urls. unfold bind at 1.
    rewrite fetch_images_survivors.
    destruct (fetched_all w (ticks s) urls) as [| img rest] eqn:Himgs; [congruence |].
    unfold bind, lift, ret. rewrite Hgrid. reflexivity.
Qed.

End FetchFacts.

Lemma failed_fetches_are_dropped_witness :
  ImageComposite.create_composite Examples.offline (House.image_urls Examples.elm_st)
    400 300 (Some 36) (Examples.state_of [])
  = (Ok (FetchSpec.placeholder 400 300),
     FetchSpec.after_requests (Examples.state_of []) (House.image_urls Examples.elm_st)).
Proof.
  apply (proj1 (proj2 (proj2 (failed_fetches_are_dropped Examples.offline)))
           (House.image_urls Examples.elm_st) 400 300 (Some 36) (Examples.state_of [])).
  intros i url _. reflexivity.
Defined.

(** ** What each stage does to the stored houses *)

Section StageFacts.

Import PipelineSpec.

Variable w : World.

Notation houses_of s := (JsonStore.houses (store s)).

Lemma load_house_found (house_id : string) (s : state) (h : House.t) :
  JsonStore.load_house (store s) house_id = Some h ->
  load_house house_id s = (Ok (Some h), s).
Proof. intros Hh. unfold load_house. rewrite Hh. reflexivity. Qed.

Lemma load_house_state (house_id : string) (s s' : state) (r : res (option House.t)) :
  load_house house_id s = (r, s') -> s' = s.
Proof.
  unfold load_house. destruct (JsonStore.load_house _ _); [intros [= _ <-]; reflexivity |].
  destruct (damaged s !! house_id); intros [= _ <-]; reflexivity.
Qed.

Lemma readable_iff (s : state) (house_id : string) :
  readable s house_id <-> (houses_of s !! house_id = None -> damaged s !! house_id = None).
Proof.
  unfold readable, load_house, JsonStore.load_house.
  destruct (houses_of s !! house_id) as [h |]; [split; [discriminate | eauto] |].
  destruct (damaged s !! house_id) as [e |]; split; eauto.
  - intros [house [=]].
  - intros H. specialize (H eq_refl). discriminate.
Qed.

Lemma readable_stored (s : state) (house_id : string) (h : House.t) :
  houses_of s !! house_id = Some h -> readable s house_id.
Proof. intros Hh. apply readable_iff. congruence. Qed.

Lemma grows_refl (s : state) : grows s s.
Proof. split; auto. Qed.

Lemma grows_trans (s1 s2 s3 : state) : grows s1 s2 -> grows s2 s3 -> grows s1 s3.
Proof. intros [H1 H2] [H3 H4]. split; auto. Qed.

Lemma grows_same (s s' : state) :
  houses_of s' = houses_of s -> damaged s' = damaged s -> grows s s'.
Proof. intros Hh Hd. unfold grows. rewrite Hh, Hd. auto. Qed.

Lemma grows_readable (s s' : state) (house_id : string) :
  grows s s' -> readable s house_id -> readable s' house_id.
Proof.
  intros [Hh Hd]. rewrite !readable_iff. intros Hr Hnone. apply Hd, Hr.
  destruct (houses_of s !! house_id) as [h |] eqn:E; [| reflexivity].
  destruct (Hh house_id ltac:(eauto)) as [h' Hh']. congruence.
Qed.

(** A computation that removes no record and damages no file. *)
Local Notation stable m := (forall s r s', m s = (r, s') -> grows s s').

Lemma stable_ret {A} (a : A) : stable (ret a).
Proof. intros s r s' [= _ <-]. apply grows_refl. Qed.

Lemma stable_lift {A} (x : res A) : stable (lift x).
Proof. intros s r s' [= _ <-]. apply grows_refl. Qed.

Lemma stable_outside {A} (answer : nat -> res A) : stable (outside answer).
Proof. intros s r s' [= _ <-]. apply grows_same; reflexivity. Qed.

Lemma stable_bind {A B} (m : M A) (k : A -> M B) :
  stable m -> (forall a, stable (k a)) -> stable (bind m k).
Proof.
  intros Hm Hk s r s'. unfold bind.
  destruct (m s) as [[a | e] s1] eqn:E.
  - intros Hrun. eapply grows_trans; [eapply Hm, E | eapply Hk, Hrun].
  - intros [= _ <-]. eapply Hm, E.
Qed.

Lemma stable_try_except {A} (body : M A) (handler : exn -> M A) :
  stable body -> (forall e, stable (handler e)) -> stable (try_except body handler).
Proof.
  intros Hm Hk s r s'. unfold try_except.
  destruct (body s) as [[a | e] s1] eqn:E.
  - intros [= _ <-]. eapply Hm, E.
  - intros Hrun. eapply grows_trans; [eapply Hm, E | eapply Hk, Hrun].
Qed.

Lemma stable_load_house (house_id : string) : stable (load_house house_id).
Proof. intros s r s' Hrun. apply load_house_state in Hrun. subst. apply grows_refl. Qed.

Lemma stable_save_house (h : House.t) : stable (save_house h).
Proof.
  intros s r s' [= _ <-]. split; cbn [store damaged JsonStore.save_house JsonStore.houses].
  - intros house_id Hsome. apply lookup_insert_is_Some'. auto.
  - intros house_id Hnone. apply lookup_delete_None. auto.
Qed.

Lemma load_or_create_taste_houses (s : state) :
  exists taste s1,
    load_or_create_taste s = (Ok taste, s1) /\ houses_of s1 = houses_of s /\
    damaged s1 = damaged s.
Proof.
  unfold load_or_create_taste, JsonStore.load_or_create_taste, JsonStore.load_taste.
  destruct (JsonStore.taste (store s)); eexists _, _; repeat split; reflexivity.
Qed.

Lemma stable_load_or_create_taste : stable load_or_create_taste.
Proof.
  intros s r s' Hrun. destruct (load_or_create_taste_houses s) as (taste & s1 & E & Hh & Hd).
  rewrite E in Hrun. injection Hrun as _ <-. apply grows_same; assumption.
Qed.

Lemma create_composite_sync_store (urls : list string) (cw ch : Z) (limit : option Z)
    (s s' : state) (r : res PIL.png) :
  ImageComposite.create_composite_sync w urls cw ch limit s = (r, s') ->
  store s' = store s /\ damaged s' = damaged s.
Proof.
  unfold ImageComposite.create_composite_sync, ImageComposite.create_composite.
  unfold bind at 1. rewrite fetch_images_survivors.
  destruct (FetchSpec.fetched_all _ _ _); unfold bind, lift, ret.
  - intros [= <- <-]. split; reflexivity.
  - destruct (ImageComposite.create_grid_image _ _ _ _ _); intros [= <- <-];
      split; reflexivity.
Qed.

Lemma stable_create_composite_sync (urls : list string) (cw ch : Z) (limit : option Z) :
  stable (ImageComposite.create_composite_sync w urls cw ch limit).
Proof.
  intros s r s' Hrun. apply create_composite_sync_store in Hrun. destruct Hrun as [Hs Hd].
  apply grows_same; [rewrite Hs; reflexivity | exact Hd].
Qed.

Ltac stable_step :=
  first [ apply stable_ret | apply stable_lift | apply stable_outside
        | apply stable_load_house | apply stable_save_house
        | apply stable_load_or_create_taste | apply stable_create_composite_sync
        | apply stable_bind; [| intros ?]
        | apply stable_try_except; [| intros ?]
        | match goal with
          | |- forall s r s', (match ?x with _ => _ end) s = (r, s') -> _ => destruct x
          end ].

Lemma stable_analyze (house_id : string) : stable (VisionAgent.analyze w house_id).
Proof. unfold VisionAgent.analyze. repeat stable_step. Qed.

Lemma stable_present_fit (house_id : string) : stable (PresentFitAgent.score w house_id).
Proof. unfold PresentFitAgent.score, datetime_now. repeat stable_step. Qed.

Lemma stable_potential (house_id : string) : stable (PotentialAgent.score w house_id).
Proof. unfold PotentialAgent.score. repeat stable_step. Qed.

Lemma stable_brief (house_id : string) : stable (BriefAgent.generate w house_id).
Proof. unfold BriefAgent.generate. repeat stable_step. Qed.

Lemma stable_score_house (house_id : string) : stable (Orchestrator.score_house w house_id).
Proof.
  unfold Orchestrator.score_house, Orchestrator.step1, Orchestrator.step2,
    Orchestrator.step3, Orchestrator.step4.
  repeat first [ apply stable_analyze | apply stable_present_fit
               | apply stable_potential | apply stable_brief | stable_step ].
Qed.

(** The visual analysis writes the analysis it returns, and nothing when
    it raises or finds no house. *)
Lemma analyze_effect (house_id : string) (s s' : state) (r : res (option VisionAnalysis.t)) :
  VisionAgent.analyze w house_id s = (r, s') ->
  match r with
  | Ok (Some a) =>
      exists h, houses_of s !! house_id = Some h /\
                houses_of s' = <[House.id h := House.set_vision_analysis h a]> (houses_of s)
  | Ok None => houses_of s !! house_id = None /\ houses_of s' = houses_of s
  | Raise _ => houses_of s' = houses_of s
  end.
Proof.
  unfold VisionAgent.analyze. unfold bind at 1. unfold load_house, JsonStore.load_house.
  destruct (houses_of s !! house_id) as [h |] eqn:Hh;
    [| destruct (damaged s !! house_id); intros [= <- <-]; auto].
  destruct (House.image_urls h) as [| url urls].
  - unfold bind, save_house, ret. intros [= <- <-]. exists h. auto.
  - unfold bind at 1.
    destruct (ImageComposite.create_composite_sync _ _ _ _ _ s) as [[png | e] s1] eqn:Hc;
      apply create_composite_sync_store in Hc; destruct Hc as [Hc _];
      [| intros [= <- <-]; congruence].
    unfold bind at 1, outside.
    destruct (openrouter_vision w (ticks s1) png) as [response | e];
      [| intros [= <- <-]; simpl; congruence].
    unfold bind at 1, lift.
    destruct (VisionAgent._parse_response (lax w) response) as [a | e];
      [| intros [= <- <-]; simpl; congruence].
    unfold bind, save_house, ret. intros [= <- <-]. exists h. simpl. rewrite Hc. auto.
Qed.

(** The primary scoring writes the score it returns, and nothing
    otherwise. *)
Lemma present_fit_effect (house_id : string) (s s' : state)
    (r : res (option PresentFitScore.t)) :
  PresentFitAgent.score w house_id s = (r, s') ->
  match r with
  | Ok (Some fit) =>
      exists h now,
        houses_of s !! house_id = Some h /\
        houses_of s' = <[House.id h := House.set_present_fit_score h fit now]> (houses_of s)
  | _ => houses_of s' = houses_of s
  end.
Proof.
  unfold PresentFitAgent.score. unfold bind at 1. unfold load_house, JsonStore.load_house.
  destruct (houses_of s !! house_id) as [h |] eqn:Hh;
    [| destruct (damaged s !! house_id); intros [= <- <-]; reflexivity].
  unfold bind at 1. destruct (load_or_create_taste_houses s) as (taste & s1 & -> & Hs1 & _).
  destruct (House.vision_analysis h); [| intros [= <- <-]; exact Hs1].
  unfold bind at 1, lift.
  destruct (PresentFitAgent._build_context h taste) as [context | e];
    [| intros [= <- <-]; exact Hs1].
  unfold bind at 1, outside.
  destruct (openrouter_chat w (ticks s1) context) as [response | e];
    [| intros [= <- <-]; exact Hs1].
  unfold bind at 1.
  destruct (PresentFitAgent._parse_response (lax w) response taste) as [fit | e];
    [| intros [= <- <-]; exact Hs1].
  unfold bind, datetime_now, outside, save_house, ret. intros [= <- <-].
  eexists h, _. simpl. rewrite Hs1. auto.
Qed.

(** The secondary scoring likewise. *)
Lemma potential_effect (house_id : string) (s s' : state)
    (r : res (option PotentialScore.t)) :
  PotentialAgent.score w house_id s = (r, s') ->
  match r with
  | Ok (Some score) =>
      exists h,
        houses_of s !! house_id = Some h /\
        houses_of s' = <[House.id h := House.set_potential_score h score]> (houses_of s)
  | _ => houses_of s' = houses_of s
  end.
Proof.
  unfold PotentialAgent.score. unfold bind at 1. unfold load_house, JsonStore.load_house.
  destruct (houses_of s !! house_id) as [h |] eqn:Hh;
    [| destruct (damaged s !! house_id); intros [= <- <-]; reflexivity].
  unfold bind at 1. destruct (load_or_create_taste_houses s) as (taste & s1 & -> & Hs1 & _).
  destruct (House.vision_analysis h); [| intros [= <- <-]; exact Hs1].
  unfold bind at 1, lift.
  destruct (PotentialAgent._build_context h taste) as [context | e];
    [| intros [= <- <-]; exact Hs1].
  unfold bind at 1, outside.
  destruct (openrouter_chat w (ticks s1) context) as [response | e];
    [| intros [= <- <-]; exact Hs1].
  unfold bind at 1.
  destruct (PotentialAgent._parse_response (lax w) response) as [score | e];
    [| intros [= <- <-]; exact Hs1].
  unfold bind, save_house, ret. intros [= <- <-].
  exists h. simpl. rewrite Hs1. auto.
Qed.

(** The narrative likewise. *)
Lemma brief_effect (house_id : string) (s s' : state) (r : res (option string)) :
  BriefAgent.generate w house_id s = (r, s') ->
  match r with
  | Ok (Some text) =>
      exists h,
        houses_of s !! house_id = Some h /\
        houses_of s' = <[House.id h := House.set_brief h text]> (houses_of s)
  | _ => houses_of s' = houses_of s
  end.
Proof.
  unfold BriefAgent.generate. unfold bind at 1. unfold load_house, JsonStore.load_house.
  destruct (houses_of s !! house_id) as [h |] eqn:Hh;
    [| destruct (damaged s !! house_id); intros [= <- <-]; reflexivity].
  unfold bind at 1. destruct (load_or_create_taste_houses s) as (taste & s1 & -> & Hs1 & _).
  unfold bind at 1, lift.
  destruct (BriefAgent._build_context h taste) as [context | e];
    [| intros [= <- <-]; exact Hs1].
  unfold bind at 1, outside.
  destruct (openrouter_chat w (ticks s1) context) as [response | e];
    [| intros [= <- <-]; exact Hs1].
  unfold bind, save_house, ret. intros [= <- <-].
  exists h. simpl. rewrite Hs1. auto.
Qed.

End StageFacts.

(** ** The pipeline *)

Section PipelineFacts.

Import PipelineSpec Orchestrator.

Variable w : World.

Notation houses_of s := (JsonStore.houses (store s)).

(** [score_house] on a stored record, one stage after the other. *)
Lemma score_house_stages (house_id : string) (s : state) (h : House.t) :
  JsonStore.load_house (store s) house_id = Some h ->
  score_house w house_id s =
  match VisionAgent.analyze w house_id s with
  | (Raise _, s1) => (Ok false, s1)
  | (Ok _, s1) =>
      match PresentFitAgent.score w house_id s1 with
      | (Ok (Some _), s2) =>
          let (_, s3) := PotentialAgent.score w house_id s2 in
          let (_, s4) := BriefAgent.generate w house_id s3 in
          (Ok true, s4)
      | (_, s2) => (Ok false, s2)
      end
  end.
Proof.
  intros Hh. unfold score_house. unfold bind at 1. rewrite (load_house_found _ _ _ Hh).
  unfold bind at 1, step1, try_except. unfold bind at 1.
  destruct (VisionAgent.analyze w house_id s) as [[v | e] s1]; unfold ret; [| reflexivity].
  unfold bind at 1, step2, try_except. unfold bind at 1.
  destruct (PresentFitAgent.score w house_id s1) as [[[fit |] | e] s2];
    unfold ret; try reflexivity.
  unfold bind at 1, step3, try_except. unfold bind at 1.
  destruct (PotentialAgent.score w house_id s2) as [[pot | e] s3]; unfold ret;
    unfold bind at 1, step4, try_except; unfold bind at 1;
    destruct (BriefAgent.generate w house_id s3) as [[brief | e'] s4]; reflexivity.
Qed.

(** [score_house] on a file that is not there, and on one that cannot be
    read. *)
Lemma score_house_first_load (house_id : string) (s : state) :
  JsonStore.load_house (store s) house_id = None ->
  score_house w house_id s
  = match damaged s !! house_id with
    | Some e => (Raise e, s)
    | None => (Ok false, s)
    end.
Proof.
  intros Hh. unfold score_house. unfold bind at 1. unfold load_house. rewrite Hh.
  destruct (damaged s !! house_id); reflexivity.
Qed.

Lemma score_house_returns (house_id : string) (s : state) :
  readable s house_id -> exists b s', score_house w house_id s = (Ok b, s').
Proof.
  intros Hr. destruct (JsonStore.load_house (store s) house_id) as [h |] eqn:Hh.
  - rewrite (score_house_stages _ _ _ Hh).
    destruct (VisionAgent.analyze w house_id s) as [[v | e] s1]; [| eauto].
    destruct (PresentFitAgent.score w house_id s1) as [[[fit |] | e] s2]; eauto.
    destruct (PotentialAgent.score w house_id s2) as [r3 s3].
    destruct (BriefAgent.generate w house_id s3) as [r4 s4]. eauto.
  - rewrite (score_house_first_load _ _ Hh).
    pose proof (proj1 (readable_iff _ _) Hr Hh) as Hd. rewrite Hd. eauto.
Qed.

Lemma score_house_raises (house_id : string) (s : state) (e : exn) :
  load_house house_id s = (Raise e, s) -> score_house w house_id s = (Raise e, s).
Proof. intros Hl. unfold score_house. unfold bind at 1. rewrite Hl. reflexivity. Qed.

(** When [score_house] returns, its first load did. *)
Lemma score_house_loaded (house_id : string) (s s' : state) (b : bool) :
  score_house w house_id s = (Ok b, s') -> readable s house_id.
Proof.
  unfold score_house. unfold bind at 1.
  destruct (load_house house_id s) as [[house | e] s0] eqn:Hl.
  - intros _. pose proof (load_house_state _ _ _ _ Hl) as ->. exists house. exact Hl.
  - discriminate.
Qed.

Lemma stage3_keeps_slot (house_id : string) (s : state) (h : House.t) :
  JsonStore.load_house (store s) house_id = Some h ->
  House.id h = house_id ->
  stage3_failure_keeps_slot w house_id s h.
Proof.
  intros Hh Hid v s1 fit s2 e s3 brief s4 H1 H2 H3 H4.
  pose proof (score_house_stages house_id s h Hh) as Hrun.
  unfold JsonStore.load_house in Hh.
  rewrite H1, H2, H3, H4 in Hrun.
  apply analyze_effect in H1. apply present_fit_effect in H2.
  apply potential_effect in H3. apply brief_effect in H4.
  destruct v as [a |]; [| destruct H1; congruence].
  destruct H1 as (h0 & Hh0 & Hs1). rewrite Hh in Hh0. injection Hh0 as <-.
  destruct H2 as (h1 & now & Hh1 & Hs2).
  rewrite Hs1, Hid, lookup_insert_eq in Hh1. injection Hh1 as <-.
  cbn [House.set_vision_analysis House.id] in Hs2. rewrite Hid in Hs2.
  destruct H4 as (h2 & Hh2 & Hs4).
  rewrite H3, Hs2, lookup_insert_eq in Hh2. injection Hh2 as <-.
  cbn [House.set_present_fit_score House.set_vision_analysis House.id] in Hs4.
  rewrite Hid in Hs4.
  eexists. split; [exact Hrun |]. unfold JsonStore.load_house.
  split; [rewrite Hs4; apply lookup_insert_eq |].
  cbn. repeat split; eauto.
Qed.

(** C3, as the code has it. For an identifier under which the store
    holds a valid record the run returns, and returns [True] exactly when
    both required stages completed.  When stage 3 fails and stages 1, 2
    and 4 succeed, on a record that is stored under its own identifier,
    the run returns [True], the stored record holds the analysis, the
    primary score and the narrative these stages returned, and a failed
    stage 3 leaves the secondary-score slot as it found it: the slot
    holds after the run what it held before, so it is absent exactly when
    it was absent before the run.  On a file that cannot be read the run
    raises the exception of the read. *)
Theorem score_house_true_iff_required_stages :
  (forall (house_id : string) (s : state),
     is_Some (JsonStore.load_house (store s) house_id) ->
     exists b s',
       score_house w house_id s = (Ok b, s') /\
       (b = true <-> required_stages_completed w house_id s)) /\
  (forall (house_id : string) (s : state) (h : House.t),
     JsonStore.load_house (store s) house_id = Some h ->
     House.id h = house_id ->
     stage3_failure_keeps_slot w house_id s h) /\
  (forall (house_id : string) (s : state) (h : House.t),
     JsonStore.load_house (store s) house_id = Some h ->
     House.id h = house_id ->
     House.potential_score h = None ->
     stage3_failure_leaves_three w house_id s) /\
  (forall (house_id : string) (s : state) (e : exn),
     load_house house_id s = (Raise e, s) ->
     score_house w house_id s = (Raise e, s)).
Proof.
  split; [| split; [| split; [| exact score_house_raises]]].
  - intros house_id s [h Hh]. rewrite (score_house_stages _ _ _ Hh).
    unfold required_stages_completed.
    destruct (VisionAgent.analyze w house_id s) as [[v | e] s1] eqn:H1.
    + destruct (PresentFitAgent.score w house_id s1) as [[[fit |] | e] s2] eqn:H2.
      * destruct (PotentialAgent.score w house_id s2) as [r3 s3].
        destruct (BriefAgent.generate w house_id s3) as [r4 s4].
        eexists _, _. split; [reflexivity |]. split; [| reflexivity].
        intros _. exists v, s1, fit, s2. auto.
      * eexists _, _. split; [reflexivity |]. split; [discriminate |].
        intros (v' & s1' & fit & s2' & [= <- <-] & H2'). congruence.
      * eexists _, _. split; [reflexivity |]. split; [discriminate |].
        intros (v' & s1' & fit & s2' & [= <- <-] & H2'). congruence.
    + eexists _, _. split; [reflexivity |]. split; [discriminate |].
      intros (v' & s1' & fit & s2' & H1' & _). discriminate.
  - exact stage3_keeps_slot.
  - intros house_id s h Hh Hid Hnone v s1 fit s2 e s3 brief s4 H1 H2 H3 H4 Hbrief.
    destruct (stage3_keeps_slot house_id s h Hh Hid v s1 fit s2 e s3 brief s4 H1 H2 H3 H4)
      as (h' & Hrun & Hload & Hpot & Hv & Hvis & Hfit & Hb).
    exists h'. split; [exact Hrun |]. split; [exact Hload |].
    split; [congruence |]. split; [congruence |].
    split; [rewrite Hfit; eauto | congruence].
Qed.

(** C9. For an entity whose slots are all unset, when a required stage
    fails the run returns [False] and the primary score, the secondary
    score and the narrative are still unset. *)
Theorem required_stage_failure_writes_nothing (house_id : string) (s : state) (h : House.t) :
  JsonStore.load_house (store s) house_id = Some h ->
  unset h ->
  required_stage_failed w house_id s ->
  exists s' h',
    score_house w house_id s = (Ok false, s') /\
    JsonStore.load_house (store s') house_id = Some h' /\
    House.present_fit_score h' = None /\
    House.potential_score h' = None /\
    House.brief h' = "".
Proof.
  intros Hh (_ & Hfit & Hpot & Hbrief) Hfail.
  rewrite (score_house_stages _ _ _ Hh). unfold JsonStore.load_house in *.
  assert (Hafter : forall v s1, VisionAgent.analyze w house_id s = (Ok v, s1) ->
            exists h1, houses_of s1 !! house_id = Some h1 /\
                       House.present_fit_score h1 = None /\
                       House.potential_score h1 = None /\ House.brief h1 = "").
  { intros v s1 H1. apply analyze_effect in H1. destruct v as [a |].
    - destruct H1 as (h0 & Hh0 & ->). rewrite Hh in Hh0. injection Hh0 as <-.
      rewrite lookup_insert. case_decide; eauto.
    - destruct H1 as [_ ->]. eauto. }
  destruct Hfail as [(e & s1 & H1) | (v & s1 & r & s2 & H1 & H2 & Hr)].
  - rewrite H1. apply analyze_effect in H1. exists s1, h. rewrite H1. auto.
  - rewrite H1, H2. destruct (Hafter v s1 H1) as (h1 & Hh1 & ? & ? & ?).
    apply present_fit_effect in H2.
    destruct Hr as [-> | [e ->]]; exists s2, h1; rewrite H2; auto.
Qed.

End PipelineFacts.

(** ** The run of one entity *)

Section RunFacts.

Import PipelineSpec Orchestrator Examples.

Lemma pair_eq_inv {A B} (a c : A) (b d : B) : (a, b) = (c, d) -> a = c /\ b = d.
Proof. intros [= -> ->]. auto. Qed.

Lemma offline_run_of_scored_before :
  let house_id := House.id scored_before in
  let s := state_of [scored_before] in
  exists v s1 fit s2 e s3 brief s4 h',
    VisionAgent.analyze offline house_id s = (Ok v, s1) /\
    PresentFitAgent.score offline house_id s1 = (Ok (Some fit), s2) /\
    PotentialAgent.score offline house_id s2 = (Raise e, s3) /\
    BriefAgent.generate offline house_id s3 = (Ok (Some brief), s4) /\
    brief <> "" /\
    JsonStore.load_house (store s4) house_id = Some h' /\
    House.potential_score h' = Some old_potential.
Proof.
  cbv zeta.
  destruct (VisionAgent.analyze offline (House.id scored_before) (state_of [scored_before]))
    as [r1 s1] eqn:H1.
  destruct (PresentFitAgent.score offline (House.id scored_before) s1) as [r2 s2] eqn:H2.
  destruct (PotentialAgent.score offline (House.id scored_before) s2) as [r3 s3] eqn:H3.
  destruct (BriefAgent.generate offline (House.id scored_before) s3) as [r4 s4] eqn:H4.
  pose proof H1 as C1. vm_compute in C1. apply pair_eq_inv in C1. destruct C1 as [<- <-].
  pose proof H2 as C2. vm_compute in C2. apply pair_eq_inv in C2. destruct C2 as [<- <-].
  pose proof H3 as C3. vm_compute in C3. apply pair_eq_inv in C3. destruct C3 as [<- <-].
  pose proof H4 as C4. vm_compute in C4. apply pair_eq_inv in C4. destruct C4 as [<- <-].
  do 9 eexists.
  split; [exact H1 |]. split; [exact H2 |]. split; [exact H3 |]. split; [exact H4 |].
  split; [discriminate |]. split; vm_compute; reflexivity.
Qed.

(** C3, as the specification states it, at a record that carries a
    secondary score from an earlier run: stage 3 fails, stages 1, 2 and 4
    succeed, and the old secondary score is still there. *)
Lemma stage3_failure_keeps_an_old_score :
  is_Some (JsonStore.load_house (store (state_of [scored_before])) (House.id scored_before)) /\
  ~ stage3_failure_leaves_three offline (House.id scored_before) (state_of [scored_before]).
Proof.
  split; [vm_compute; eauto |].
  intros Hclaim.
  destruct offline_run_of_scored_before
    as (v & s1 & fit & s2 & e & s3 & brief & s4 & h' & H1 & H2 & H3 & H4 & Hb & Hload & Hold).
  destruct (Hclaim v s1 fit s2 e s3 brief s4 H1 H2 H3 H4 Hb)
    as (h'' & _ & Hload' & Hnone & _).
  rewrite Hload in Hload'. injection Hload' as <-. congruence.
Qed.

Lemma score_house_true_iff_required_stages_witness :
  (exists b s',
     score_house offline (House.id oak_ave) (state_of [oak_ave]) = (Ok b, s') /\
     (b = true <-> required_stages_completed offline (House.id oak_ave) (state_of [oak_ave]))) /\
  (exists s4 h',
     score_house offline (House.id scored_before) (state_of [scored_before]) = (Ok true, s4) /\
     JsonStore.load_house (store s4) (House.id scored_before) = Some h' /\
     House.potential_score h' = Some old_potential /\
     is_Some (House.vision_analysis h') /\
     is_Some (House.present_fit_score h') /\
     House.brief h' <> "") /\
  stage3_failure_leaves_three offline (House.id oak_ave) (state_of [oak_ave]).
Proof.
  split; [| split].
  - apply (proj1 (score_house_true_iff_required_stages offline)). vm_compute. eauto.
  - destruct offline_run_of_scored_before
      as (v & s1 & fit & s2 & e & s3 & brief & s4 & _ & H1 & H2 & H3 & H4 & Hb & _).
    destruct (proj1 (proj2 (score_house_true_iff_required_stages offline))
                (House.id scored_before) (state_of [scored_before]) scored_before
                ltac:(vm_compute; reflexivity) eq_refl
                v s1 fit s2 e s3 brief s4 H1 H2 H3 H4)
      as (h' & Hrun & Hload & Hpot & Hv & Hvis & Hfit & Hbrief).
    exists s4, h'. split; [exact Hrun |]. split; [exact Hload |].
    split; [exact Hpot |]. split; [rewrite Hvis; exact Hv |].
    split; [rewrite Hfit; eauto | rewrite Hbrief; exact Hb].
  - apply (proj1 (proj2 (proj2 (score_house_true_iff_required_stages offline))) _ _ oak_ave).
    + vm_compute. reflexivity.
    + reflexivity.
    + reflexivity.
Defined.

Lemma required_stage_failure_writes_nothing_witness :
  exists s' h',
    score_house offline (House.id elm_st) (state_of [elm_st]) = (Ok false, s') /\
    JsonStore.load_house (store s') (House.id elm_st) = Some h' /\
    House.present_fit_score h' = None /\
    House.potential_score h' = None /\
    House.brief h' = "".
Proof.
  apply (required_stage_failure_writes_nothing offline _ _ elm_st).
  - vm_compute. reflexivity.
  - repeat split.
  - left.
    destruct (VisionAgent.analyze offline (House.id elm_st) (state_of [elm_st]))
      as [r s1] eqn:H.
    pose proof H as C. vm_compute in C. apply pair_eq_inv in C. destruct C as [<- <-].
    eauto.
Defined.

End RunFacts.

(** ** The batch *)

Section BatchFacts.

Import PipelineSpec Orchestrator Examples.

Variable w : World.

Notation add_outcomes outcomes results :=
  (fold_left (fun results o => <[fst o := snd o]> results) outcomes results).

Lemma score_each_run (house_ids : list string) :
  forall (s : state) (results : gmap string bool),
    Forall (readable s) house_ids ->
    exists outcomes s',
      batch_run w s house_ids outcomes s' /\
      score_each w house_ids results s = (Ok (add_outcomes outcomes results), s').
Proof.
  induction house_ids as [| house_id rest IH]; intros s results Hall.
  - exists [], s. split; [constructor | reflexivity].
  - apply Forall_cons in Hall. destruct Hall as [[house Hload] Hrest].
    cbn [score_each]. unfold bind at 1. rewrite Hload. unfold bind at 1.
    destruct (score_house_returns w house_id s ltac:(exists house; exact Hload))
      as (b & s1 & Hrun).
    rewrite Hrun.
    assert (Hall1 : Forall (readable s1) rest).
    { eapply Forall_impl; [exact Hrest |]. intros k.
      apply grows_readable. eapply stable_score_house, Hrun. }
    destruct (IH s1 (<[house_id := b]> results) Hall1) as (outcomes & s' & Hrest' & Heach).
    exists ((house_id, b) :: outcomes), s'. split.
    + econstructor; eassumption.
    + rewrite Heach. reflexivity.
Qed.

(** The loop stops at the first file that cannot be read, with the
    exception of the read. *)
Lemma score_each_stops (good : list string) (bad : string) (rest : list string) (e : exn)
    (s s1 : state) (outcomes : list (string * bool)) :
  batch_run w s good outcomes s1 ->
  load_house bad s1 = (Raise e, s1) ->
  forall results, score_each w (good ++ bad :: rest) results s = (Raise e, s1).
Proof.
  intros Hrun Hbad. induction Hrun as [s | s house_id ids b s1 outcomes s' Hstep Hrest IH];
    intros results.
  - cbn [app score_each]. unfold bind at 1. rewrite Hbad. reflexivity.
  - cbn [app score_each]. unfold bind at 1.
    destruct (score_house_loaded w _ _ _ _ Hstep) as [house ->].
    unfold bind at 1. rewrite Hstep. apply IH, Hbad.
Qed.

Lemma batch_run_ids (s s' : state) (house_ids : list string) (outcomes : list (string * bool)) :
  batch_run w s house_ids outcomes s' -> outcomes.*1 = house_ids.
Proof. induction 1; [reflexivity | rewrite fmap_cons; simpl; congruence]. Qed.

Lemma dom_fold_results (outcomes : list (string * bool)) :
  forall results : gmap string bool,
    dom (add_outcomes outcomes results) = list_to_set (outcomes.*1) ∪ dom results.
Proof.
  induction outcomes as [| [k b] rest IH]; intros results; simpl.
  - set_solver.
  - rewrite IH, dom_insert_L. set_solver.
Qed.

Lemma lookup_fold_results (outcomes : list (string * bool)) :
  forall (results : gmap string bool) (k : string) (b : bool),
    add_outcomes outcomes results !! k = Some b ->
    (k, b) ∈ outcomes \/ results !! k = Some b.
Proof.
  induction outcomes as [| [k' b'] rest IH]; intros results k b; simpl.
  - auto.
  - intros H. apply IH in H. destruct H as [H | H].
    + left. by right.
    + rewrite lookup_insert in H. case_decide.
      * injection H as <-. subst. left. by left.
      * auto.
Qed.

Lemma batch_score_of_ids (ids : list string) (s : state) :
  batch_score w (Some ids) s
  = match ids with [] => (Ok ∅, s) | _ => score_each w ids ∅ s end.
Proof. unfold batch_score, bind, ret. destruct ids; reflexivity. Qed.

Lemma batch_score_of_store (s : state) :
  batch_score w None s
  = match unreadable s with
    | [] => batch_score w (Some (House.id <$> JsonStore.get_unscored_houses (store s))) s
    | (_, e) :: _ => (Raise e, s)
    end.
Proof.
  unfold batch_score. unfold bind at 1. unfold bind at 1. unfold get_unscored_houses.
  destruct (unreadable s) as [| [k e] l]; reflexivity.
Qed.

Lemma get_unscored_houses_stored (store : JsonStore.t) (h : House.t) :
  h ∈ JsonStore.get_unscored_houses store <->
  (exists k, JsonStore.houses store !! k = Some h) /\ House.present_fit_score h = None.
Proof.
  unfold JsonStore.get_unscored_houses.
  rewrite list_elem_of_filter, elem_of_list_houses. tauto.
Qed.

(** With no file that cannot be read, every identifier is readable. *)
Lemma unreadable_nil (s : state) :
  unreadable s = [] -> forall house_id, readable s house_id.
Proof.
  intros Hnil house_id. apply readable_iff. intros Hnone.
  destruct (damaged s !! house_id) as [e |] eqn:Hd; [exfalso | reflexivity].
  assert (Hin : (house_id, e) ∈ unreadable s).
  { unfold unreadable. apply list_elem_of_filter. split.
    - exact Hnone.
    - apply elem_of_map_to_list. exact Hd. }
  rewrite Hnil in Hin. inversion Hin.
Qed.

(** The first file that cannot be read is one. *)
Lemma unreadable_first (s : state) (k : string) (e : exn) (l : list (string * exn)) :
  unreadable s = (k, e) :: l -> load_house k s = (Raise e, s).
Proof.
  intros Hl.
  assert (Hin : (k, e) ∈ unreadable s) by (rewrite Hl; left).
  unfold unreadable in Hin. apply list_elem_of_filter in Hin. destruct Hin as [Hnone Hd].
  apply elem_of_map_to_list in Hd. simpl in Hnone.
  unfold load_house. rewrite Hnone, Hd. reflexivity.
Qed.

(** C4. [score_house] returns a boolean on every identifier whose file
    can be read, whatever its stages raise, so a batch over identifiers
    that can all be read returns a mapping with a boolean for each.  The
    two reads that [batch_score] makes outside every handler are not
    isolated: a file that cannot be read stops the batch with the
    exception of the read, after the identifiers before it were run and
    with none of their results returned. *)
Theorem batch_score_stops_at_an_unreadable_record :
  (forall (house_id : string) (s : state),
     readable s house_id ->
     exists b s', score_house w house_id s = (Ok b, s')) /\
  (forall (house_ids : option (list string)) (s : state),
     let ids :=
       match house_ids with
       | Some ids => ids
       | None => House.id <$> JsonStore.get_unscored_houses (store s)
       end in
     match house_ids with
     | Some ids => Forall (readable s) ids
     | None => unreadable s = []
     end ->
     exists outcomes s',
       batch_run w s ids outcomes s' /\
       batch_score w house_ids s = (Ok (results_of outcomes), s') /\
       dom (results_of outcomes) = list_to_set ids /\
       forall house_id, house_id ∈ ids ->
         exists b, results_of outcomes !! house_id = Some b /\ (house_id, b) ∈ outcomes) /\
  (forall (store : JsonStore.t) (h : House.t),
     h ∈ JsonStore.get_unscored_houses store <->
     (exists k, JsonStore.houses store !! k = Some h) /\ House.present_fit_score h = None) /\
  (forall (house_id : string) (s : state) (e : exn),
     load_house house_id s = (Raise e, s) ->
     score_house w house_id s = (Raise e, s)) /\
  (forall (good : list string) (bad : string) (rest : list string) (e : exn)
          (s s1 : state) (outcomes : list (string * bool)),
     batch_run w s good outcomes s1 ->
     load_house bad s1 = (Raise e, s1) ->
     batch_score w (Some (good ++ bad :: rest)%list) s = (Raise e, s1)) /\
  (forall (s : state) (k : string) (e : exn) (l : list (string * exn)),
     unreadable s = (k, e) :: l ->
     load_house k s = (Raise e, s) /\ batch_score w None s = (Raise e, s)).
Proof.
  split; [exact (score_house_returns w) |].
  split; [| split; [exact get_unscored_houses_stored |]].
  - intros house_ids s ids Hread.
    assert (Hall : Forall (readable s) ids).
    { destruct house_ids as [l |]; [exact Hread |].
      apply Forall_forall. intros k _. apply unreadable_nil, Hread. }
    assert (Hbatch : batch_score w house_ids s
                     = match ids with [] => (Ok ∅, s) | _ => score_each w ids ∅ s end).
    { destruct house_ids as [l |]; [apply batch_score_of_ids |].
      rewrite batch_score_of_store, Hread. apply batch_score_of_ids. }
    destruct (score_each_run ids s ∅ Hall) as (outcomes & s' & Hrun & Heach).
    exists outcomes, s'. split; [exact Hrun |].
    assert (Hdom : dom (results_of outcomes) = list_to_set ids).
    { unfold results_of. rewrite dom_fold_results, (batch_run_ids _ _ _ _ Hrun). set_solver. }
    split; [| split; [exact Hdom |]].
    + rewrite Hbatch. destruct ids as [| i rest] eqn:Hids; [| exact Heach].
      inversion Hrun; subst. reflexivity.
    + intros house_id Hin.
      assert (Hd : house_id ∈ dom (results_of outcomes)) by (rewrite Hdom; set_solver).
      apply elem_of_dom in Hd. destruct Hd as [b Hb]. exists b. split; [exact Hb |].
      apply lookup_fold_results in Hb. destruct Hb as [Hb | Hb]; [exact Hb |].
      rewrite lookup_empty in Hb. discriminate.
  - split; [exact (score_house_raises w) | split].
    + intros good bad rest e s s1 outcomes Hrun Hbad.
      rewrite batch_score_of_ids.
      rewrite (score_each_stops good bad rest e s s1 outcomes Hrun Hbad ∅).
      destruct good; reflexivity.
    + intros s k e l Hl. split; [exact (unreadable_first s k e l Hl) |].
      rewrite batch_score_of_store, Hl. reflexivity.
Qed.

End BatchFacts.

Lemma batch_score_stops_at_an_unreadable_record_witness :
  let s := Examples.with_refused_record (Examples.state_of [Examples.elm_st; Examples.oak_ave]) in
  (exists outcomes s',
     Orchestrator.batch_score Examples.offline
       (Some [House.id Examples.elm_st; House.id Examples.oak_ave]) s
     = (Ok (PipelineSpec.results_of outcomes), s') /\
     outcomes = [(House.id Examples.elm_st, false); (House.id Examples.oak_ave, true)]) /\
  (exists s1,
     Orchestrator.batch_score Examples.offline
       (Some ([House.id Examples.elm_st] ++ Examples.pine_rd :: [House.id Examples.oak_ave])%list) s
     = (Raise ValidationError, s1)) /\
  Orchestrator.batch_score Examples.offline None s = (Raise ValidationError, s).
Proof.
  cbv zeta.
  set (s := Examples.with_refused_record (Examples.state_of [Examples.elm_st; Examples.oak_ave])).
  pose proof (batch_score_stops_at_an_unreadable_record Examples.offline)
    as (_ & Hbatch & _ & _ & Hstop & Hlist).
  split; [| split].
  - destruct (Hbatch (Some [House.id Examples.elm_st; House.id Examples.oak_ave]) s)
      as (outcomes & s' & Hrun & Hres & _).
    { repeat constructor; vm_compute; eexists; reflexivity. }
    exists outcomes, s'. split; [exact Hres |].
    inversion Hrun as [| ? ? ? b1 s1 out1 ? H1 Hrest]; subst.
    inversion Hrest as [| ? ? ? b2 s2 out2 ? H2 Hnil]; subst.
    inversion Hnil; subst.
    pose proof H1 as C1. vm_compute in C1. apply pair_eq_inv in C1. destruct C1 as [C1 <-].
    injection C1 as <-.
    pose proof H2 as C2. vm_compute in C2. apply pair_eq_inv in C2. destruct C2 as [C2 _].
    injection C2 as <-.
    reflexivity.
  - destruct (Orchestrator.score_house Examples.offline (House.id Examples.elm_st) s)
      as [r1 s1] eqn:H1.
    pose proof H1 as C1. vm_compute in C1. apply pair_eq_inv in C1. destruct C1 as [<- Hs1].
    exists s1.
    apply (Hstop [House.id Examples.elm_st] Examples.pine_rd [House.id Examples.oak_ave]
             ValidationError s s1 [(House.id Examples.elm_st, false)]).
    + econstructor; [exact H1 | constructor].
    + rewrite <- Hs1. vm_compute. reflexivity.
  - apply (Hlist s Examples.pine_rd ValidationError []). vm_compute. reflexivity.
Defined.

(** ** The counter of the decoder does not run out *)

Section DecoderFacts.

Import Json.

Local Notation size := String.length.

Lemma tail_size (s : string) : (size (tail s) <= size s)%nat.
Proof. unfold tail. destruct s; simpl; lia. Qed.

Lemma starts_with_size (c : ascii) (s : string) :
  starts_with c s = true -> (S (size (tail s)) = size s)%nat.
Proof. unfold tail. destruct s; simpl; [discriminate | reflexivity]. Qed.

Lemma skip_ws_size (s : string) : (size (skip_ws s) <= size s)%nat.
Proof.
  induction s as [| c r IH]; simpl; [lia |].
  destruct (is_ws c); simpl; lia.
Qed.

Lemma drop_size (n : nat) (s : string) : (size (Py.drop n s) = size s - n)%nat.
Proof.
  revert s. induction n as [| n IH]; intros s; simpl; [lia |].
  destruct s; simpl; [reflexivity | apply IH].
Qed.

Lemma prefix_size (p s : string) : String.prefix p s = true -> (size p <= size s)%nat.
Proof.
  revert s. induction p as [| c p IH]; intros s; [simpl; lia |].
  destruct s as [| c' s]; simpl; [discriminate |].
  destruct (ascii_dec c c'); [| discriminate]. intros H. apply IH in H. lia.
Qed.

Lemma literal_size (word : string) (v v' : pyobj) (s rest : string) :
  (0 < size word)%nat -> literal word v s = Some (v', rest) -> (size rest < size s)%nat.
Proof.
  intros Hw. unfold literal. destruct (String.prefix word s) eqn:Hp; [| discriminate].
  intros [= <- <-]. apply prefix_size in Hp. rewrite drop_size. lia.
Qed.

Lemma digits_size (s : string) (ds : list Z) (rest : string) :
  digits s = (ds, rest) -> (size rest + length ds = size s)%nat.
Proof.
  revert ds rest. induction s as [| c r IH]; intros ds rest; simpl.
  - intros [= <- <-]. reflexivity.
  - destruct (digit c).
    + destruct (digits r) as [ds' rest'] eqn:E. intros [= <- <-].
      specialize (IH _ _ eq_refl). simpl. lia.
    + intros [= <- <-]. simpl. lia.
Qed.

Lemma int_part_size (s : string) (ds : list Z) (rest : string) :
  int_part s = Some (ds, rest) -> (size rest < size s)%nat.
Proof.
  unfold int_part. destruct (starts_with "0" s) eqn:H0.
  - intros [= <- <-]. apply starts_with_size in H0. lia.
  - destruct (digits s) as [[| d l] r] eqn:E; [discriminate |].
    intros [= <- <-]. apply digits_size in E. simpl in E. lia.
Qed.

Lemma frac_part_size (s : string) (frac : option (list Z)) (rest : string) :
  frac_part s = (frac, rest) -> (size rest <= size s)%nat.
Proof.
  unfold frac_part. destruct (starts_with "." s); [| intros [= <- <-]; lia].
  destruct (digits (tail s)) as [[| d l] r] eqn:E; intros [= <- <-]; [lia |].
  apply digits_size in E. pose proof (tail_size s). simpl in E. lia.
Qed.

Lemma exp_part_size (s : string) (e : option Z) (rest : string) :
  exp_part s = (e, rest) -> (size rest <= size s)%nat.
Proof.
  unfold exp_part. destruct (starts_with "e" s || starts_with "E" s);
    [| intros [= <- <-]; lia].
  cbv zeta.
  set (r' := if starts_with "-" (tail s) || starts_with "+" (tail s)
             then tail (tail s) else tail s).
  assert (Hr' : (size r' <= size s)%nat).
  { subst r'. pose proof (tail_size s). pose proof (tail_size (tail s)).
    destruct (_ || _); lia. }
  destruct (digits r') as [[| d l] rest0] eqn:E; intros [= <- <-]; [lia |].
  apply digits_size in E. simpl in E. lia.
Qed.

Lemma number_size (s : string) (v : pyobj) (rest : string) :
  number s = Some (v, rest) -> (size rest < size s)%nat.
Proof.
  unfold number. cbv zeta.
  set (s1 := if starts_with "-" s then tail s else s).
  assert (Hs1 : (size s1 <= size s)%nat).
  { subst s1. pose proof (tail_size s). destruct (starts_with "-" s); lia. }
  destruct (int_part s1) as [[ids s2] |] eqn:Hi; [| discriminate].
  apply int_part_size in Hi.
  destruct (frac_part s2) as [frac s3] eqn:Hf. apply frac_part_size in Hf.
  destruct (exp_part s3) as [e s4] eqn:He. apply exp_part_size in He.
  destruct frac, e; intros [= <- <-]; lia.
Qed.

Lemma hex4_size (s rest : string) (n : Z) :
  hex4 s = Some (n, rest) -> (size rest < size s)%nat.
Proof.
  unfold hex4. destruct s as [| a [| b [| c [| d r]]]]; try discriminate.
  destruct (hexdigit a), (hexdigit b), (hexdigit c), (hexdigit d); try discriminate.
  intros [= <- <-]. simpl. lia.
Qed.

Lemma after_low_surrogate_size (s rest : string) :
  after_low_surrogate s = Some rest -> (size rest < size s)%nat.
Proof.
  unfold after_low_surrogate. destruct (_ && _); [| discriminate].
  destruct (hex4 (tail (tail s))) as [[lo r] |] eqn:Hh; [| discriminate].
  destruct (Py.between _ _ _); [| discriminate]. intros [= <-].
  apply hex4_size in Hh. pose proof (tail_size s). pose proof (tail_size (tail s)). lia.
Qed.

Lemma scanstring_size (fuel : nat) :
  forall (acc s str rest : string),
    scanstring fuel acc s = Some (str, rest) -> (size rest < size s)%nat.
Proof.
  induction fuel as [| fuel IH]; intros acc s str rest; [discriminate |].
  destruct s as [| c r]; [discriminate |]. cbn [scanstring].
  destruct (Ascii.eqb c quote); [intros [= <- <-]; simpl; lia |].
  destruct (Ascii.eqb c backslash).
  - destruct (starts_with "u" r) eqn:Hu.
    + destruct (hex4 (tail r)) as [[hi r'] |] eqn:Hh; [| discriminate].
      apply hex4_size in Hh. pose proof (tail_size r).
      destruct (Py.between _ _ _).
      * destruct (after_low_surrogate r') as [r'' |] eqn:Hl.
        -- apply after_low_surrogate_size in Hl. intros Hrun. apply IH in Hrun. simpl. lia.
        -- intros Hrun. apply IH in Hrun. simpl. lia.
      * intros Hrun. apply IH in Hrun. simpl. lia.
    + destruct r as [| c' r']; [discriminate |].
      destruct (escaped c'); [| discriminate].
      intros Hrun. apply IH in Hrun. simpl. lia.
  - destruct (Py.code c <? 32); [discriminate |].
    intros Hrun. apply IH in Hrun. simpl. lia.
Qed.

(** One step more than the characters left is enough for a string. *)
Lemma scanstring_stable (fuel : nat) :
  forall (acc s : string) (fuel' : nat),
    (size s + 1 <= fuel)%nat -> (fuel <= fuel')%nat ->
    scanstring fuel' acc s = scanstring fuel acc s.
Proof.
  induction fuel as [| fuel IH]; intros acc s fuel' Hsize Hle; [lia |].
  destruct fuel' as [| fuel']; [lia |].
  destruct s as [| c r]; [reflexivity |]. cbn [scanstring]. simpl in Hsize.
  destruct (Ascii.eqb c quote); [reflexivity |].
  destruct (Ascii.eqb c backslash).
  - destruct (starts_with "u" r) eqn:Hu.
    + destruct (hex4 (tail r)) as [[hi r'] |] eqn:Hh; [| reflexivity].
      apply hex4_size in Hh. pose proof (tail_size r).
      destruct (Py.between _ _ _).
      * destruct (after_low_surrogate r') as [r'' |] eqn:Hl.
        -- apply after_low_surrogate_size in Hl. apply IH; lia.
        -- apply IH; lia.
      * apply IH; lia.
    + destruct r as [| c' r']; [reflexivity |].
      destruct (escaped c'); [| reflexivity]. simpl in Hsize. apply IH; lia.
  - destruct (Py.code c <? 32); [reflexivity |]. apply IH; lia.
Qed.

Lemma string_at_size (s str rest : string) :
  string_at s = Some (str, rest) -> (S (size rest) < size s)%nat.
Proof.
  unfold string_at. destruct (starts_with quote s) eqn:Hq; [| discriminate].
  intros Hrun. apply scanstring_size in Hrun. apply starts_with_size in Hq. lia.
Qed.

(** What [scan_once] leaves is shorter than what it was given. *)
Lemma scan_size (fuel : nat) :
  (forall s v rest, scan_once fuel s = Some (v, rest) -> (size rest < size s)%nat) /\
  (forall acc s v rest, elements fuel acc s = Some (v, rest) -> (size rest < size s)%nat) /\
  (forall acc s v rest, members fuel acc s = Some (v, rest) -> (size rest < size s)%nat).
Proof.
  induction fuel as [| fuel (IHs & IHe & IHm)]; [repeat split; discriminate |].
  split; [| split].
  - intros s v rest. cbn [scan_once].
    destruct (starts_with quote s).
    { destruct (string_at s) as [[str r] |] eqn:Hs; [| discriminate].
      intros [= <- <-]. apply string_at_size in Hs. lia. }
    destruct (starts_with "{" s) eqn:Hobj.
    { apply starts_with_size in Hobj. pose proof (skip_ws_size (tail s)).
      destruct (starts_with "}" (skip_ws (tail s))) eqn:Hend.
      - intros [= <- <-]. apply starts_with_size in Hend. lia.
      - intros Hrun. apply IHm in Hrun. lia. }
    destruct (starts_with "[" s) eqn:Harr.
    { apply starts_with_size in Harr. pose proof (skip_ws_size (tail s)).
      destruct (starts_with "]" (skip_ws (tail s))) eqn:Hend.
      - intros [= <- <-]. apply starts_with_size in Hend. lia.
      - intros Hrun. apply IHe in Hrun. lia. }
    destruct (starts_with "n" s); [apply literal_size; simpl; lia |].
    destruct (starts_with "t" s); [apply literal_size; simpl; lia |].
    destruct (starts_with "f" s); [apply literal_size; simpl; lia |].
    destruct (number s) as [[v' r] |] eqn:Hn.
    { intros [= <- <-]. apply number_size in Hn. exact Hn. }
    destruct (starts_with "N" s); [apply literal_size; simpl; lia |].
    destruct (starts_with "I" s); [apply literal_size; simpl; lia |].
    destruct (starts_with "-" s); [apply literal_size; simpl; lia | discriminate].
  - intros acc s v rest. cbn [elements].
    destruct (scan_once fuel s) as [[v' r] |] eqn:Hv; [| discriminate].
    apply IHs in Hv. cbv zeta. pose proof (skip_ws_size r).
    destruct (starts_with "]" (skip_ws r)) eqn:Hend.
    { intros [= <- <-]. apply starts_with_size in Hend. lia. }
    destruct (starts_with "," (skip_ws r)) eqn:Hsep; [| discriminate].
    intros Hrun. apply IHe in Hrun. apply starts_with_size in Hsep.
    pose proof (skip_ws_size (tail (skip_ws r))). lia.
  - intros acc s v rest. cbn [members].
    destruct (string_at s) as [[key r] |] eqn:Hk; [| discriminate].
    apply string_at_size in Hk. cbv zeta. pose proof (skip_ws_size r).
    destruct (starts_with ":" (skip_ws r)) eqn:Hcolon; [| discriminate].
    apply starts_with_size in Hcolon.
    pose proof (skip_ws_size (tail (skip_ws r))).
    destruct (scan_once fuel _) as [[v' r'] |] eqn:Hv; [| discriminate].
    apply IHs in Hv. pose proof (skip_ws_size r').
    destruct (starts_with "}" (skip_ws r')) eqn:Hend.
    { intros [= <- <-]. apply starts_with_size in Hend. lia. }
    destruct (starts_with "," (skip_ws r')) eqn:Hsep; [| discriminate].
    intros Hrun. apply IHm in Hrun. apply starts_with_size in Hsep.
    pose proof (skip_ws_size (tail (skip_ws r'))). lia.
Qed.

(** Past twice the length of the text, more steps change nothing. *)
Lemma scan_stable (fuel : nat) :
  (forall s fuel',
     (2 * size s + 1 <= fuel)%nat -> (fuel <= fuel')%nat ->
     scan_once fuel' s = scan_once fuel s) /\
  (forall acc s fuel',
     (2 * size s + 2 <= fuel)%nat -> (fuel <= fuel')%nat ->
     elements fuel' acc s = elements fuel acc s) /\
  (forall acc s fuel',
     (2 * size s + 2 <= fuel)%nat -> (fuel <= fuel')%nat ->
     members fuel' acc s = members fuel acc s).
Proof.
  induction fuel as [| fuel (IHs & IHe & IHm)]; [repeat split; intros; lia |].
  split; [| split].
  - intros s [| fuel'] Hsize Hle; [lia |]. cbn [scan_once].
    destruct (starts_with quote s); [reflexivity |].
    destruct (starts_with "{" s) eqn:Hobj.
    { cbv zeta. destruct (starts_with "}" _); [reflexivity |].
      apply starts_with_size in Hobj. pose proof (skip_ws_size (tail s)).
      apply IHm; lia. }
    destruct (starts_with "[" s) eqn:Harr.
    { cbv zeta. destruct (starts_with "]" _); [reflexivity |].
      apply starts_with_size in Harr. pose proof (skip_ws_size (tail s)).
      apply IHe; lia. }
    reflexivity.
  - intros acc s [| fuel'] Hsize Hle; [lia |]. cbn [elements].
    rewrite (IHs s fuel') by lia.
    destruct (scan_once fuel s) as [[v r] |] eqn:Hv; [| reflexivity].
    apply (proj1 (scan_size fuel)) in Hv. cbv zeta.
    destruct (starts_with "]" (skip_ws r)); [reflexivity |].
    destruct (starts_with "," (skip_ws r)) eqn:Hsep; [| reflexivity].
    apply starts_with_size in Hsep. pose proof (skip_ws_size r).
    pose proof (skip_ws_size (tail (skip_ws r))).
    apply IHe; lia.
  - intros acc s [| fuel'] Hsize Hle; [lia |]. cbn [members].
    destruct (string_at s) as [[key r] |] eqn:Hk; [| reflexivity].
    apply string_at_size in Hk. cbv zeta. pose proof (skip_ws_size r).
    destruct (starts_with ":" (skip_ws r)) eqn:Hcolon; [| reflexivity].
    apply starts_with_size in Hcolon.
    pose proof (skip_ws_size (tail (skip_ws r))).
    rewrite (IHs (skip_ws (tail (skip_ws r))) fuel') by lia.
    destruct (scan_once fuel _) as [[v r'] |] eqn:Hv; [| reflexivity].
    apply (proj1 (scan_size fuel)) in Hv. pose proof (skip_ws_size r').
    destruct (starts_with "}" (skip_ws r')); [reflexivity |].
    destruct (starts_with "," (skip_ws r')) eqn:Hsep; [| reflexivity].
    apply starts_with_size in Hsep.
    pose proof (skip_ws_size (tail (skip_ws r'))).
    apply IHm; lia.
Qed.

(** [loads] gives its decoder steps enough: with any larger number of
    them the text decodes to the same thing. *)
Lemma loads_counter_suffices (text : string) (fuel : nat) :
  (2 * size text + 2 <= fuel)%nat ->
  scan_once fuel (skip_ws text) = scan_once (2 * size text + 2) (skip_ws text).
Proof.
  intros Hfuel. pose proof (skip_ws_size text).
  apply (proj1 (scan_stable (2 * size text + 2))); lia.
Qed.

End DecoderFacts.
